(** * Durable atomic commitment (2PC / 3PC): participant and coordinator

    A shallow embedding of [participant.py] and [coordinator.py].

    Conventions of the embedding.
    - Python [str] is [string]; the model covers ASCII text (code points
      below 128), which is where [str.upper], [str.strip] and [json.dumps]
      are described here.
    - A decoded JSON value is a [json] tree; JSON numbers are integers.
    - A Python [dict] used as a table ([kv], [TX], [votes]) is a [gmap].
    - A raised exception is the [Raise] branch of [result]; a handler that
      raises sends no HTTP reply.
    - [time.time()] is an explicit clock reading handed to the code.
    - The WAL file is its text content; opening it in append mode creates it.
    - [print] calls (diagnostics) are not part of the model. *)

From Stdlib Require Import ZArith Ascii String List Bool Lia.
From Stdlib Require Import DecimalString DecimalFacts DecimalPos DecimalZ.
From stdpp Require Import base option list gmap strings fin_maps.

Local Open Scope string_scope.
Local Open Scope Z_scope.

(** ** Exceptions and results *)

Inductive exn :=
| AttributeError
| KeyError
| TypeError
| IndexError
| ValueError
| JSONDecodeError
| URLError.

Inductive result (A : Type) :=
| Ok (a : A)
| Raise (e : exn).

Arguments Ok {A} a.
Arguments Raise {A} e.

Definition bind {A B : Type} (r : result A) (k : A -> result B) : result B :=
  match r with
  | Ok a => k a
  | Raise e => Raise e
  end.

Notation "'let*' x ':=' r 'in' k" := (bind r (fun x => k))
  (at level 10, x name, r at level 100, k at level 200).

Definition is_ok {A : Type} (r : result A) : bool :=
  match r with Ok _ => true | Raise _ => false end.

(** ** Python string primitives *)

Module Py.

Definition LF : ascii := "010"%char.
Definition CR : ascii := "013"%char.
Definition SP : ascii := " "%char.
Definition DQ : ascii := "034"%char.
Definition SQ : ascii := "039"%char.
Definition BS : ascii := "092"%char.

Definition chr (c : ascii) : string := String c EmptyString.

(** [str.isspace] on one ASCII character: TAB, LF, VT, FF, CR, FS, GS, RS,
    US and the space. *)
Definition is_space (c : ascii) : bool :=
  let n := nat_of_ascii c in
  ((9 <=? n) && (n <=? 13) || (28 <=? n) && (n <=? 32))%nat.

(** [c.upper()] for an ASCII character. *)
Definition upper_char (c : ascii) : ascii :=
  let n := nat_of_ascii c in
  if ((97 <=? n) && (n <=? 122))%nat then ascii_of_nat (n - 32) else c.

(** [s.upper()] *)
Fixpoint upper (s : string) : string :=
  match s with
  | EmptyString => EmptyString
  | String c s' => String (upper_char c) (upper s')
  end.

(** [s.lstrip()] *)
Fixpoint lstrip (s : string) : string :=
  match s with
  | EmptyString => EmptyString
  | String c s' => if is_space c then lstrip s' else s
  end.

(** Removes the trailing characters that satisfy [p]. *)
Fixpoint rstrip_by (p : ascii -> bool) (s : string) : string :=
  match s with
  | EmptyString => EmptyString
  | String c s' =>
      match rstrip_by p s' with
      | EmptyString => if p c then EmptyString else chr c
      | r => String c r
      end
  end.

(** [s.rstrip()] *)
Definition rstrip (s : string) : string := rstrip_by is_space s.

(** [s.rstrip("\n")] *)
Definition rstrip_nl (s : string) : string := rstrip_by (Ascii.eqb LF) s.

(** [s.strip()] *)
Definition strip (s : string) : string := rstrip (lstrip s).

(** [s.split(sep, maxsplit)] for a one-character separator: empty fields are
    kept and at most [maxsplit] cuts are made. *)
Fixpoint split (sep : ascii) (s : string) (maxsplit : nat) {struct s}
  : list string :=
  match s with
  | EmptyString => [EmptyString]
  | String c s' =>
      match maxsplit with
      | O => [s]
      | S m =>
          if Ascii.eqb c sep then EmptyString :: split sep s' m
          else
            match split sep s' maxsplit with
            | [] => [chr c]
            | h :: t => String c h :: t
            end
      end
  end.

(** [s.split()]: cut at runs of whitespace, no empty fields. *)
Fixpoint split_ws_go (cur : option string) (s : string) : list string :=
  match s with
  | EmptyString =>
      match cur with Some w => [String.rev w] | None => [] end
  | String c s' =>
      if is_space c then
        match cur with
        | Some w => String.rev w :: split_ws_go None s'
        | None => split_ws_go None s'
        end
      else
        split_ws_go (Some (String c (default EmptyString cur))) s'
  end.

Definition split_ws (s : string) : list string := split_ws_go None s.

(** Iterating a text file opened with universal newlines: each of LF, CR and
    CR LF ends a line, and the line is handed over with a trailing LF. *)
Fixpoint readlines (s : string) : list string :=
  match s with
  | EmptyString => []
  | String c s' =>
      if Ascii.eqb c LF then chr LF :: readlines s'
      else if Ascii.eqb c CR then
        match s' with
        | String c' s'' =>
            if Ascii.eqb c' LF then chr LF :: readlines s''
            else chr LF :: readlines s'
        | EmptyString => [chr LF]
        end
      else
        match readlines s' with
        | [] => [chr c]
        | l :: ls => String c l :: ls
        end
  end.

(** Every character of [s] satisfies [p]. *)
Fixpoint all_chars (p : ascii -> bool) (s : string) : bool :=
  match s with
  | EmptyString => true
  | String c s' => p c && all_chars p s'
  end.

(** A non-empty text without whitespace: what [strip] and [split] hand back
    as one field. *)
Definition is_token (s : string) : bool :=
  match s with
  | EmptyString => false
  | String _ _ => all_chars (fun c => negb (is_space c)) s
  end.

(** [sep.join(l)] *)
Fixpoint join (sep : string) (l : list string) : string :=
  match l with
  | [] => EmptyString
  | [x] => x
  | x :: rest => x ++ sep ++ join sep rest
  end.

(** A [dict] whose insertion order matters, as the list of its items:
    [d.get(k)] and [d[k] = v]; a key already present keeps its place. *)
Fixpoint dict_get {A : Type} (d : list (string * A)) (k : string) : option A :=
  match d with
  | [] => None
  | (k', v) :: rest => if String.eqb k' k then Some v else dict_get rest k
  end.

Fixpoint dict_set {A : Type} (d : list (string * A)) (k : string) (v : A)
  : list (string * A) :=
  match d with
  | [] => [(k, v)]
  | (k', v') :: rest =>
      if String.eqb k' k then (k', v) :: rest else (k', v') :: dict_set rest k v
  end.

(** Truthiness of an optional string: [None] and the empty string are
    false. *)
Definition truthy (o : option string) : bool :=
  match o with
  | Some (String _ _) => true
  | _ => false
  end.

(** [str(n)] for an integer. *)
Definition str_int (z : Z) : string :=
  DecimalString.NilZero.string_of_int (Z.to_int z).

Definition hex_digit (n : nat) : ascii :=
  if (n <? 10)%nat then ascii_of_nat (48 + n) else ascii_of_nat (87 + n).

Definition hex2 (c : ascii) : string :=
  let n := nat_of_ascii c in
  String (hex_digit (n / 16)) (chr (hex_digit (n mod 16))).

Definition printable (c : ascii) : bool :=
  let n := nat_of_ascii c in ((32 <=? n) && (n <=? 126))%nat.

Fixpoint contains (c : ascii) (s : string) : bool :=
  match s with
  | EmptyString => false
  | String d s' => Ascii.eqb c d || contains c s'
  end.

(** [repr(s)] for a string: single quotes unless the text has a single
    quote and no double quote. *)
Definition repr_char (q : ascii) (c : ascii) : string :=
  if Ascii.eqb c BS then String BS (chr BS)
  else if Ascii.eqb c q then String BS (chr q)
  else if Ascii.eqb c LF then String BS "n"
  else if Ascii.eqb c CR then String BS "r"
  else if Ascii.eqb c "009"%char then String BS "t"
  else if printable c then chr c
  else String BS (String "x" (hex2 c)).

Fixpoint repr_body (q : ascii) (s : string) : string :=
  match s with
  | EmptyString => EmptyString
  | String c s' => repr_char q c ++ repr_body q s'
  end.

Definition repr_str (s : string) : string :=
  let q := if contains SQ s && negb (contains DQ s) then DQ else SQ in
  String q (repr_body q s ++ chr q).

End Py.


(** ** JSON values, [json.dumps] and [json.loads] *)

Module Json.

Import Py.

Unset Elimination Schemes.

Inductive json :=
| JNull
| JBool (b : bool)
| JNum (z : Z)
| JStr (s : string)
| JArr (l : list json)
| JObj (kvs : list (string * json)).

Set Elimination Schemes.

(** [d.get(k)] on the members of an object. *)
Definition lookup (kvs : list (string * json)) (k : string) : option json :=
  dict_get kvs k.

(** [d[k] = v] *)
Definition set (kvs : list (string * json)) (k : string) (v : json)
  : list (string * json) :=
  dict_set kvs k v.

(** [dict(pairs)] *)
Definition dict_of_pairs (pairs : list (string * json)) : list (string * json) :=
  fold_left (fun d kv => set d (fst kv) (snd kv)) pairs [].

(** No text occurs twice in [l]. *)
Fixpoint distinct (l : list string) : bool :=
  match l with
  | [] => true
  | k :: rest => negb (existsb (String.eqb k) rest) && distinct rest
  end.

(** A tree that is a decoded value: a [dict] holds each key once. *)
Fixpoint well_formed (v : json) : bool :=
  match v with
  | JArr l => forallb well_formed l
  | JObj kvs =>
      distinct (List.map fst kvs) && forallb (fun kv => well_formed (snd kv)) kvs
  | _ => true
  end.

(** [v == s] for a string literal [s]. *)
Definition eq_str (v : json) (s : string) : bool :=
  match v with
  | JStr t => String.eqb t s
  | _ => false
  end.

(** *** Serialising *)

Definition escape_char (c : ascii) : string :=
  if Ascii.eqb c DQ then String BS (chr DQ)
  else if Ascii.eqb c BS then String BS (chr BS)
  else if Ascii.eqb c LF then String BS "n"
  else if Ascii.eqb c CR then String BS "r"
  else if Ascii.eqb c "009"%char then String BS "t"
  else if Ascii.eqb c "008"%char then String BS "b"
  else if Ascii.eqb c "012"%char then String BS "f"
  else if printable c then chr c
  else String BS (String "u" (String "0" (String "0" (hex2 c)))).

Fixpoint escape (s : string) : string :=
  match s with
  | EmptyString => EmptyString
  | String c s' => escape_char c ++ escape s'
  end.

Definition dumps_str (s : string) : string :=
  String DQ (escape s ++ chr DQ).

(** [json.dumps(v)] with the default separators. *)
Fixpoint dumps (v : json) : string :=
  match v with
  | JNull => "null"
  | JBool true => "true"
  | JBool false => "false"
  | JNum z => str_int z
  | JStr s => dumps_str s
  | JArr l => "[" ++ join ", " (List.map dumps l) ++ "]"
  | JObj kvs =>
      "{" ++ join ", "
               (List.map (fun kv => dumps_str (fst kv) ++ ": " ++ dumps (snd kv)) kvs)
          ++ "}"
  end.

(** *** Parsing *)

Definition is_ws (c : ascii) : bool :=
  Ascii.eqb c SP || Ascii.eqb c "009"%char || Ascii.eqb c LF || Ascii.eqb c CR.

Fixpoint skip_ws (s : string) : string :=
  match s with
  | EmptyString => EmptyString
  | String c s' => if is_ws c then skip_ws s' else s
  end.

Fixpoint strip_prefix (p s : string) : option string :=
  match p, s with
  | EmptyString, _ => Some s
  | String a p', String b s' => if Ascii.eqb a b then strip_prefix p' s' else None
  | String _ _, EmptyString => None
  end.

Definition unescape (e : ascii) : option ascii :=
  if Ascii.eqb e DQ then Some DQ
  else if Ascii.eqb e BS then Some BS
  else if Ascii.eqb e "/"%char then Some "/"%char
  else if Ascii.eqb e "b"%char then Some "008"%char
  else if Ascii.eqb e "f"%char then Some "012"%char
  else if Ascii.eqb e "n"%char then Some LF
  else if Ascii.eqb e "r"%char then Some CR
  else if Ascii.eqb e "t"%char then Some "009"%char
  else None.

Definition hex_val (c : ascii) : option nat :=
  let n := nat_of_ascii c in
  if ((48 <=? n) && (n <=? 57))%nat then Some (n - 48)%nat
  else if ((97 <=? n) && (n <=? 102))%nat then Some (n - 87)%nat
  else if ((65 <=? n) && (n <=? 70))%nat then Some (n - 55)%nat
  else None.

Definition hex4_val (a b c d : ascii) : option nat :=
  match hex_val a, hex_val b, hex_val c, hex_val d with
  | Some x, Some y, Some z, Some w => Some (((x * 16 + y) * 16 + z) * 16 + w)%nat
  | _, _, _, _ => None
  end.

(** The body of a string literal, after its opening quote, up to and
    including the closing quote (strict mode: raw control characters are
    refused).  Escapes of code points above 255 are outside the model. *)
Fixpoint scanstring (s : string) : option (string * string) :=
  match s with
  | EmptyString => None
  | String c r =>
      if Ascii.eqb c DQ then Some (EmptyString, r)
      else if Ascii.eqb c BS then
        match r with
        | EmptyString => None
        | String e r' =>
            if Ascii.eqb e "u"%char then
              match r' with
              | String h1 (String h2 (String h3 (String h4 r''))) =>
                  match hex4_val h1 h2 h3 h4 with
                  | Some n =>
                      if (n <? 256)%nat then
                        match scanstring r'' with
                        | Some (t, rest) => Some (String (ascii_of_nat n) t, rest)
                        | None => None
                        end
                      else None
                  | None => None
                  end
              | _ => None
              end
            else
              match unescape e with
              | Some ch =>
                  match scanstring r' with
                  | Some (t, rest) => Some (String ch t, rest)
                  | None => None
                  end
              | None => None
              end
        end
      else if (nat_of_ascii c <? 32)%nat then None
      else
        match scanstring r with
        | Some (t, rest) => Some (String c t, rest)
        | None => None
        end
  end.

Definition is_digit (c : ascii) : bool :=
  let n := nat_of_ascii c in ((48 <=? n) && (n <=? 57))%nat.

Fixpoint span_digits (s : string) : string * string :=
  match s with
  | EmptyString => (EmptyString, EmptyString)
  | String c r =>
      if is_digit c then
        let '(ds, rest) := span_digits r in (String c ds, rest)
      else (EmptyString, s)
  end.

(** A fraction or an exponent after the integer part makes the number a
    float, which the model does not have. *)
Definition float_tail (s : string) : bool :=
  match s with
  | String c (String d r) =>
      if Ascii.eqb c "."%char then is_digit d
      else if Ascii.eqb c "e"%char || Ascii.eqb c "E"%char then
        if is_digit d then true
        else if Ascii.eqb d "+"%char || Ascii.eqb d "-"%char then
          match r with String x _ => is_digit x | EmptyString => false end
        else false
      else false
  | _ => false
  end.

Definition scan_nat (s : string) : option (Z * string) :=
  match s with
  | String c r =>
      if Ascii.eqb c "0"%char then Some (0, r)
      else if is_digit c then
        let '(ds, rest) := span_digits s in
        match NilZero.uint_of_string ds with
        | Some u => Some (Z.of_uint u, rest)
        | None => None
        end
      else None
  | EmptyString => None
  end.

Definition scan_int (s : string) : option (json * string) :=
  let r :=
    match s with
    | String c s' =>
        if Ascii.eqb c "-"%char then
          match scan_nat s' with
          | Some (n, rest) => Some (- n, rest)
          | None => None
          end
        else scan_nat s
    | EmptyString => None
    end in
  match r with
  | Some (z, rest) => if float_tail rest then None else Some (JNum z, rest)
  | None => None
  end.

(** One JSON value at the head of the text; the fuel bounds the nesting and
    the number of members read. *)
Fixpoint scan_once (fuel : nat) (s : string) {struct fuel}
  : option (json * string) :=
  match fuel with
  | O => None
  | S f =>
      match s with
      | EmptyString => None
      | String c r =>
          if Ascii.eqb c DQ then
            match scanstring r with
            | Some (t, rest) => Some (JStr t, rest)
            | None => None
            end
          else if Ascii.eqb c "{"%char then
            match skip_ws r with
            | String c1 r1 =>
                if Ascii.eqb c1 "}"%char then Some (JObj [], r1)
                else
                  match scan_members f (String c1 r1) with
                  | Some (m, rest) => Some (JObj (dict_of_pairs m), rest)
                  | None => None
                  end
            | EmptyString => None
            end
          else if Ascii.eqb c "["%char then
            match skip_ws r with
            | String c1 r1 =>
                if Ascii.eqb c1 "]"%char then Some (JArr [], r1)
                else
                  match scan_items f (String c1 r1) with
                  | Some (l, rest) => Some (JArr l, rest)
                  | None => None
                  end
            | EmptyString => None
            end
          else if Ascii.eqb c "n"%char then
            match strip_prefix "ull" r with
            | Some rest => Some (JNull, rest)
            | None => None
            end
          else if Ascii.eqb c "t"%char then
            match strip_prefix "rue" r with
            | Some rest => Some (JBool true, rest)
            | None => None
            end
          else if Ascii.eqb c "f"%char then
            match strip_prefix "alse" r with
            | Some rest => Some (JBool false, rest)
            | None => None
            end
          else scan_int s
      end
  end
with scan_items (fuel : nat) (s : string) {struct fuel}
  : option (list json * string) :=
  match fuel with
  | O => None
  | S f =>
      match scan_once f s with
      | Some (v, r) =>
          match skip_ws r with
          | String c r' =>
              if Ascii.eqb c ","%char then
                match scan_items f (skip_ws r') with
                | Some (l, rest) => Some (v :: l, rest)
                | None => None
                end
              else if Ascii.eqb c "]"%char then Some ([v], r')
              else None
          | EmptyString => None
          end
      | None => None
      end
  end
with scan_members (fuel : nat) (s : string) {struct fuel}
  : option (list (string * json) * string) :=
  match fuel with
  | O => None
  | S f =>
      match s with
      | String q r =>
          if Ascii.eqb q DQ then
            match scanstring r with
            | Some (k, r1) =>
                match skip_ws r1 with
                | String c1 r2 =>
                    if Ascii.eqb c1 ":"%char then
                      match scan_once f (skip_ws r2) with
                      | Some (v, r3) =>
                          match skip_ws r3 with
                          | String c3 r4 =>
                              if Ascii.eqb c3 "}"%char then Some ([(k, v)], r4)
                              else if Ascii.eqb c3 ","%char then
                                match scan_members f (skip_ws r4) with
                                | Some (m, rest) => Some ((k, v) :: m, rest)
                                | None => None
                                end
                              else None
                          | EmptyString => None
                          end
                      | None => None
                      end
                    else None
                | EmptyString => None
                end
            | None => None
            end
          else None
      | EmptyString => None
      end
  end.

(** [json.loads(s)] *)
Definition loads (s : string) : result json :=
  match scan_once (2 * String.length s + 2) (skip_ws s) with
  | Some (v, rest) =>
      match skip_ws rest with
      | EmptyString => Ok v
      | String _ _ => Raise JSONDecodeError
      end
  | None => Raise JSONDecodeError
  end.

(** *** [str] and [repr] of a decoded value *)

Fixpoint repr (v : json) : string :=
  match v with
  | JNull => "None"
  | JBool true => "True"
  | JBool false => "False"
  | JNum z => str_int z
  | JStr s => repr_str s
  | JArr l => "[" ++ join ", " (List.map repr l) ++ "]"
  | JObj kvs =>
      "{" ++ join ", "
               (List.map (fun kv => repr_str (fst kv) ++ ": " ++ repr (snd kv)) kvs)
          ++ "}"
  end.

(** [str(v)] *)
Definition str (v : json) : string :=
  match v with
  | JStr s => s
  | _ => repr v
  end.

(** Induction over a JSON value and the values nested in it. *)
Fixpoint json_nested_ind (P : json -> Prop)
  (HNull : P JNull) (HBool : forall b, P (JBool b)) (HNum : forall z, P (JNum z))
  (HStr : forall s, P (JStr s))
  (HArr : forall l, Forall P l -> P (JArr l))
  (HObj : forall kvs, Forall (fun kv => P kv.2) kvs -> P (JObj kvs))
  (v : json) {struct v} : P v :=
  match v with
  | JNull => HNull
  | JBool b => HBool b
  | JNum z => HNum z
  | JStr s => HStr s
  | JArr l =>
      HArr l
        ((fix items (l : list json) : Forall P l :=
            match l with
            | [] => @List.Forall_nil json P
            | x :: rest =>
                @List.Forall_cons json P x rest
                  (json_nested_ind P HNull HBool HNum HStr HArr HObj x) (items rest)
            end) l)
  | JObj kvs =>
      HObj kvs
        ((fix members (kvs : list (string * json)) : Forall (fun kv => P kv.2) kvs :=
            match kvs with
            | [] => @List.Forall_nil (string * json) (fun kv => P kv.2)
            | kv :: rest =>
                @List.Forall_cons (string * json) (fun kv => P kv.2) kv rest
                  (json_nested_ind P HNull HBool HNum HStr HArr HObj kv.2)
                  (members rest)
            end) kvs)
  end.

End Json.

(** ** The participant ([participant.py]) *)

Module Participant.

Import Py Json.

(** The values of the ["state"] field of a transaction record. *)
Inductive tx_state :=
| READY
| PRECOMMIT
| COMMITTED
| ABORTED.

(** A record of [TX]: the record written by [/abort] has no ["ts"] key and
    its ["op"] is [None], which is [JNull] here. *)
Record txrec := {
  state : tx_state;
  op : json;
  ts : option Z
}.

(** The globals set by [main]. *)
Record config := {
  NODE_ID : string;
  WAL_PATH : option string
}.

(** The mutable globals [kv] and [TX], and the WAL file ([None]: the file
    does not exist). *)
Record pstate := {
  kv : gmap string string;
  TX : gmap string txrec;
  wal : option string
}.

(** What leaves the process, in program order. *)
Inductive event :=
| WalAppend (text : string)
| Reply (code : Z) (payload : json).

(** The decoded request body: ["txid"] and, when present, ["op"]. *)
Record body := {
  body_txid : string;
  body_op : option json
}.

(** What a call of [do_POST] leaves behind: the globals, the events and
    either the reply sent or the exception that ended the handler. *)
Record response := {
  out_state : pstate;
  out_events : list event;
  out_reply : result (Z * json)
}.

Definition initial (file : option string) : pstate :=
  {| kv := ∅; TX := ∅; wal := file |}.

Definition set_TX (st : pstate) (tx : gmap string txrec) : pstate :=
  {| kv := kv st; TX := tx; wal := wal st |}.

Definition set_state (r : txrec) (s : tx_state) : txrec :=
  {| state := s; op := op r; ts := ts r |}.

(** [wal_append]: nothing is written without a WAL path; otherwise the line
    is written, flushed and fsynced before the call returns. *)
Definition wal_append (cfg : config) (line : string) (st : pstate)
  : pstate * list event :=
  if negb (truthy (WAL_PATH cfg)) then (st, [])
  else
    let text := rstrip_nl line ++ chr LF in
    ({| kv := kv st; TX := TX st;
        wal := Some (default EmptyString (wal st) ++ text) |},
     [WalAppend text]).

(** [validate_op]: [op.get("type", "").upper() == "SET"] *)
Definition validate_op (o : json) : result bool :=
  match o with
  | JObj kvs =>
      match default (JStr EmptyString) (lookup kvs "type") with
      | JStr t => Ok (String.eqb (upper t) "SET")
      | _ => Raise AttributeError
      end
  | _ => Raise AttributeError
  end.

(** [apply_op]: the right-hand side [str(op["value"])] is evaluated before
    the subscript [str(op["key"])]. *)
Definition apply_op (o : json) (store : gmap string string)
  : result (gmap string string) :=
  match o with
  | JObj kvs =>
      match lookup kvs "type" with
      | None => Raise KeyError
      | Some (JStr t) =>
          if String.eqb (upper t) "SET" then
            match lookup kvs "value" with
            | None => Raise KeyError
            | Some v =>
                match lookup kvs "key" with
                | None => Raise KeyError
                | Some k => Ok (<[str k := str v]> store)
                end
            end
          else Ok store
      | Some _ => Raise AttributeError
      end
  | _ => Raise TypeError
  end.

Definition vote_of (valid : bool) : string := if valid then "YES" else "NO".

Definition raised (st : pstate) (e : exn) : response :=
  {| out_state := st; out_events := []; out_reply := Raise e |}.

Definition replied (sw : pstate * list event) (code : Z) (payload : json)
  : response :=
  {| out_state := fst sw;
     out_events := snd sw ++ [Reply code payload];
     out_reply := Ok (code, payload) |}.

Definition ok_true : json := JObj [("ok", JBool true)].

(** [Handler.do_POST] *)
Definition do_POST (cfg : config) (now : Z) (path : string) (b : body)
  (st : pstate) : response :=
  let txid := body_txid b in
  if String.eqb path "/prepare" then
    match body_op b with
    | None => raised st KeyError
    | Some o =>
        match validate_op o with
        | Raise e => raised st e
        | Ok valid =>
            let vote := vote_of valid in
            let st1 :=
              set_TX st
                (<[txid := {| state := if String.eqb vote "YES" then READY else ABORTED;
                              op := o; ts := Some now |}]> (TX st)) in
            replied
              (wal_append cfg (txid ++ " PREPARE " ++ vote ++ " " ++ dumps o) st1)
              200 (JObj [("vote", JStr vote)])
        end
    end
  else if String.eqb path "/commit" then
    match TX st !! txid with
    | None => raised st TypeError
    | Some rec =>
        match apply_op (op rec) (kv st) with
        | Raise e => raised st e
        | Ok store =>
            let st1 :=
              {| kv := store;
                 TX := <[txid := set_state rec COMMITTED]> (TX st);
                 wal := wal st |} in
            replied (wal_append cfg (txid ++ " COMMIT") st1) 200 ok_true
        end
    end
  else if String.eqb path "/abort" then
    let st1 :=
      set_TX st (<[txid := {| state := ABORTED; op := JNull; ts := None |}]> (TX st)) in
    replied (wal_append cfg (txid ++ " ABORT") st1) 200 ok_true
  else if String.eqb path "/can_commit" then
    match body_op b with
    | None => raised st KeyError
    | Some o =>
        match validate_op o with
        | Raise e => raised st e
        | Ok valid =>
            let vote := vote_of valid in
            let st1 :=
              set_TX st
                (<[txid := {| state := READY; op := o; ts := Some now |}]> (TX st)) in
            replied
              (wal_append cfg (txid ++ " CAN_COMMIT " ++ vote ++ " " ++ dumps o) st1)
              200 (JObj [("vote", JStr vote)])
        end
    end
  else if String.eqb path "/precommit" then
    match TX st !! txid with
    | None => raised st KeyError
    | Some rec =>
        let st1 := set_TX st (<[txid := set_state rec PRECOMMIT]> (TX st)) in
        replied (wal_append cfg (txid ++ " PRECOMMIT") st1) 200 ok_true
    end
  else
    replied (st, []) 404 (JObj [("error", JStr "not found")]).

(** One iteration of the loop of [wal_replay] over the tables [kv] and
    [TX]; [now] is the clock reading of that iteration. *)
Definition replay_line (now : Z) (line : string)
  (tabs : gmap string string * gmap string txrec)
  : result (gmap string string * gmap string txrec) :=
  let '(store, tx) := tabs in
  let parts := split SP (strip line) 2 in
  match parts with
  | [] => Ok tabs
  | txid :: rest =>
      match rest with
      | [] => Raise IndexError
      | cmd :: rest2 =>
          if String.eqb cmd "PREPARE" || String.eqb cmd "CAN_COMMIT" then
            match rest2 with
            | [] => Raise IndexError
            | arg :: _ =>
                match split SP arg 1 with
                | [vote; op_json] =>
                    let* o := loads op_json in
                    Ok (store,
                        <[txid := {| state := if String.eqb vote "YES" then READY else ABORTED;
                                     op := o; ts := Some now |}]> tx)
                | _ => Raise ValueError
                end
            end
          else if String.eqb cmd "PRECOMMIT" then
            match tx !! txid with
            | None => Raise KeyError
            | Some rec => Ok (store, <[txid := set_state rec PRECOMMIT]> tx)
            end
          else if String.eqb cmd "COMMIT" then
            match tx !! txid with
            | None => Raise KeyError
            | Some rec =>
                let* store' := apply_op (op rec) store in
                Ok (store', <[txid := set_state rec COMMITTED]> tx)
            end
          else if String.eqb cmd "ABORT" then
            Ok (store, <[txid := {| state := ABORTED; op := JNull; ts := None |}]> tx)
          else Ok tabs
      end
  end.

(** The loop of [wal_replay]; [clock i] is the reading at line [i]. *)
Fixpoint replay_lines (clock : nat -> Z) (i : nat) (lines : list string)
  (tabs : gmap string string * gmap string txrec)
  : result (gmap string string * gmap string txrec) :=
  match lines with
  | [] => Ok tabs
  | line :: rest =>
      let* tabs' := replay_line (clock i) line tabs in
      replay_lines clock (S i) rest tabs'
  end.

(** [wal_replay]: an exception leaves [main], and the process, dead. *)
Definition wal_replay (cfg : config) (clock : nat -> Z) (st : pstate)
  : result pstate :=
  if negb (truthy (WAL_PATH cfg)) then Ok st
  else
    match wal st with
    | None => Ok st
    | Some content =>
        let* tabs := replay_lines clock 0 (readlines content) (kv st, TX st) in
        Ok {| kv := fst tabs; TX := snd tabs; wal := wal st |}
    end.

(** A run of the handler over a sequence of requests, each with its clock
    reading; a handler that raises leaves the globals as they were. *)
Record request := {
  req_time : Z;
  req_path : string;
  req_body : body
}.

Definition serve (cfg : config) (st : pstate) (r : request) : pstate :=
  out_state (do_POST cfg (req_time r) (req_path r) (req_body r) st).

Definition serve_all (cfg : config) (st : pstate) (rs : list request) : pstate :=
  fold_left (serve cfg) rs st.

(** The record of a transaction without its clock reading. *)
Definition forget_ts (r : txrec) : txrec :=
  {| state := state r; op := op r; ts := None |}.

Definition terminal (s : tx_state) : bool :=
  match s with
  | COMMITTED | ABORTED => true
  | READY | PRECOMMIT => false
  end.

End Participant.

(** ** The coordinator ([coordinator.py]) and the nodes it talks to *)

Module Coordinator.

Import Py Json.

(** Seconds allowed to one call of [post_json]. *)
Definition TIMEOUT_S : Z := 2.

(** Seconds between two passes of [retry_loop]. *)
Definition RETRY_INTERVAL : Z := 3.

(** The globals set by [main]. *)
Record config := {
  NODE_ID : string;
  PARTICIPANTS : list string;
  WAL_PATH : option string
}.

(** A record of the coordinator's [TX]: the one stored by [two_pc] and
    [three_pc] (["state": "DONE"]) and the one rebuilt by [wal_replay]
    (["state": "RECOVERED"]). *)
Inductive txrec :=
| Done (txid protocol decision : string) (votes : gmap string json)
| Recovered (txid decision : string) (participants : list string).

(** [rec["txid"]] *)
Definition rec_txid (r : txrec) : string :=
  match r with
  | Done t _ _ _ => t
  | Recovered t _ _ => t
  end.

(** [rec.get("decision")] *)
Definition rec_decision (r : txrec) : string :=
  match r with
  | Done _ _ d _ => d
  | Recovered _ d _ => d
  end.

(** The coordinator's mutable globals: [TX], in insertion order (the order
    in which [retry_loop] walks it), and the WAL file. *)
Record cstate := {
  TX : list (string * txrec);
  wal : option string
}.

(** A participant process behind a base URL. *)
Record node := {
  node_cfg : Participant.config;
  node_st : Participant.pstate
}.

(** What the network does with one call: the request never reaches the
    participant, or it is served and the reply is back after [elapsed_ms]
    milliseconds. *)
Inductive link :=
| Unreachable
| Delivered (elapsed_ms : Z).

(** The environment of a run: the fate of the [k]-th call of [post_json] and
    the participant's clock reading while it serves that call. *)
Record env := {
  net : nat -> link;
  clock : nat -> Z
}.

(** The history of a run, in order.  [Served] is a ghost event: participant
    [p] has finished the handler for the request, with the reply sent (or
    the exception raised) and the state its record of [txid] then has. *)
Inductive event :=
| CoordWal (text : string)
| Send (p path txid : string)
| At (p : string) (ev : Participant.event)
| Served (p path txid : string) (reply : result (Z * json))
    (st : option Participant.tx_state).

Record world := {
  coord : cstate;
  nodes : gmap string node;
  calls : nat;
  log : list event
}.

Definition emit (w : world) (evs : list event) : world :=
  {| coord := coord w; nodes := nodes w; calls := calls w;
     log := log w ++ evs |}.

Definition set_coord (w : world) (c : cstate) : world :=
  {| coord := c; nodes := nodes w; calls := calls w; log := log w |}.

Definition timed_out (elapsed_ms : Z) : bool := 1000 * TIMEOUT_S <? elapsed_ms.

(** [wal_append] *)
Definition wal_append (cfg : config) (line : string) (w : world) : world :=
  if negb (truthy (WAL_PATH cfg)) then w
  else
    let text := line ++ chr LF in
    emit
      (set_coord w
         {| TX := TX (coord w);
            wal := Some (default EmptyString (wal (coord w)) ++ text) |})
      [CoordWal text].

(** [post_json(p + path, payload)]: the call raises when the participant is
    not reached, when its handler raises (the connection closes without a
    reply), when the reply is later than the timeout, and when the status is
    not 2xx. *)
Definition post_json (e : env) (p path : string) (payload : Participant.body)
  (w : world) : world * result (Z * json) :=
  let k := calls w in
  let w1 :=
    {| coord := coord w; nodes := nodes w; calls := S k;
       log := log w ++ [Send p path (Participant.body_txid payload)] |} in
  match net e k, nodes w !! p with
  | Delivered ms, Some n =>
      let r := Participant.do_POST (node_cfg n) (clock e k) path payload (node_st n) in
      let st' := Participant.out_state r in
      let w2 :=
        {| coord := coord w1;
           nodes := <[p := {| node_cfg := node_cfg n; node_st := st' |}]> (nodes w1);
           calls := calls w1;
           log := log w1 ++ List.map (At p) (Participant.out_events r)
                  ++ [Served p path (Participant.body_txid payload)
                        (Participant.out_reply r)
                        (Participant.state
                           <$> Participant.TX st' !! Participant.body_txid payload)] |} in
      match Participant.out_reply r with
      | Raise _ => (w2, Raise URLError)
      | Ok (code, resp) =>
          if timed_out ms then (w2, Raise URLError)
          else if (200 <=? code) && (code <? 300) then (w2, Ok (code, resp))
          else (w2, Raise URLError)
      end
  | _, _ => (w1, Raise URLError)
  end.

(** [resp.get("vote", "NO")] *)
Definition resp_vote (resp : json) : result json :=
  match resp with
  | JObj kvs => Ok (default (JStr "NO") (lookup kvs "vote"))
  | _ => Raise AttributeError
  end.

Definition NO_TIMEOUT : json := JStr "NO_TIMEOUT".

(** The accumulator of the voting loop. *)
Record tally := {
  t_world : world;
  votes : gmap string json;
  all_yes : bool
}.

(** The body of the first loop of [two_pc] and [three_pc]. *)
Definition vote_step (e : env) (path txid : string) (o : json) (t : tally)
  (p : string) : tally :=
  let '(w', r) :=
    post_json e p path
      {| Participant.body_txid := txid; Participant.body_op := Some o |}
      (t_world t) in
  match (let* sr := r in resp_vote (snd sr)) with
  | Ok vote =>
      {| t_world := w';
         votes := <[p := vote]> (votes t);
         all_yes := if negb (eq_str vote "YES") then false else all_yes t |}
  | Raise _ =>
      {| t_world := w'; votes := <[p := NO_TIMEOUT]> (votes t); all_yes := false |}
  end.

Definition collect_votes (e : env) (cfg : config) (path txid : string) (o : json)
  (w : world) : tally :=
  fold_left (vote_step e path txid o) (PARTICIPANTS cfg)
    {| t_world := w; votes := ∅; all_yes := true |}.

(** A loop that posts [{"txid": txid}] to every participant and ignores
    what comes back. *)
Definition send_step (e : env) (path txid : string) (w : world) (p : string)
  : world :=
  fst (post_json e p path
         {| Participant.body_txid := txid; Participant.body_op := None |} w).

Definition send_all (e : env) (cfg : config) (path txid : string) (w : world)
  : world :=
  fold_left (send_step e path txid) (PARTICIPANTS cfg) w.

Definition endpoint_of (decision : string) : string :=
  if String.eqb decision "COMMIT" then "/commit" else "/abort".

Definition decision_line (txid decision : string) : string :=
  txid ++ " DECISION " ++ decision.

(** The value returned to the client. *)
Record outcome := {
  o_txid : string;
  o_decision : string;
  o_votes : gmap string json
}.

Definition store_done (txid protocol decision : string) (vs : gmap string json)
  (w : world) : world :=
  set_coord w
    {| TX := dict_set (TX (coord w)) txid (Done txid protocol decision vs);
       wal := wal (coord w) |}.

(** [two_pc] *)
Definition two_pc (e : env) (cfg : config) (txid : string) (o : json) (w : world)
  : world * outcome :=
  let t := collect_votes e cfg "/prepare" txid o w in
  let decision := if all_yes t then "COMMIT" else "ABORT" in
  let w2 := wal_append cfg (decision_line txid decision) (t_world t) in
  let w3 := send_all e cfg (endpoint_of decision) txid w2 in
  (store_done txid "2PC" decision (votes t) w3,
   {| o_txid := txid; o_decision := decision; o_votes := votes t |}).

(** [three_pc] *)
Definition three_pc (e : env) (cfg : config) (txid : string) (o : json) (w : world)
  : world * outcome :=
  let t := collect_votes e cfg "/can_commit" txid o w in
  let '(w1, decision) :=
    if negb (all_yes t) then (t_world t, "ABORT")
    else (send_all e cfg "/precommit" txid (t_world t), "COMMIT") in
  let w2 := wal_append cfg (decision_line txid decision) w1 in
  let w3 := send_all e cfg (endpoint_of decision) txid w2 in
  (store_done txid "3PC" decision (votes t) w3,
   {| o_txid := txid; o_decision := decision; o_votes := votes t |}).

(** [Handler.do_POST] on [/tx/start], with [protocol] the member of the body
    when it has one. *)
Definition start (e : env) (cfg : config) (txid : string) (o : json)
  (protocol : option string) (w : world) : world * outcome :=
  if String.eqb (upper (default "2PC" protocol)) "3PC" then three_pc e cfg txid o w
  else two_pc e cfg txid o w.

(** One pass of [retry_loop], after its sleep: the snapshot of the values of
    [TX] is walked in order. *)
Definition retry_rec (e : env) (cfg : config) (w : world) (r : txrec) : world :=
  let decision := rec_decision r in
  if negb (String.eqb decision "COMMIT" || String.eqb decision "ABORT") then w
  else send_all e cfg (endpoint_of decision) (rec_txid r) w.

Definition retry_pass (e : env) (cfg : config) (w : world) : world :=
  fold_left (retry_rec e cfg) (List.map snd (TX (coord w))) w.

(** The loop of the coordinator's [wal_replay]. *)
Definition replay_line (cfg : config) (line : string) (tx : list (string * txrec))
  : result (list (string * txrec)) :=
  match split_ws (strip line) with
  | [] => Raise IndexError
  | [_] => Raise IndexError
  | txid :: cmd :: rest =>
      if String.eqb cmd "DECISION" then
        match rest with
        | [] => Raise IndexError
        | decision :: _ =>
            Ok (dict_set tx txid (Recovered txid decision (PARTICIPANTS cfg)))
        end
      else Ok tx
  end.

Fixpoint replay_lines (cfg : config) (lines : list string)
  (tx : list (string * txrec)) : result (list (string * txrec)) :=
  match lines with
  | [] => Ok tx
  | line :: rest =>
      let* tx' := replay_line cfg line tx in
      replay_lines cfg rest tx'
  end.

(** [wal_replay] *)
Definition wal_replay (cfg : config) (c : cstate) : result cstate :=
  if negb (truthy (WAL_PATH cfg)) then Ok c
  else
    match wal c with
    | None => Ok c
    | Some content =>
        let* tx := replay_lines cfg (readlines content) (TX c) in
        Ok {| TX := tx; wal := wal c |}
    end.

(** What happens to the system, one step after the other: a client starts a
    transaction, or the retry loop wakes up. *)
Inductive action :=
| Start (txid : string) (o : json) (protocol : option string)
| Retry.

Definition step (e : env) (cfg : config) (w : world) (a : action) : world :=
  match a with
  | Start txid o protocol => fst (start e cfg txid o protocol w)
  | Retry => retry_pass e cfg w
  end.

Definition run (e : env) (cfg : config) (w : world) (acts : list action) : world :=
  fold_left (step e cfg) acts w.

Definition started (a : action) : list string :=
  match a with
  | Start txid _ _ => [txid]
  | Retry => []
  end.


(** A freshly booted system: nothing in the coordinator's table or WAL, and
    participants with empty tables. *)
Definition boot (ns : gmap string node) : world :=
  {| coord := {| TX := []; wal := None |}; nodes := ns; calls := 0; log := [] |}.

End Coordinator.

(** ** The rest of the participant process: the monitor thread and [main] *)

Module Monitor.

Import Py Json Participant.

(** Seconds after which a record still [READY] is reported. *)
Definition READY_TIMEOUT : Z := 15.

(** The loop of one pass of [timeout_monitor] over the snapshot
    [list(TX.items())]; [out] collects the txids reported so far (the pass
    prints one line for each).  [rec["ts"]] is read only when the state is
    [READY], and raises [KeyError] on a record without that key. *)
Fixpoint monitor_items (now : Z) (items : list (string * txrec)) (out : list string)
  : result (list string) :=
  match items with
  | [] => Ok out
  | (txid, rec) :: rest =>
      match state rec with
      | READY =>
          match ts rec with
          | None => Raise KeyError
          | Some t =>
              monitor_items now rest
                (if READY_TIMEOUT <? now - t then out ++ [txid] else out)
          end
      | _ => monitor_items now rest out
      end
  end.

(** One pass of [timeout_monitor], after its sleep, at clock reading [now].
    The order of the snapshot is the one of the table. *)
Definition timeout_monitor (now : Z) (st : pstate) : result (list string) :=
  monitor_items now (map_to_list (TX st)) [].

End Monitor.

Module ParticipantMain.

Import Py Json Participant.

(** The globals that [main] sets from the command line:
    [WAL_PATH = args.wal or None]. *)
Definition config_of (id wal_arg : string) : config :=
  {| NODE_ID := id;
     WAL_PATH := match wal_arg with
                 | EmptyString => None
                 | _ => Some wal_arg
                 end |}.

(** [main] up to the point where the server starts: a new process has empty
    tables and replays the WAL file it finds. *)
Definition main (cfg : config) (clock : nat -> Z) (file : option string)
  : result pstate :=
  wal_replay cfg clock (initial file).

(** The process is killed and started again: the tables are lost, the file
    stays. *)
Definition restart (cfg : config) (clock : nat -> Z) (st : pstate) : result pstate :=
  main cfg clock (wal st).

(** What happens to a participant process, one thing after the other: it
    serves a request, or it is killed and started again (the new process
    reads the clock [clock i] at line [i] of its replay). *)
Inductive happening :=
| Request (r : request)
| Kill (clock : nat -> Z).

Fixpoint life (cfg : config) (st : pstate) (hs : list happening) : result pstate :=
  match hs with
  | [] => Ok st
  | Request r :: rest => life cfg (serve cfg st r) rest
  | Kill clock :: rest =>
      let* st' := restart cfg clock st in
      life cfg st' rest
  end.

(** The requests of a life, in order. *)
Fixpoint requests_of (hs : list happening) : list request :=
  match hs with
  | [] => []
  | Request r :: rest => r :: requests_of rest
  | Kill _ :: rest => requests_of rest
  end.

End ParticipantMain.

(** ** The rest of the coordinator process: [main], and a process that is
    killed *)

Module CoordinatorMain.

Import Py Json Coordinator.

(** [s.split(sep)] without a limit: there are at most [len(s)] cuts. *)
Definition split_all (sep : ascii) (s : string) : list string :=
  split sep s (String.length s).

(** [[p.strip() for p in args.participants.split(",")]] *)
Definition parse_participants (arg : string) : list string :=
  List.map strip (split_all "," arg).

(** The globals that [main] sets from the command line; [WAL_PATH] is the
    argument as it is. *)
Definition config_of (id participants wal_arg : string) : config :=
  {| NODE_ID := id;
     PARTICIPANTS := parse_participants participants;
     WAL_PATH := Some wal_arg |}.

(** [main] up to the point where the retry thread and the server start: a
    new process has an empty [TX] and replays the WAL file it finds. *)
Definition main (cfg : config) (file : option string) : result cstate :=
  wal_replay cfg {| TX := []; wal := file |}.

(** The coordinator process is killed and started again: [TX] is lost, the
    WAL file stays, and the participants are as they were. *)
Definition reboot (cfg : config) (w : world) : result world :=
  let* c := main cfg (wal (coord w)) in
  Ok (set_coord w c).

(** Where a coordinator that is killed while it runs [two_pc] or [three_pc]
    has got to: [j] calls into the voting loop, [j] calls into the
    [/precommit] loop of [three_pc], or [j] calls into the loop that
    dispatches the decision, which is logged by then. *)
Inductive crash_point :=
| InVoting (j : nat)
| InPrecommit (j : nat)
| InDispatch (j : nat).

(** The first [j] rounds of the voting loop. *)
Definition votes_upto (e : env) (cfg : config) (path txid : string) (o : json)
  (j : nat) (w : world) : tally :=
  fold_left (vote_step e path txid o) (take j (PARTICIPANTS cfg))
    {| t_world := w; votes := ∅; all_yes := true |}.

(** The first [j] rounds of a loop that posts [{"txid": txid}]. *)
Definition sends_upto (e : env) (cfg : config) (path txid : string) (j : nat)
  (w : world) : world :=
  fold_left (send_step e path txid) (take j (PARTICIPANTS cfg)) w.

(** [two_pc], killed at [cp]. *)
Definition two_pc_killed (e : env) (cfg : config) (txid : string) (o : json)
  (cp : crash_point) (w : world) : world :=
  match cp with
  | InVoting j => t_world (votes_upto e cfg "/prepare" txid o j w)
  | InPrecommit _ => t_world (collect_votes e cfg "/prepare" txid o w)
  | InDispatch j =>
      let t := collect_votes e cfg "/prepare" txid o w in
      let decision := if all_yes t then "COMMIT" else "ABORT" in
      let w2 := wal_append cfg (decision_line txid decision) (t_world t) in
      sends_upto e cfg (endpoint_of decision) txid j w2
  end.

(** [three_pc], killed at [cp]. *)
Definition three_pc_killed (e : env) (cfg : config) (txid : string) (o : json)
  (cp : crash_point) (w : world) : world :=
  match cp with
  | InVoting j => t_world (votes_upto e cfg "/can_commit" txid o j w)
  | InPrecommit j =>
      let t := collect_votes e cfg "/can_commit" txid o w in
      if negb (all_yes t) then t_world t
      else sends_upto e cfg "/precommit" txid j (t_world t)
  | InDispatch j =>
      let t := collect_votes e cfg "/can_commit" txid o w in
      let '(w1, decision) :=
        if negb (all_yes t) then (t_world t, "ABORT")
        else (send_all e cfg "/precommit" txid (t_world t), "COMMIT") in
      let w2 := wal_append cfg (decision_line txid decision) w1 in
      sends_upto e cfg (endpoint_of decision) txid j w2
  end.

(** The handler of [/tx/start], killed at [cp]. *)
Definition start_killed (e : env) (cfg : config) (txid : string) (o : json)
  (protocol : option string) (cp : crash_point) (w : world) : world :=
  if String.eqb (upper (default "2PC" protocol)) "3PC"
  then three_pc_killed e cfg txid o cp w
  else two_pc_killed e cfg txid o cp w.

(** A pass of [retry_loop], killed after [i] records and [j] calls for the
    next one. *)
Definition retry_killed (e : env) (cfg : config) (i j : nat) (w : world) : world :=
  let recs := List.map snd (TX (coord w)) in
  let w1 := fold_left (retry_rec e cfg) (take i recs) w in
  match recs !! i with
  | None => w1
  | Some r =>
      let decision := rec_decision r in
      if negb (String.eqb decision "COMMIT" || String.eqb decision "ABORT") then w1
      else sends_upto e cfg (endpoint_of decision) (rec_txid r) j w1
  end.

(** What happens to the system, one episode after the other: an action
    runs to its end, or the coordinator is killed (while idle, inside a
    start, inside a retry pass) and started again. *)
Inductive episode :=
| Does (a : action)
| KilledIdle
| KilledInStart (txid : string) (o : json) (protocol : option string)
    (cp : crash_point)
| KilledInRetry (i j : nat).

Definition episode_step (e : env) (cfg : config) (w : world) (ep : episode)
  : result world :=
  match ep with
  | Does a => Ok (step e cfg w a)
  | KilledIdle => reboot cfg w
  | KilledInStart txid o protocol cp =>
      reboot cfg (start_killed e cfg txid o protocol cp w)
  | KilledInRetry i j => reboot cfg (retry_killed e cfg i j w)
  end.

Fixpoint episodes (e : env) (cfg : config) (w : world) (eps : list episode)
  : result world :=
  match eps with
  | [] => Ok w
  | ep :: rest =>
      let* w' := episode_step e cfg w ep in
      episodes e cfg w' rest
  end.

(** The txids that the clients start in an episode. *)
Definition begun (ep : episode) : list string :=
  match ep with
  | Does a => started a
  | KilledInStart txid _ _ _ => [txid]
  | _ => []
  end.

Definition begun_txids (eps : list episode) : list string :=
  concat (List.map begun eps).

End CoordinatorMain.

(** ** Sample data used by the examples *)

Module Samples.

Import Json Participant.

Definition cfg_wal : config :=
  {| NODE_ID := "P1"; WAL_PATH := Some "/tmp/p1.wal" |}.

Definition cfg_nowal : config :=
  {| NODE_ID := "P1"; WAL_PATH := None |}.

Definition op_set : json :=
  JObj [("type", JStr "SET"); ("key", JStr "x"); ("value", JStr "1")].

Definition op_del : json :=
  JObj [("type", JStr "DEL"); ("key", JStr "x")].

Definition op_untyped : json :=
  JObj [("key", JStr "x"); ("value", JStr "1")].

Definition op_numtype : json :=
  JObj [("type", JNum 1); ("key", JStr "x")].

Definition with_op (txid : string) (o : json) : body :=
  {| body_txid := txid; body_op := Some o |}.

Definition only_txid (txid : string) : body :=
  {| body_txid := txid; body_op := None |}.

(** A participant that has prepared and committed [t1]. *)
Definition committed_t1 : pstate :=
  serve_all cfg_wal (initial None)
    [ {| req_time := 10; req_path := "/prepare"; req_body := with_op "t1" op_set |};
      {| req_time := 11; req_path := "/commit"; req_body := only_txid "t1" |} ].

(** Requests to one participant: [t1] is prepared and committed, [t2] is
    rejected by its vote and aborted. *)
Definition sample_requests : list request :=
  [ {| req_time := 10; req_path := "/prepare"; req_body := with_op "t1" op_set |};
    {| req_time := 11; req_path := "/commit"; req_body := only_txid "t1" |};
    {| req_time := 12; req_path := "/prepare"; req_body := with_op "t2" op_del |};
    {| req_time := 13; req_path := "/abort"; req_body := only_txid "t2" |} ].

(** A txid with a space in it. *)
Definition spaced_request : request :=
  {| req_time := 10; req_path := "/prepare"; req_body := with_op "a b" op_set |}.

(** Two participants behind their base URLs, and a coordinator for them. *)
Definition url1 : string := "http://127.0.0.1:8001".
Definition url2 : string := "http://127.0.0.1:8002".

Definition cfg_coord : Coordinator.config :=
  {| Coordinator.NODE_ID := "COORD";
     Coordinator.PARTICIPANTS := [url1; url2];
     Coordinator.WAL_PATH := Some "/tmp/coord.wal" |}.

Definition fresh_node (id : string) : Coordinator.node :=
  {| Coordinator.node_cfg := {| NODE_ID := id; WAL_PATH := Some ("/tmp/" ++ id ++ ".wal") |};
     Coordinator.node_st := initial None |}.

Definition two_nodes : gmap string Coordinator.node :=
  <[url1 := fresh_node "P1"]> (<[url2 := fresh_node "P2"]> ∅).

(** Every call is served and answered within 5 ms. *)
Definition env_ok : Coordinator.env :=
  {| Coordinator.net := fun _ => Coordinator.Delivered 5;
     Coordinator.clock := fun k => 100 + Z.of_nat k |}.


(** A run: a 2PC commit, a retry pass, a 3PC of a rejected operation, and a
    second retry pass. *)
Definition sample_run : list Coordinator.action :=
  [ Coordinator.Start "t1" op_set None;
    Coordinator.Retry;
    Coordinator.Start "t2" op_del (Some "3pc");
    Coordinator.Retry ].

Definition sample_world : Coordinator.world :=
  Coordinator.run env_ok cfg_coord (Coordinator.boot two_nodes) sample_run.

End Samples.

(** ** More sample data *)

Module MoreSamples.

Import Json Participant ParticipantMain Samples.

(** A second write of the key of [op_set]. *)
Definition op_set_again : json :=
  JObj [("type", JStr "SET"); ("key", JStr "x"); ("value", JStr "2")].

Definition prepare_t1 : request :=
  {| req_time := 10; req_path := "/prepare"; req_body := with_op "t1" op_set |}.

(** The requests of [sample_requests], with the process killed after the
    first and after the third. *)
Definition sample_life : list happening :=
  [ Request {| req_time := 10; req_path := "/prepare"; req_body := with_op "t1" op_set |};
    Kill (fun i => 50 + Z.of_nat i);
    Request {| req_time := 11; req_path := "/commit"; req_body := only_txid "t1" |};
    Request {| req_time := 12; req_path := "/prepare"; req_body := with_op "t2" op_del |};
    Kill (fun i => 70 + Z.of_nat i);
    Request {| req_time := 13; req_path := "/abort"; req_body := only_txid "t2" |} ].

(** The coordinator is killed while it dispatches the decision of [t1],
    after the first call; started again, it runs a retry pass and a 3PC of a
    rejected operation, and is killed once more. *)
Definition sample_episodes : list CoordinatorMain.episode :=
  [ CoordinatorMain.KilledInStart "t1" op_set None (CoordinatorMain.InDispatch 1);
    CoordinatorMain.Does Coordinator.Retry;
    CoordinatorMain.Does (Coordinator.Start "t2" op_del (Some "3pc"));
    CoordinatorMain.KilledIdle ].

(** The coordinator is killed while it dispatches the commit of [t1]: the
    first participant has it, the second has not. *)
Definition killed_in_dispatch : list CoordinatorMain.episode :=
  [ CoordinatorMain.KilledInStart "t1" op_set None (CoordinatorMain.InDispatch 1) ].

Definition world_after_kill : Coordinator.world :=
  match CoordinatorMain.episodes env_ok cfg_coord (Coordinator.boot two_nodes)
          killed_in_dispatch with
  | Ok w => w
  | Raise _ => Coordinator.boot two_nodes
  end.



End MoreSamples.

(** ** The properties stated about the two programs *)

Module ParticipantProps.

Import Py Json Participant.

(** The five protocol endpoints. *)
Definition endpoint (path : string) : Prop :=
  path = "/prepare" \/ path = "/can_commit" \/ path = "/precommit"
  \/ path = "/commit" \/ path = "/abort".

Definition vote_NO : json := JObj [("vote", JStr "NO")].

Definition state_of (st : pstate) (txid : string) : option tx_state :=
  state <$> TX st !! txid.

(** C10 as stated: [validate_op] returns on every JSON object. *)
Definition validate_op_total_on_objects : Prop :=
  forall kvs, exists valid, validate_op (JObj kvs) = Ok valid.

(** The text that [validate_op] compares: the ["type"] member, or the empty
    string when the object has none. *)
Definition type_text (kvs : list (string * json)) : string :=
  match lookup kvs "type" with
  | Some (JStr t) => t
  | _ => EmptyString
  end.

(** C6 as stated: a 4xx reply and unchanged tables. *)
Definition rejected_with_4xx (st : pstate) (r : response) : Prop :=
  (exists code payload, out_reply r = Ok (code, payload) /\ 400 <= code < 500)
  /\ TX (out_state r) = TX st /\ kv (out_state r) = kv st.

(** C5 as stated: a request for a txid whose record is [COMMITTED] or
    [ABORTED] leaves the record in that state. *)
Definition keeps_terminal (cfg : config) (now : Z) (path : string) (b : body)
  (st : pstate) : Prop :=
  forall s, state_of st (body_txid b) = Some s -> terminal s = true ->
            state_of (out_state (do_POST cfg now path b st)) (body_txid b) = Some s.

End ParticipantProps.

Module TextProps.

Import Py Json.

Local Open Scope list_scope.

(** A character that ends no line. *)
Definition line_char (c : ascii) : bool :=
  negb (Ascii.eqb c LF) && negb (Ascii.eqb c CR).

(** The content of a file made of the given lines. *)
Fixpoint file_of (lines : list string) : string :=
  match lines with
  | [] => EmptyString
  | l :: rest => (l +:+ chr LF) +:+ file_of rest
  end.

(** The text after a value inside an array or an object, or at the end. *)
Definition ends_value (rest : string) : bool :=
  match rest with
  | EmptyString => true
  | String c _ => Ascii.eqb c "," || Ascii.eqb c "]" || Ascii.eqb c "}"
  end.

(** The characters with which the text of a value can begin. *)
Definition value_start (c : ascii) : bool :=
  is_digit c || Ascii.eqb c "-" || Ascii.eqb c DQ || Ascii.eqb c "["
  || Ascii.eqb c "{" || Ascii.eqb c "n" || Ascii.eqb c "t" || Ascii.eqb c "f".

(** The fuel that reading a value back takes. *)
Fixpoint size (v : json) : nat :=
  match v with
  | JArr l =>
      S ((fix items (l : list json) : nat :=
            match l with
            | [] => O
            | x :: rest => S (size x + items rest)
            end) l)
  | JObj kvs =>
      S ((fix members (kvs : list (string * json)) : nat :=
            match kvs with
            | [] => O
            | kv :: rest => S (size kv.2 + members rest)
            end) kvs)
  | _ => 1%nat
  end.

Definition size_items (l : list json) : nat :=
  fold_right (fun x n => S (size x + n)) O l.

Definition size_members (kvs : list (string * json)) : nat :=
  fold_right (fun kv n => S (size kv.2 + n)) O kvs.

Definition member_text (kv : string * json) : string :=
  dumps_str kv.1 +:+ ": " +:+ dumps kv.2.

(** With enough fuel, the text of [v] followed by the rest of an array, of
    an object or of the input is read back as [v] and that rest. *)
Definition reads_back (v : json) : Prop :=
  well_formed v = true ->
  forall fuel rest,
    (size v <= fuel)%nat -> ends_value rest = true ->
    scan_once fuel (dumps v +:+ rest) = Some (v, rest).

(** [l] starts with a character that is not whitespace. *)
Definition starts_solid (l : string) : Prop :=
  exists c s, l = String c s /\ is_space c = false.

(** [l] ends with a character that satisfies [q]. *)
Definition ends_with (q : ascii -> bool) (l : string) : Prop :=
  exists s z, l = s +:+ chr z /\ q z = true.

(** The three shapes of a record. *)
Definition vote_line (t cmd vote : string) (o : json) : string :=
  t +:+ String SP (cmd +:+ String SP (vote +:+ String SP (dumps o))).

Definition plain_line (t cmd : string) : string := t +:+ String SP cmd.

(** The command words and the votes: one field each. *)
Definition is_word (s : string) : Prop :=
  all_chars (fun c => negb (Ascii.eqb c SP)) s = true
  /\ all_chars line_char s = true
  /\ ends_with (fun c => printable c && negb (Ascii.eqb c SP)) s.

End TextProps.

Module SystemProps.

Import Py Json Coordinator.

Local Open Scope list_scope.

(** The [k]-th call, to [p], is one that [post_json] cannot complete: the
    participant is not reached, no process answers at [p], or the reply is
    later than [TIMEOUT_S] seconds. *)
Definition call_fails (e : env) (w : world) (k : nat) (p : string) : Prop :=
  net e k = Unreachable
  \/ nodes w !! p = None
  \/ exists ms, net e k = Delivered ms /\ 1000 * TIMEOUT_S < ms.


(** The two ways a call of [post_json] can go: the request is lost, or the
    participant at [p] serves it (and the caller may still see a failure). *)
Inductive call_effect (e : env) (p path : string) (payload : Participant.body)
  (w : world) : world -> result (Z * json) -> Prop :=
| call_lost w' :
    coord w' = coord w -> calls w' = S (calls w) -> nodes w' = nodes w ->
    log w' = log w ++ [Send p path (Participant.body_txid payload)] ->
    call_effect e p path payload w w' (Raise URLError)
| call_served n w' res :
    nodes w !! p = Some n ->
    let r := Participant.do_POST (node_cfg n) (clock e (calls w)) path payload (node_st n) in
    coord w' = coord w -> calls w' = S (calls w) ->
    nodes w' = <[p := {| node_cfg := node_cfg n; node_st := Participant.out_state r |}]> (nodes w) ->
    log w' = log w
             ++ Send p path (Participant.body_txid payload)
                :: List.map (At p) (Participant.out_events r)
             ++ [Served p path (Participant.body_txid payload) (Participant.out_reply r)
                   (Participant.state
                      <$> Participant.TX (Participant.out_state r)
                          !! Participant.body_txid payload)] ->
    (res = Raise URLError \/ res = Participant.out_reply r) ->
    call_effect e p path payload w w' res.

(** An event of a call on [path] for [txid]: the dispatch itself or what the
    participant does while serving it; never a write to the coordinator's
    WAL. *)
Definition about (path txid : string) (ev : event) : Prop :=
  match ev with
  | CoordWal _ => False
  | Send _ path' t => path' = path /\ t = txid
  | At _ _ => True
  | Served _ path' t _ _ => path' = path /\ t = txid
  end.

(** The command word of the WAL record that an endpoint writes. *)
Definition command (path : string) : string :=
  if String.eqb path "/prepare" then "PREPARE"
  else if String.eqb path "/can_commit" then "CAN_COMMIT"
  else if String.eqb path "/precommit" then "PRECOMMIT"
  else if String.eqb path "/commit" then "COMMIT"
  else "ABORT".

(** C3 as stated, on the participant: whenever an endpoint replies, a WAL
    record was appended before the reply. *)
Definition logs_before_reply (cfg : Participant.config) (now : Z) (path : string)
  (b : Participant.body) (st : Participant.pstate) : Prop :=
  forall code payload,
    Participant.out_reply (Participant.do_POST cfg now path b st) = Ok (code, payload) ->
    exists text,
      Participant.out_events (Participant.do_POST cfg now path b st)
      = [Participant.WalAppend text; Participant.Reply code payload].

(** A dispatch of the decision. *)
Definition is_dispatch (ev : event) : Prop :=
  exists p t, ev = Send p "/commit" t \/ ev = Send p "/abort" t.

(** The terminal state that matches a decision. *)
Definition terminal_of (d : string) : Participant.tx_state :=
  if String.eqb d "COMMIT" then Participant.COMMITTED else Participant.ABORTED.

Definition valid_decision (d : string) : Prop := d = "COMMIT" \/ d = "ABORT".

Inductive handled (path : string) (before : option Participant.tx_state)
  : result (Z * json) -> option Participant.tx_state -> Prop :=
| handled_abort :
    path = "/abort" ->
    handled path before (Ok (200, Participant.ok_true)) (Some Participant.ABORTED)
| handled_commit :
    path = "/commit" ->
    handled path before (Ok (200, Participant.ok_true)) (Some Participant.COMMITTED)
| handled_precommit :
    path = "/precommit" ->
    handled path before (Ok (200, Participant.ok_true)) (Some Participant.PRECOMMIT)
| handled_prepare valid :
    path = "/prepare" ->
    handled path before
      (Ok (200, JObj [("vote", JStr (Participant.vote_of valid))]))
      (Some (if valid then Participant.READY else Participant.ABORTED))
| handled_can_commit valid :
    path = "/can_commit" ->
    handled path before
      (Ok (200, JObj [("vote", JStr (Participant.vote_of valid))]))
      (Some Participant.READY)
| handled_raise ex :
    handled path before (Raise ex) before
| handled_unknown payload :
    ~ ParticipantProps.endpoint path ->
    handled path before (Ok (404, payload)) before.

(** An acknowledgement or a state, as seen in a [Served] event, is in line
    with the decision [d]. *)
Definition served_ok (d path : string) (reply : result (Z * json))
  (st : option Participant.tx_state) : Prop :=
  (forall s, st = Some s -> Participant.terminal s = true -> s = terminal_of d)
  /\ (is_ok reply = true -> path = "/commit" \/ path = "/abort" ->
      path = endpoint_of d).

(** The state of [t] at [p], if [p] is a node with a record of [t]. *)
Definition state_at (w : world) (p t : string) : option Participant.tx_state :=
  n ← nodes w !! p; Participant.state <$> Participant.TX (node_st n) !! t.

Record agrees (w : world) (t d : string) : Prop := {
  agrees_state : forall p s,
    state_at w p t = Some s -> Participant.terminal s = true -> s = terminal_of d;
  agrees_served : forall p path reply st,
    Served p path t reply st ∈ log w -> served_ok d path reply st
}.

Record untouched (w : world) (t : string) : Prop := {
  untouched_state : forall p, state_at w p t = None;
  untouched_served : forall p path reply st, Served p path t reply st ∉ log w
}.

(** [tab] lists the decided transactions of a run: every one of them is in
    line with its decision, and every decision line in the coordinator's WAL
    is the one of an entry. *)
Record agreed (tab : list (string * string)) (w : world) : Prop := {
  agreed_nodup : NoDup tab.*1;
  agreed_entry : forall t d, (t, d) ∈ tab -> valid_decision d /\ agrees w t d;
  agreed_wal : forall text, CoordWal text ∈ log w ->
    exists t d, (t, d) ∈ tab /\ text = decision_line t d +:+ chr LF
}.

Definition rest_untouched (ks : list string) (w : world) : Prop :=
  forall t, t ∉ ks -> untouched w t.

(** While the votes are collected, a record of the transaction can only be
    terminal as [ABORTED], and then the tally is no longer all-YES. *)
Record voting (t : string) (tl : tally) : Prop := {
  voting_state : forall p s,
    state_at (t_world tl) p t = Some s -> Participant.terminal s = true ->
    s = Participant.ABORTED /\ all_yes tl = false;
  voting_served : forall p path reply st,
    Served p path t reply st ∈ log (t_world tl) ->
    (path = "/prepare" \/ path = "/can_commit")
    /\ forall s, st = Some s -> Participant.terminal s = true ->
                 s = Participant.ABORTED /\ all_yes tl = false
}.

(** The decisions that the coordinator's table holds. *)
Definition decisions (tx : list (string * txrec)) : list (string * string) :=
  (fun kr => (kr.1, rec_decision kr.2)) <$> tx.

Record consistent (w : world) : Prop := {
  cons_agreed : agreed (decisions (TX (coord w))) w;
  cons_rest : rest_untouched (TX (coord w)).*1 w;
  cons_txid : Forall (fun kr => rec_txid kr.2 = kr.1) (TX (coord w))
}.


End SystemProps.

Module RecoveryProps.

Import Py Json Participant TextProps.

Local Open Scope list_scope.

(** Equal key-value stores, and transaction tables equal in the state and
    the operation of every record (the replay stamps its own clock
    reading). *)
Definition similar (tabs : gmap string string * gmap string txrec) (st : pstate)
  : Prop :=
  tabs.1 = kv st /\ forget_ts <$> tabs.2 = forget_ts <$> TX st.

(** A request whose record can be read back: the txid is one field, the
    operation is a decoded JSON value, and the request is not a
    [/can_commit] of an operation that fails validation. *)
Definition replayable (r : request) : Prop :=
  is_token (body_txid (req_body r)) = true
  /\ (forall o, body_op (req_body r) = Some o -> well_formed o = true)
  /\ (req_path r = "/can_commit" ->
      forall o, body_op (req_body r) = Some o -> validate_op o <> Ok false).

(** C8 as stated (and read generously: the clock reading [ts] is left out of
    the comparison): replaying the WAL left by a sequence of requests
    rebuilds the key-value store and the transaction table. *)
Definition recovers (cfg : config) (clock : nat -> Z) (reqs : list request) : Prop :=
  let st := serve_all cfg (initial None) reqs in
  exists st',
    wal_replay cfg clock (initial (wal st)) = Ok st'
    /\ kv st' = kv st
    /\ forget_ts <$> TX st' = forget_ts <$> TX st.

End RecoveryProps.

(** ** Properties of the processes *)

Module ProcessProps.

Import Py Json Participant.

Local Open Scope list_scope.

(** Every record in state [READY] has its clock reading. *)
Definition ready_stamped (tx : gmap string txrec) : Prop :=
  forall t rec, tx !! t = Some rec -> state rec = READY -> is_Some (ts rec).

(** Two states of a participant that differ at most in the clock readings
    of their records. *)
Definition same_tables (a b : pstate) : Prop :=
  kv a = kv b /\ forget_ts <$> TX a = forget_ts <$> TX b /\ wal a = wal b.

End ProcessProps.

Module CrashProps.

Import Py Json Coordinator CoordinatorMain TextProps SystemProps.

Local Open Scope list_scope.

(** The configuration with the first [j] participants only: what a loop
    over the participants has seen when it is stopped after [j] rounds. *)
Definition cut (j : nat) (cfg : config) : config :=
  {| NODE_ID := NODE_ID cfg;
     PARTICIPANTS := take j (PARTICIPANTS cfg);
     WAL_PATH := WAL_PATH cfg |}.

(** The WAL file that holds the decisions [tab], in order. *)
Definition wal_of (tab : list (string * string)) : string :=
  file_of ((fun td => decision_line td.1 td.2) <$> tab).

(** The table that the replay builds from that file. *)
Definition recovered_of (cfg : config) (tab : list (string * string))
  : list (string * txrec) :=
  (fun td => (td.1, Recovered td.1 td.2 (PARTICIPANTS cfg))) <$> tab.

(** What holds of the system whatever the coordinator went through, with
    [ks] the txids begun so far and [tab] the decisions logged so far: the
    participants are in line with [tab], a txid not yet begun has left no
    trace, every decision that [TX] holds is one of [tab], and the WAL file
    holds [tab]. *)
Record sound (cfg : config) (ks : list string) (tab : list (string * string))
  (w : world) : Prop := {
  sound_agreed : agreed tab w;
  sound_keys : forall t d, (t, d) ∈ tab -> t ∈ ks;
  sound_rest : rest_untouched ks w;
  sound_held : forall k r,
    (k, r) ∈ TX (coord w) -> valid_decision (rec_decision r) ->
    (rec_txid r, rec_decision r) ∈ tab;
  sound_wal : truthy (WAL_PATH cfg) = true ->
              default EmptyString (wal (coord w)) = wal_of tab
}.

(** Between two episodes, a coordinator with a WAL path holds in [TX] the
    decisions logged so far, each under its txid. *)
Definition settled (cfg : config) (tab : list (string * string)) (w : world)
  : Prop :=
  truthy (WAL_PATH cfg) = true ->
  decisions (TX (coord w)) = tab
  /\ Forall (fun kr => rec_txid kr.2 = kr.1) (TX (coord w)).

End CrashProps.

Module DeliveryProps.

Import Py Json Coordinator CoordinatorMain SystemProps.

Local Open Scope list_scope.

(** An event of a retry pass over the table [tx]: never a write to the
    WAL, and a dispatch or an answer only of the decision that a record of
    [tx] holds, for the txid of that record. *)
Definition repeats (tx : list (string * txrec)) (ev : event) : Prop :=
  match ev with
  | CoordWal _ => False
  | Send _ path t | Served _ path t _ _ =>
      exists k r, (k, r) ∈ tx /\ t = rec_txid r
                  /\ valid_decision (rec_decision r)
                  /\ path = endpoint_of (rec_decision r)
  | At _ _ => True
  end.

(** The [i]-th call is in time: the request reaches the participant, and
    the reply is back within [TIMEOUT_S] seconds, before [post_json]
    returns. *)
Definition timely (e : env) (i : nat) : Prop :=
  exists ms, net e i = Delivered ms /\ timed_out ms = false.

(** No call is late: a request reaches the participant and is answered in
    time, or it never reaches it. *)
Definition never_late (e : env) : Prop :=
  forall i ms, net e i = Delivered ms -> timed_out ms = false.


(** There is a participant at [p], and its state satisfies [R]. *)
Definition at_node (w : world) (p : string) (R : Participant.pstate -> Prop) : Prop :=
  exists n, nodes w !! p = Some n /\ R (node_st n).

(** The state holds a record of [t] with the operation [o]. *)
Definition has_op (t : string) (o : json) (st : Participant.pstate) : Prop :=
  exists rec, Participant.TX st !! t = Some rec /\ Participant.op rec = o.


(** The state has aborted [t]: the record is [ABORTED] and holds no
    operation. *)
Definition has_aborted (t : string) (st : Participant.pstate) : Prop :=
  exists rec,
    Participant.TX st !! t = Some rec
    /\ Participant.state rec = Participant.ABORTED /\ Participant.op rec = JNull.

(** The state holds the record of [t] in state [s] with the operation
    [o]. *)
Definition has_record (t : string) (s : Participant.tx_state) (o : json)
  (st : Participant.pstate) : Prop :=
  exists rec,
    Participant.TX st !! t = Some rec
    /\ Participant.state rec = s /\ Participant.op rec = o.

(** [apply_op] accepts the operation. *)
Definition applies (o : json) : Prop :=
  forall store, is_ok (Participant.apply_op o store) = true.

(** An event of a start of [t] that decides [d], for 2PC or ([three]) for
    3PC: a request or an answer is for [t], and on the vote path of the
    protocol, on [/precommit] in a 3PC that commits, or on the path of the
    decision. *)
Definition of_protocol (three : bool) (t d : string) (ev : event) : Prop :=
  match ev with
  | Send _ path t' | Served _ path t' _ _ =>
      t' = t
      /\ (path = (if three then "/can_commit" else "/prepare")
          \/ (three = true /\ d = "COMMIT" /\ path = "/precommit")
          \/ path = endpoint_of d)
  | CoordWal text => text = decision_line t d +:+ chr LF
  | At _ _ => True
  end.

End DeliveryProps.

(** ** Strings as lists of characters *)

Module StringFacts.

Local Open Scope list_scope.

Lemma string_app_cons (c : ascii) (s t : string) :
  String c s +:+ t = String c (s +:+ t).
Proof. reflexivity. Qed.

Lemma string_app_nil_l (t : string) : EmptyString +:+ t = t.
Proof. reflexivity. Qed.

Lemma chars_app (s1 s2 : string) : list_ascii_of_string (s1 +:+ s2) = list_ascii_of_string s1 ++ list_ascii_of_string s2.
Proof.
  induction s1 as [|c s1 IH]; [reflexivity|].
  rewrite string_app_cons. simpl. by rewrite IH.
Qed.

Lemma chars_inj (s1 s2 : string) : list_ascii_of_string s1 = list_ascii_of_string s2 -> s1 = s2.
Proof.
  intros H. rewrite <- (string_of_list_ascii_of_string s1),
    <- (string_of_list_ascii_of_string s2). by rewrite H.
Qed.

Lemma string_app_assoc (s1 s2 s3 : string) : (s1 +:+ s2) +:+ s3 = s1 +:+ (s2 +:+ s3).
Proof.
  induction s1 as [|c s1 IH]; [reflexivity|].
  rewrite !string_app_cons. by rewrite IH.
Qed.

Lemma string_app_nil_r (s : string) : s +:+ EmptyString = s.
Proof.
  induction s as [|c s IH]; [reflexivity|].
  rewrite string_app_cons. by rewrite IH.
Qed.

Lemma string_app_inv_tail (s1 s2 t : string) : s1 +:+ t = s2 +:+ t -> s1 = s2.
Proof.
  intros H. apply chars_inj. apply (f_equal list_ascii_of_string) in H.
  rewrite !chars_app in H. by apply app_inv_tail in H.
Qed.

(** Two texts that end differently are different. *)
Lemma string_app_tail_neq (s1 s2 t1 t2 : string) :
  length (list_ascii_of_string t1) = length (list_ascii_of_string t2) -> t1 <> t2 -> s1 +:+ t1 <> s2 +:+ t2.
Proof.
  intros Hlen Hne H. apply Hne. apply chars_inj.
  apply (f_equal list_ascii_of_string) in H. rewrite !chars_app in H.
  apply (f_equal (@rev ascii)) in H. rewrite !rev_app_distr in H.
  apply (f_equal (take (length (list_ascii_of_string t1)))) in H.
  rewrite take_app_length' in H by (by rewrite length_rev).
  rewrite take_app_length' in H by (by rewrite length_rev, Hlen).
  apply (f_equal (@rev ascii)) in H. by rewrite !rev_involutive in H.
Qed.

(** Setting a key that a [dict] does not have appends the item. *)
Lemma dict_set_fresh {A} (d : list (string * A)) k v :
  k ∉ d.*1 -> Py.dict_set d k v = d ++ [(k, v)].
Proof.
  induction d as [|[k' v'] d IH]; simpl; intros Hk; [reflexivity|].
  apply not_elem_of_cons in Hk as [Hne Hk].
  destruct (String.eqb_spec k' k) as [->|_]; [done|].
  by rewrite IH.
Qed.

End StringFacts.
(** ** Sanity checks of the Python primitives *)

Example upper_set : Py.upper "sEt" = "SET".
Proof. reflexivity. Qed.

Example strip_removes_line_end :
  Py.strip ("  t1 COMMIT" ++ Py.chr Py.LF) = "t1 COMMIT".
Proof. reflexivity. Qed.

Example split_three :
  Py.split Py.SP "t1 PREPARE YES {a: 1, b: 2}" 2
  = ["t1"; "PREPARE"; "YES {a: 1, b: 2}"].
Proof. reflexivity. Qed.

Example split_keeps_empty : Py.split Py.SP "a  b" 2 = ["a"; EmptyString; "b"].
Proof. reflexivity. Qed.

Example readlines_mixed :
  Py.readlines ("a" ++ Py.chr Py.CR ++ Py.chr Py.LF ++ "b" ++ Py.chr Py.CR ++ "c")
  = ["a" ++ Py.chr Py.LF; "b" ++ Py.chr Py.LF; "c"].
Proof. reflexivity. Qed.

Example str_int_neg : Py.str_int (-42) = "-42".
Proof. reflexivity. Qed.

Example repr_str_quote : Py.repr_str "it's" = String Py.DQ ("it's" ++ Py.chr Py.DQ).
Proof. reflexivity. Qed.

Example dumps_set :
  Json.dumps (Json.JObj [("type", Json.JStr "SET"); ("key", Json.JStr "x"); ("value", Json.JNum 1)])
  = "{" ++ Py.chr Py.DQ ++ "type" ++ Py.chr Py.DQ ++ ": " ++ Py.chr Py.DQ ++ "SET" ++ Py.chr Py.DQ
    ++ ", " ++ Py.chr Py.DQ ++ "key" ++ Py.chr Py.DQ ++ ": " ++ Py.chr Py.DQ ++ "x" ++ Py.chr Py.DQ
    ++ ", " ++ Py.chr Py.DQ ++ "value" ++ Py.chr Py.DQ ++ ": 1}".
Proof. reflexivity. Qed.

Example loads_dumps_nested :
  let v := Json.JObj [("type", Json.JStr "SET"); ("key", Json.JArr [Json.JNum (-3); Json.JNull; Json.JBool true]);
                      ("value", Json.JObj [("a b", Json.JStr ("q" ++ Py.chr Py.DQ ++ Py.chr Py.LF))])] in
  Json.loads (Json.dumps v) = Ok v.
Proof. vm_compute. reflexivity. Qed.

Example loads_extra_data : Json.loads "1 2" = Raise JSONDecodeError.
Proof. vm_compute. reflexivity. Qed.

Example str_of_list :
  Json.str (Json.JArr [Json.JStr "a"; Json.JNum 1; Json.JNull]) = "['a', 1, None]".
Proof. reflexivity. Qed.

(** ** The participant's handler *)

Module ParticipantFacts.

Import Py Json Participant Samples ParticipantProps.

Lemma wal_append_kv cfg line st : kv (fst (wal_append cfg line st)) = kv st.
Proof. unfold wal_append. destruct (negb _); reflexivity. Qed.

Lemma wal_append_TX cfg line st : TX (fst (wal_append cfg line st)) = TX st.
Proof. unfold wal_append. destruct (negb _); reflexivity. Qed.

Lemma apply_op_twice o store store' :
  apply_op o store = Ok store' -> apply_op o store' = Ok store'.
Proof.
  unfold apply_op. intros H.
  destruct o as [| | | |l|kvs]; try discriminate.
  destruct (lookup kvs "type") as [[| | |t| |]|]; try discriminate.
  destruct (String.eqb (upper t) "SET"); [|congruence].
  destruct (lookup kvs "value") as [v|]; try discriminate.
  destruct (lookup kvs "key") as [k|]; try discriminate.
  injection H as <-. by rewrite insert_insert_eq.
Qed.


Ltac wal_simpl :=
  repeat (rewrite ?wal_append_kv, ?wal_append_TX; simpl).

(** Case analysis on the path, in the order in which [do_POST] tests it. *)
Ltac by_path path :=
  destruct (String.eqb_spec path "/prepare") as [->|?];
  [|destruct (String.eqb_spec path "/commit") as [->|?];
    [|destruct (String.eqb_spec path "/abort") as [->|?];
      [|destruct (String.eqb_spec path "/can_commit") as [->|?];
        [|destruct (String.eqb_spec path "/precommit") as [->|?]]]]].

Lemma do_POST_prepare cfg now b st :
  do_POST cfg now "/prepare" b st =
  match body_op b with
  | None => raised st KeyError
  | Some o =>
      match validate_op o with
      | Raise e => raised st e
      | Ok valid =>
          replied
            (wal_append cfg
               (body_txid b ++ " PREPARE " ++ vote_of valid ++ " " ++ dumps o)
               (set_TX st
                  (<[body_txid b :=
                       {| state := if valid then READY else ABORTED;
                          op := o; ts := Some now |}]> (TX st))))
            200 (JObj [("vote", JStr (vote_of valid))])
      end
  end.
Proof.
  unfold do_POST. simpl.
  destruct (body_op b) as [o|]; [|reflexivity].
  destruct (validate_op o) as [[]|]; reflexivity.
Qed.

Lemma do_POST_can_commit cfg now b st :
  do_POST cfg now "/can_commit" b st =
  match body_op b with
  | None => raised st KeyError
  | Some o =>
      match validate_op o with
      | Raise e => raised st e
      | Ok valid =>
          replied
            (wal_append cfg
               (body_txid b ++ " CAN_COMMIT " ++ vote_of valid ++ " " ++ dumps o)
               (set_TX st
                  (<[body_txid b := {| state := READY; op := o; ts := Some now |}]>
                     (TX st))))
            200 (JObj [("vote", JStr (vote_of valid))])
      end
  end.
Proof. reflexivity. Qed.

Lemma do_POST_commit cfg now b st :
  do_POST cfg now "/commit" b st =
  match TX st !! body_txid b with
  | None => raised st TypeError
  | Some rec =>
      match apply_op (op rec) (kv st) with
      | Raise e => raised st e
      | Ok store =>
          replied
            (wal_append cfg (body_txid b ++ " COMMIT")
               {| kv := store;
                  TX := <[body_txid b := set_state rec COMMITTED]> (TX st);
                  wal := wal st |})
            200 ok_true
      end
  end.
Proof. reflexivity. Qed.

Lemma do_POST_abort cfg now b st :
  do_POST cfg now "/abort" b st =
  replied
    (wal_append cfg (body_txid b ++ " ABORT")
       (set_TX st
          (<[body_txid b := {| state := ABORTED; op := JNull; ts := None |}]> (TX st))))
    200 ok_true.
Proof. reflexivity. Qed.

Lemma do_POST_precommit cfg now b st :
  do_POST cfg now "/precommit" b st =
  match TX st !! body_txid b with
  | None => raised st KeyError
  | Some rec =>
      replied
        (wal_append cfg (body_txid b ++ " PRECOMMIT")
           (set_TX st (<[body_txid b := set_state rec PRECOMMIT]> (TX st))))
        200 ok_true
  end.
Proof. reflexivity. Qed.

Lemma do_POST_other cfg now path b st :
  ~ endpoint path ->
  do_POST cfg now path b st
  = replied (st, []) 404 (JObj [("error", JStr "not found")]).
Proof.
  intros Hn. unfold do_POST.
  by_path path; try (exfalso; apply Hn; unfold endpoint; tauto).
  reflexivity.
Qed.

Lemma forget_ts_set_state r s :
  forget_ts (set_state r s) = {| state := s; op := op r; ts := None |}.
Proof. reflexivity. Qed.

(** C7. Idempotence: serving the same request twice in a row, on any path
    and for any txid, leaves the same key-value store and the same
    transaction table (state and op of every record; only the clock reading
    [ts] of the record may differ) as serving it once, and gives the same
    reply. *)
Theorem endpoint_idempotent cfg t1 t2 path b st :
  let once := do_POST cfg t1 path b st in
  let twice := do_POST cfg t2 path b (out_state once) in
  kv (out_state twice) = kv (out_state once)
  /\ forget_ts <$> TX (out_state twice) = forget_ts <$> TX (out_state once)
  /\ out_reply twice = out_reply once.
Proof.
  cbv zeta. by_path path.
  - rewrite !do_POST_prepare.
    destruct (body_op b) as [o|] eqn:Hb; simpl; [|done].
    destruct (validate_op o) as [valid|e] eqn:Hv; simpl; [|done].
    wal_simpl. rewrite insert_insert_eq, !fmap_insert. done.
  - rewrite !do_POST_commit.
    destruct (TX st !! body_txid b) as [rec|] eqn:Hr; simpl; [|by rewrite Hr].
    destruct (apply_op (op rec) (kv st)) as [store|e] eqn:Ha; simpl;
      [|by rewrite Hr, Ha].
    wal_simpl. rewrite lookup_insert_eq. simpl.
    rewrite (apply_op_twice _ _ _ Ha). simpl.
    wal_simpl. rewrite insert_insert_eq. done.
  - rewrite !do_POST_abort. simpl.
    wal_simpl. rewrite insert_insert_eq. done.
  - rewrite !do_POST_can_commit.
    destruct (body_op b) as [o|] eqn:Hb; simpl; [|done].
    destruct (validate_op o) as [valid|e] eqn:Hv; simpl; [|done].
    wal_simpl. rewrite insert_insert_eq, !fmap_insert. done.
  - rewrite !do_POST_precommit.
    destruct (TX st !! body_txid b) as [rec|] eqn:Hr; simpl; [|by rewrite Hr].
    wal_simpl. rewrite lookup_insert_eq. simpl.
    wal_simpl. rewrite insert_insert_eq. done.
  - assert (Hn : ~ endpoint path) by (unfold endpoint; tauto).
    rewrite !(do_POST_other _ _ _ _ _ Hn). done.
Qed.



(** *** Validation and the vote *)

(** C4. For every operation that fails validation, [/prepare] replies
    [{vote: NO}] and leaves the record [ABORTED]; [/can_commit] replies
    [{vote: NO}] as well, but leaves the record [READY], not [ABORTED]. *)
Theorem rejected_op_prepare_ABORTED_can_commit_READY cfg now txid o st :
  validate_op o = Ok false ->
  let p := do_POST cfg now "/prepare" (with_op txid o) st in
  let c := do_POST cfg now "/can_commit" (with_op txid o) st in
  out_reply p = Ok (200, vote_NO)
  /\ state_of (out_state p) txid = Some ABORTED
  /\ out_reply c = Ok (200, vote_NO)
  /\ state_of (out_state c) txid = Some READY.
Proof.
  intros Hv. cbv zeta. unfold state_of.
  rewrite do_POST_prepare, do_POST_can_commit.
  cbn [with_op body_op body_txid]. rewrite Hv. simpl.
  wal_simpl. rewrite !lookup_insert_eq. done.
Qed.

Lemma rejected_op_witness :
  validate_op op_del = Ok false
  /\ out_reply (do_POST cfg_wal 10 "/can_commit" (with_op "t1" op_del) (initial None))
     = Ok (200, vote_NO)
  /\ state_of
       (out_state (do_POST cfg_wal 10 "/can_commit" (with_op "t1" op_del) (initial None)))
       "t1"
     = Some READY.
Proof.
  split; [reflexivity|].
  apply (rejected_op_prepare_ABORTED_can_commit_READY cfg_wal 10 "t1" op_del
           (initial None)).
  reflexivity.
Defined.

(** An object whose ["type"] is a number has no [upper]: the call raises
    [AttributeError], and so does [/prepare], which then sends no reply. *)
Lemma validate_op_numeric_type_raises : ~ validate_op_total_on_objects.
Proof.
  intros H. destruct (H [("type", JNum 1); ("key", JStr "x")]) as [valid Hv].
  discriminate Hv.
Qed.

Example prepare_numeric_type_raises :
  do_POST cfg_wal 10 "/prepare" (with_op "t1" op_numtype) (initial None)
  = raised (initial None) AttributeError.
Proof. reflexivity. Qed.

(** C10, amended. On a JSON object whose ["type"] is absent or a string,
    [validate_op] returns without raising, with the absent member read as
    the empty string; when that text is not ["SET"] up to case, [/prepare]
    and [/can_commit] reply [{vote: NO}] without raising. *)
Theorem validate_op_absent_or_string_type cfg now txid kvs st :
  (lookup kvs "type" = None \/ exists t, lookup kvs "type" = Some (JStr t)) ->
  validate_op (JObj kvs) = Ok (String.eqb (upper (type_text kvs)) "SET")
  /\ (lookup kvs "type" = None ->
      validate_op (JObj kvs) = validate_op (JObj (("type", JStr EmptyString) :: kvs)))
  /\ (upper (type_text kvs) <> "SET" ->
      out_reply (do_POST cfg now "/prepare" (with_op txid (JObj kvs)) st)
      = Ok (200, vote_NO)
      /\ out_reply (do_POST cfg now "/can_commit" (with_op txid (JObj kvs)) st)
         = Ok (200, vote_NO)).
Proof.
  intros Ht.
  assert (Hv : validate_op (JObj kvs) = Ok (String.eqb (upper (type_text kvs)) "SET")).
  { unfold validate_op, type_text. destruct Ht as [->|[t ->]]; reflexivity. }
  split; [exact Hv|]. split.
  - intros Hn. unfold validate_op. simpl. by rewrite Hn.
  - intros Hne. apply String.eqb_neq in Hne. rewrite Hne in Hv.
    rewrite do_POST_prepare, do_POST_can_commit.
    cbn [with_op body_op body_txid]. rewrite Hv. done.
Qed.

Lemma validate_op_absent_type_witness :
  validate_op op_untyped = Ok false
  /\ out_reply (do_POST cfg_wal 10 "/prepare" (with_op "t1" op_untyped) (initial None))
     = Ok (200, vote_NO).
Proof.
  pose proof (validate_op_absent_or_string_type cfg_wal 10 "t1"
                [("key", JStr "x"); ("value", JStr "1")] (initial None)
                (or_introl eq_refl)) as (Hv & _ & Hr).
  split; [exact Hv|].
  apply Hr. discriminate.
Defined.

(** *** Requests that meet no record, or a finished one *)

(** [/commit] for a txid without a record sends no reply at all. *)
Lemma commit_unknown_txid_no_4xx :
  ~ rejected_with_4xx (initial None)
      (do_POST cfg_wal 10 "/commit" (only_txid "t9") (initial None)).
Proof.
  intros [(code & payload & Hr & _) _]. discriminate Hr.
Qed.

(** C6, amended. [/commit] for a txid without a record raises [TypeError]
    when it subscripts the missing record: no HTTP reply is sent, nothing is
    appended to the WAL, and [TX] and [kv] are as before. *)
Theorem commit_unknown_txid_raises cfg now b st :
  TX st !! body_txid b = None ->
  let r := do_POST cfg now "/commit" b st in
  out_reply r = Raise TypeError /\ out_events r = [] /\ out_state r = st.
Proof.
  intros Hn. cbv zeta. rewrite do_POST_commit, Hn. done.
Qed.

Lemma commit_unknown_txid_witness :
  let r := do_POST cfg_wal 10 "/commit" (only_txid "t9") (initial None) in
  out_reply r = Raise TypeError /\ out_events r = [] /\ out_state r = initial None.
Proof.
  apply (commit_unknown_txid_raises cfg_wal 10 (only_txid "t9") (initial None)).
  reflexivity.
Defined.

Example committed_t1_state : state_of committed_t1 "t1" = Some COMMITTED.
Proof. vm_compute. reflexivity. Qed.

(** [/abort] after [/commit] turns a [COMMITTED] record into [ABORTED]. *)
Lemma abort_after_commit_reverts :
  ~ keeps_terminal cfg_wal 12 "/abort" (only_txid "t1") committed_t1.
Proof.
  intros H. specialize (H COMMITTED committed_t1_state eq_refl).
  vm_compute in H. discriminate H.
Qed.

(** C5, amended. A terminal state is not protected: every request for a
    txid that has a record is accepted, and the state it leaves is the one
    its endpoint writes, whatever the record held.  [/abort] leaves
    [ABORTED], [/precommit] leaves [PRECOMMIT], [/can_commit] leaves [READY],
    [/prepare] leaves [READY] or [ABORTED] by its vote, and [/commit] leaves
    [COMMITTED] unless applying the recorded operation raises, in which case
    nothing changes.  So [COMMITTED] survives a repeated [/commit] and
    [ABORTED] a repeated [/abort], and no other request keeps them. *)
Theorem terminal_state_is_overwritten cfg now path b st s :
  state_of st (body_txid b) = Some s -> terminal s = true ->
  let r := do_POST cfg now path b st in
  let after := state_of (out_state r) (body_txid b) in
  (path = "/abort" -> out_reply r = Ok (200, ok_true) /\ after = Some ABORTED)
  /\ (path = "/precommit" ->
      out_reply r = Ok (200, ok_true) /\ after = Some PRECOMMIT)
  /\ (path = "/commit" ->
      (out_reply r = Ok (200, ok_true) /\ after = Some COMMITTED)
      \/ (is_ok (out_reply r) = false /\ out_state r = st))
  /\ (path = "/can_commit" -> forall o valid,
        body_op b = Some o -> validate_op o = Ok valid ->
        out_reply r = Ok (200, JObj [("vote", JStr (vote_of valid))])
        /\ after = Some READY)
  /\ (path = "/prepare" -> forall o valid,
        body_op b = Some o -> validate_op o = Ok valid ->
        out_reply r = Ok (200, JObj [("vote", JStr (vote_of valid))])
        /\ after = Some (if valid then READY else ABORTED)).
Proof.
  unfold state_of. intros Hs _. cbv zeta.
  destruct (TX st !! body_txid b) as [rec|] eqn:Hr; [|discriminate].
  split; [|split; [|split; [|split]]]; intros ->.
  - rewrite do_POST_abort. simpl. wal_simpl. by rewrite lookup_insert_eq.
  - rewrite do_POST_precommit, Hr. simpl. wal_simpl. by rewrite lookup_insert_eq.
  - rewrite do_POST_commit, Hr.
    destruct (apply_op (op rec) (kv st)) as [store|e]; [left|right; done].
    simpl. wal_simpl. by rewrite lookup_insert_eq.
  - intros o valid Ho Hv. rewrite do_POST_can_commit, Ho, Hv. simpl. wal_simpl.
    by rewrite lookup_insert_eq.
  - intros o valid Ho Hv. rewrite do_POST_prepare, Ho, Hv. simpl. wal_simpl.
    by rewrite lookup_insert_eq.
Qed.

Lemma terminal_state_is_overwritten_witness :
  state_of committed_t1 "t1" = Some COMMITTED
  /\ state_of (out_state (do_POST cfg_wal 12 "/abort" (only_txid "t1") committed_t1)) "t1"
     = Some ABORTED.
Proof.
  split; [exact committed_t1_state|].
  apply (terminal_state_is_overwritten cfg_wal 12 "/abort" (only_txid "t1")
           committed_t1 COMMITTED committed_t1_state eq_refl).
  reflexivity.
Defined.

End ParticipantFacts.

(** ** The coordinator's decision *)

Module DecisionFacts.

Import Py Json Coordinator SystemProps.

Lemma post_json_calls e p path payload w :
  calls (fst (post_json e p path payload w)) = S (calls w).
Proof.
  unfold post_json.
  destruct (net e (calls w)) as [|ms]; [reflexivity|].
  destruct (nodes w !! p) as [n|]; [|reflexivity].
  destruct (Participant.out_reply _) as [[code resp]|]; [|reflexivity].
  destruct (timed_out ms); [reflexivity|].
  destruct (_ && _); reflexivity.
Qed.


Lemma post_json_coord e p path payload w :
  coord (fst (post_json e p path payload w)) = coord w.
Proof.
  unfold post_json.
  destruct (net e (calls w)) as [|ms]; [reflexivity|].
  destruct (nodes w !! p) as [n|]; [|reflexivity].
  destruct (Participant.out_reply _) as [[code resp]|]; [|reflexivity].
  destruct (timed_out ms); [reflexivity|].
  destruct (_ && _); reflexivity.
Qed.

Lemma post_json_fails e p path payload w :
  call_fails e w (calls w) p ->
  snd (post_json e p path payload w) = Raise URLError.
Proof.
  unfold call_fails, post_json. intros [Hu|[Hn|(ms & Hd & Hms)]].
  - rewrite Hu. reflexivity.
  - rewrite Hn. destruct (net e (calls w)); reflexivity.
  - rewrite Hd. destruct (nodes w !! p) as [n|]; [|reflexivity].
    destruct (Participant.out_reply _) as [[code resp]|]; [|reflexivity].
    unfold timed_out. apply Z.ltb_lt in Hms. rewrite Hms. reflexivity.
Qed.

(** What one turn of the voting loop does to the tally. *)
Lemma vote_step_votes e path txid o t p :
  let t' := vote_step e path txid o t p in
  exists v, votes t' = <[p := v]> (votes t)
            /\ all_yes t' = (if eq_str v "YES" then all_yes t else false)
            /\ (call_fails e (t_world t) (calls (t_world t)) p -> v = NO_TIMEOUT).
Proof.
  cbv zeta. unfold vote_step.
  pose proof (post_json_fails e p path
                {| Participant.body_txid := txid; Participant.body_op := Some o |}
                (t_world t)) as Hf.
  destruct (post_json e p path _ (t_world t)) as [w' r]. simpl in Hf.
  destruct r as [[code resp]|ex]; simpl.
  - destruct (resp_vote resp) as [v|ex]; simpl.
    + exists v. split; [reflexivity|]. split.
      * destruct (eq_str v "YES"); reflexivity.
      * intros Hc. specialize (Hf Hc). discriminate.
    + exists NO_TIMEOUT. repeat split; reflexivity.
  - exists NO_TIMEOUT. repeat split; reflexivity.
Qed.

Lemma vote_step_world e path txid o t p :
  t_world (vote_step e path txid o t p)
  = fst (post_json e p path
           {| Participant.body_txid := txid; Participant.body_op := Some o |}
           (t_world t)).
Proof.
  unfold vote_step.
  destruct (post_json e p path _ (t_world t)) as [w' r]. simpl.
  destruct (let* sr := r in resp_vote sr.2); reflexivity.
Qed.





(** The value that [start] returns, for both protocols. *)
Lemma start_outcome e cfg txid o protocol w :
  exists path,
    (path = "/prepare" \/ path = "/can_commit")
    /\ snd (start e cfg txid o protocol w)
       = let t := collect_votes e cfg path txid o w in
         {| o_txid := txid;
            o_decision := if all_yes t then "COMMIT" else "ABORT";
            o_votes := votes t |}.
Proof.
  unfold start.
  destruct (String.eqb _ "3PC").
  - exists "/can_commit". split; [by right|]. unfold three_pc. cbv zeta.
    destruct (all_yes (collect_votes e cfg "/can_commit" txid o w)); reflexivity.
  - exists "/prepare". split; [by left|]. reflexivity.
Qed.





Example happy_two_pc :
  let out := snd (start Samples.env_ok Samples.cfg_coord "t1" Samples.op_set None
                    (boot Samples.two_nodes)) in
  o_decision out = "COMMIT"
  /\ o_votes out !! Samples.url1 = Some (JStr "YES")
  /\ o_votes out !! Samples.url2 = Some (JStr "YES").
Proof. vm_compute. auto. Qed.

End DecisionFacts.

(** ** The history of a run: what is logged before what is sent *)

Module EventFacts.

Import Py Json Coordinator SystemProps.

Local Open Scope list_scope.

Lemma post_json_effect e p path payload w :
  call_effect e p path payload w
    (fst (post_json e p path payload w)) (snd (post_json e p path payload w)).
Proof.
  unfold post_json.
  destruct (net e (calls w)) as [|ms].
  { by apply call_lost. }
  destruct (nodes w !! p) as [n|] eqn:Hn.
  2: { by apply call_lost. }
  assert (Hlog : forall (l : list event) x y z, (l ++ [x]) ++ y ++ [z] = l ++ x :: y ++ [z]).
  { intros. by rewrite <- app_assoc. }
  destruct (Participant.out_reply _) as [[code resp]|ex] eqn:Hr.
  - destruct (timed_out ms).
    + eapply call_served; eauto; simpl; rewrite ?Hr; auto.
    + destruct (_ && _); eapply call_served; eauto; simpl; rewrite ?Hr; auto.
  - eapply call_served; eauto; simpl; rewrite ?Hr; auto.
Qed.

Lemma post_json_events e p path payload w :
  exists evs,
    log (fst (post_json e p path payload w)) = log w ++ evs
    /\ Forall (about path (Participant.body_txid payload)) evs.
Proof.
  destruct (post_json_effect e p path payload w) as [w' _ _ _ Hl|n w' res _ r _ _ _ Hl _].
  - eexists. split; [exact Hl|]. repeat constructor.
  - eexists. split; [exact Hl|].
    constructor; [by split|]. apply Forall_app. split.
    + clear Hl. generalize (Participant.out_events r) as evs. intros evs.
      induction evs; simpl; constructor; [exact I|assumption].
    + repeat constructor.
Qed.

Lemma send_all_events e path txid ps : forall w,
  exists evs,
    log (fold_left (send_step e path txid) ps w) = log w ++ evs
    /\ Forall (about path txid) evs.
Proof.
  induction ps as [|p ps IH]; intros w; simpl.
  - exists []. split; [by rewrite app_nil_r|constructor].
  - destruct (IH (send_step e path txid w p)) as (evs2 & -> & H2).
    unfold send_step.
    destruct (post_json_events e p path
                {| Participant.body_txid := txid; Participant.body_op := None |} w)
      as (evs1 & -> & H1).
    exists (evs1 ++ evs2). split; [by rewrite app_assoc|].
    apply Forall_app. by split.
Qed.

Lemma send_all_coord e cfg path txid w :
  coord (send_all e cfg path txid w) = coord w.
Proof.
  unfold send_all. generalize (PARTICIPANTS cfg) as ps. intros ps. revert w.
  induction ps as [|p ps IH]; intros w; simpl; [reflexivity|].
  rewrite IH. unfold send_step. apply DecisionFacts.post_json_coord.
Qed.

Lemma collect_votes_events e path txid o ps : forall t,
  exists evs,
    log (t_world (fold_left (vote_step e path txid o) ps t)) = log (t_world t) ++ evs
    /\ Forall (about path txid) evs.
Proof.
  induction ps as [|p ps IH]; intros t; simpl.
  - exists []. split; [by rewrite app_nil_r|constructor].
  - destruct (IH (vote_step e path txid o t p)) as (evs2 & -> & H2).
    rewrite DecisionFacts.vote_step_world.
    destruct (post_json_events e p path
                {| Participant.body_txid := txid; Participant.body_op := Some o |}
                (t_world t))
      as (evs1 & -> & H1).
    exists (evs1 ++ evs2). split; [by rewrite app_assoc|].
    apply Forall_app. by split.
Qed.

Lemma collect_votes_coord e path txid o ps : forall t,
  coord (t_world (fold_left (vote_step e path txid o) ps t)) = coord (t_world t).
Proof.
  induction ps as [|p ps IH]; intros t; simpl; [reflexivity|].
  rewrite IH, DecisionFacts.vote_step_world. apply DecisionFacts.post_json_coord.
Qed.

(** The part of [two_pc] and [three_pc] up to the decision, and the part
    after it. *)
Lemma start_phases e cfg txid o protocol w :
  exists w1 d,
    d = o_decision (snd (start e cfg txid o protocol w))
    /\ (d = "COMMIT" \/ d = "ABORT")
    /\ coord w1 = coord w
    /\ (exists pre, log w1 = log w ++ pre
                    /\ Forall (fun ev => about "/prepare" txid ev
                                         \/ about "/can_commit" txid ev
                                         \/ about "/precommit" txid ev) pre)
    /\ fst (start e cfg txid o protocol w)
       = store_done txid (if String.eqb (upper (default "2PC" protocol)) "3PC"
                          then "3PC" else "2PC") d
           (o_votes (snd (start e cfg txid o protocol w)))
           (send_all e cfg (endpoint_of d) txid
              (wal_append cfg (decision_line txid d) w1)).
Proof.
  unfold start. destruct (String.eqb _ "3PC").
  - unfold three_pc. cbv zeta.
    destruct (collect_votes_events e "/can_commit" txid o (PARTICIPANTS cfg)
                {| t_world := w; votes := ∅; all_yes := true |}) as (evs & Hl & Hev).
    pose proof (collect_votes_coord e "/can_commit" txid o (PARTICIPANTS cfg)
                  {| t_world := w; votes := ∅; all_yes := true |}) as Hc.
    fold (collect_votes e cfg "/can_commit" txid o w) in *. simpl in Hl, Hc.
    destruct (all_yes (collect_votes e cfg "/can_commit" txid o w)); simpl.
    + destruct (send_all_events e "/precommit" txid (PARTICIPANTS cfg)
                  (t_world (collect_votes e cfg "/can_commit" txid o w)))
        as (evs2 & Hl2 & Hev2).
      fold (send_all e cfg "/precommit" txid
              (t_world (collect_votes e cfg "/can_commit" txid o w))) in Hl2.
      eexists _, "COMMIT". split; [reflexivity|]. split; [by left|].
      split; [by rewrite send_all_coord|]. split; [|reflexivity].
      exists (evs ++ evs2). split; [by rewrite Hl2, Hl, app_assoc|].
      apply Forall_app. split; eapply Forall_impl; eauto; simpl; tauto.
    + eexists _, "ABORT". split; [reflexivity|]. split; [by right|].
      split; [exact Hc|]. split; [|reflexivity].
      exists evs. split; [exact Hl|]. eapply Forall_impl; eauto; simpl; tauto.
  - unfold two_pc. cbv zeta. simpl.
    destruct (collect_votes_events e "/prepare" txid o (PARTICIPANTS cfg)
                {| t_world := w; votes := ∅; all_yes := true |}) as (evs & Hl & Hev).
    pose proof (collect_votes_coord e "/prepare" txid o (PARTICIPANTS cfg)
                  {| t_world := w; votes := ∅; all_yes := true |}) as Hc.
    fold (collect_votes e cfg "/prepare" txid o w) in *. simpl in Hl, Hc.
    eexists _, _. split; [reflexivity|].
    split; [destruct (all_yes _); [by left|by right]|].
    split; [exact Hc|]. split; [|reflexivity].
    exists evs. split; [exact Hl|]. eapply Forall_impl; eauto; simpl; tauto.
Qed.

(** A participant started without [--wal] (the default) replies to
    [/prepare] and has written nothing. *)
Lemma no_wal_path_no_record :
  ~ logs_before_reply Samples.cfg_nowal 10 "/prepare"
      (Samples.with_op "t1" Samples.op_set) (Participant.initial None).
Proof.
  intros H.
  destruct (H 200 (JObj [("vote", JStr "YES")]) eq_refl) as [text Ht].
  discriminate Ht.
Qed.

Lemma handler_logs_before_reply cfg now path b st code payload :
  truthy (Participant.WAL_PATH cfg) = true ->
  ParticipantProps.endpoint path ->
  Participant.out_reply (Participant.do_POST cfg now path b st) = Ok (code, payload) ->
  exists args,
    let text := rstrip_nl (Participant.body_txid b +:+ " " +:+ command path +:+ args)
                +:+ chr LF in
    Participant.out_events (Participant.do_POST cfg now path b st)
    = [Participant.WalAppend text; Participant.Reply code payload]
    /\ Participant.wal (Participant.out_state (Participant.do_POST cfg now path b st))
       = Some (default EmptyString (Participant.wal st) +:+ text).
Proof.
  intros Hw Hep. cbv zeta.
  destruct Hep as [-> | [-> | [-> | [-> | ->]]]].
  - rewrite ParticipantFacts.do_POST_prepare.
    destruct (Participant.body_op b) as [o|]; [|discriminate].
    destruct (Participant.validate_op o) as [valid|]; [|discriminate].
    unfold Participant.replied, Participant.wal_append. rewrite Hw. simpl.
    intros Heq; injection Heq as <- <-.
    by exists (" " +:+ Participant.vote_of valid +:+ " " +:+ dumps o).
  - rewrite ParticipantFacts.do_POST_can_commit.
    destruct (Participant.body_op b) as [o|]; [|discriminate].
    destruct (Participant.validate_op o) as [valid|]; [|discriminate].
    unfold Participant.replied, Participant.wal_append. rewrite Hw. simpl.
    intros Heq; injection Heq as <- <-.
    by exists (" " +:+ Participant.vote_of valid +:+ " " +:+ dumps o).
  - rewrite ParticipantFacts.do_POST_precommit.
    destruct (Participant.TX st !! Participant.body_txid b) as [rec|]; [|discriminate].
    unfold Participant.replied, Participant.wal_append. rewrite Hw. simpl.
    intros Heq; injection Heq as <- <-. by exists EmptyString.
  - rewrite ParticipantFacts.do_POST_commit.
    destruct (Participant.TX st !! Participant.body_txid b) as [rec|]; [|discriminate].
    destruct (Participant.apply_op _ _) as [store|]; [|discriminate].
    unfold Participant.replied, Participant.wal_append. rewrite Hw. simpl.
    intros Heq; injection Heq as <- <-. by exists EmptyString.
  - rewrite ParticipantFacts.do_POST_abort.
    unfold Participant.replied, Participant.wal_append. rewrite Hw. simpl.
    intros Heq; injection Heq as <- <-. by exists EmptyString.
Qed.

Lemma endpoint_of_cases d :
  endpoint_of d = "/commit" \/ endpoint_of d = "/abort".
Proof. unfold endpoint_of. destruct (String.eqb d "COMMIT"); auto. Qed.

Lemma decision_logged_before_dispatch e cfg txid o protocol w :
  truthy (WAL_PATH cfg) = true ->
  let w' := fst (start e cfg txid o protocol w) in
  let d := o_decision (snd (start e cfg txid o protocol w)) in
  exists pre post,
    log w' = log w ++ pre ++ CoordWal (decision_line txid d +:+ chr LF) :: post
    /\ Forall (fun ev => ~ is_dispatch ev) pre
    /\ Forall (about (endpoint_of d) txid) post
    /\ wal (coord w')
       = Some (default EmptyString (wal (coord w)) +:+ decision_line txid d +:+ chr LF).
Proof.
  intros Hw. cbv zeta.
  destruct (start_phases e cfg txid o protocol w)
    as (w1 & d & <- & _ & Hc & (pre & Hl & Hpre) & ->).
  destruct (send_all_events e (endpoint_of d) txid (PARTICIPANTS cfg)
              (wal_append cfg (decision_line txid d) w1)) as (post & Hl2 & Hpost).
  fold (send_all e cfg (endpoint_of d) txid (wal_append cfg (decision_line txid d) w1))
    in Hl2.
  exists pre, post. simpl. rewrite Hl2, send_all_coord.
  unfold wal_append. rewrite Hw. simpl. rewrite Hl, Hc.
  split; [by rewrite <- !app_assoc|]. split; [|split; [exact Hpost|reflexivity]].
  eapply Forall_impl; [exact Hpre|].
  intros ev Hab (p & t & [-> | ->]); simpl in Hab;
    destruct Hab as [[? _]|[[? _]|[? _]]]; discriminate.
Qed.

(** C3, amended. On a node that has a WAL path, a state change is on disk
    before it is answered or acted on.  A participant endpoint that replies
    has appended (written, flushed, fsynced) its record, the line
    [txid CMD ...], before the reply, and the record is the new tail of the
    WAL file.  The coordinator appends [txid DECISION d] after the last
    vote or pre-commit request and before the first [/commit] or [/abort]
    is sent, and every dispatch that follows is the one of [d] for [txid]. *)
Theorem durable_before_reply_or_dispatch :
  (forall cfg now path b st code payload,
      truthy (Participant.WAL_PATH cfg) = true ->
      ParticipantProps.endpoint path ->
      Participant.out_reply (Participant.do_POST cfg now path b st) = Ok (code, payload) ->
      exists args,
        let text := rstrip_nl (Participant.body_txid b +:+ " " +:+ command path +:+ args)
                    +:+ chr LF in
        Participant.out_events (Participant.do_POST cfg now path b st)
        = [Participant.WalAppend text; Participant.Reply code payload]
        /\ Participant.wal (Participant.out_state (Participant.do_POST cfg now path b st))
           = Some (default EmptyString (Participant.wal st) +:+ text))
  /\ (forall e cfg txid o protocol w,
         truthy (WAL_PATH cfg) = true ->
         let w' := fst (start e cfg txid o protocol w) in
         let d := o_decision (snd (start e cfg txid o protocol w)) in
         exists pre post,
           log w' = log w ++ pre ++ CoordWal (decision_line txid d +:+ chr LF) :: post
           /\ Forall (fun ev => ~ is_dispatch ev) pre
           /\ Forall (about (endpoint_of d) txid) post
           /\ wal (coord w')
              = Some (default EmptyString (wal (coord w))
                      +:+ decision_line txid d +:+ chr LF)).
Proof.
  split.
  - apply handler_logs_before_reply.
  - apply decision_logged_before_dispatch.
Qed.

Lemma durable_before_reply_or_dispatch_witness :
  (exists args,
      Participant.out_events
        (Participant.do_POST Samples.cfg_wal 10 "/prepare"
           (Samples.with_op "t1" Samples.op_set) (Participant.initial None))
      = [Participant.WalAppend (rstrip_nl ("t1" +:+ " " +:+ "PREPARE" +:+ args) +:+ chr LF);
         Participant.Reply 200 (JObj [("vote", JStr "YES")])])
  /\ wal (coord (fst (start Samples.env_ok Samples.cfg_coord "t1" Samples.op_set None
                        (boot Samples.two_nodes))))
     = Some ("t1 DECISION COMMIT" +:+ chr LF).
Proof.
  destruct durable_before_reply_or_dispatch as [HP HC]. split.
  - destruct (HP Samples.cfg_wal 10 "/prepare" (Samples.with_op "t1" Samples.op_set)
                (Participant.initial None) 200 (JObj [("vote", JStr "YES")])
                eq_refl (or_introl eq_refl) eq_refl) as (args & Hev & _).
    exists args. exact Hev.
  - destruct (HC Samples.env_ok Samples.cfg_coord "t1" Samples.op_set None
                (boot Samples.two_nodes) eq_refl) as (pre & post & _ & _ & _ & Hwal).
    exact Hwal.
Defined.

End EventFacts.

(** ** Agreement between the coordinator's decision and the participants *)

Module AgreementFacts.

Import Py Json Coordinator SystemProps EventFacts.

Local Open Scope list_scope.

(** *** What one request does to the record of its txid *)

Import ParticipantFacts.

Lemma do_POST_handled cfg now path b st :
  let r := Participant.do_POST cfg now path b st in
  handled path
    (Participant.state <$> Participant.TX st !! Participant.body_txid b)
    (Participant.out_reply r)
    (Participant.state
       <$> Participant.TX (Participant.out_state r) !! Participant.body_txid b).
Proof.
  cbv zeta. by_path path.
  - rewrite do_POST_prepare.
    destruct (Participant.body_op b) as [o|]; [|apply handled_raise].
    destruct (Participant.validate_op o) as [valid|ex]; [|apply handled_raise].
    simpl. wal_simpl. rewrite lookup_insert_eq. simpl. by apply handled_prepare.
  - rewrite do_POST_commit.
    destruct (Participant.TX st !! Participant.body_txid b) as [rec|] eqn:Hr;
      [|simpl; rewrite Hr; apply handled_raise].
    destruct (Participant.apply_op _ _) as [store|ex];
      [|simpl; rewrite Hr; apply handled_raise].
    simpl. wal_simpl. rewrite lookup_insert_eq. simpl. by apply handled_commit.
  - rewrite do_POST_abort. simpl. wal_simpl. rewrite lookup_insert_eq. simpl.
    by apply handled_abort.
  - rewrite do_POST_can_commit.
    destruct (Participant.body_op b) as [o|]; [|apply handled_raise].
    destruct (Participant.validate_op o) as [valid|ex]; [|apply handled_raise].
    simpl. wal_simpl. rewrite lookup_insert_eq. simpl. by apply handled_can_commit.
  - rewrite do_POST_precommit.
    destruct (Participant.TX st !! Participant.body_txid b) as [rec|] eqn:Hr;
      [|simpl; rewrite Hr; apply handled_raise].
    simpl. wal_simpl. rewrite lookup_insert_eq. simpl. by apply handled_precommit.
  - assert (Hn : ~ ParticipantProps.endpoint path) by (unfold ParticipantProps.endpoint; tauto).
    rewrite (do_POST_other _ _ _ _ _ Hn). simpl. by apply handled_unknown.
Qed.

Lemma do_POST_other_txid cfg now path b st t :
  t <> Participant.body_txid b ->
  Participant.TX (Participant.out_state (Participant.do_POST cfg now path b st)) !! t
  = Participant.TX st !! t.
Proof.
  intros Hne. by_path path.
  - rewrite do_POST_prepare.
    destruct (Participant.body_op b) as [o|]; [|done].
    destruct (Participant.validate_op o) as [valid|ex]; [|done].
    simpl. wal_simpl. by rewrite lookup_insert_ne.
  - rewrite do_POST_commit.
    destruct (Participant.TX st !! Participant.body_txid b) as [rec|]; [|done].
    destruct (Participant.apply_op _ _) as [store|ex]; [|done].
    simpl. wal_simpl. by rewrite lookup_insert_ne.
  - rewrite do_POST_abort. simpl. wal_simpl. by rewrite lookup_insert_ne.
  - rewrite do_POST_can_commit.
    destruct (Participant.body_op b) as [o|]; [|done].
    destruct (Participant.validate_op o) as [valid|ex]; [|done].
    simpl. wal_simpl. by rewrite lookup_insert_ne.
  - rewrite do_POST_precommit.
    destruct (Participant.TX st !! Participant.body_txid b) as [rec|]; [|done].
    simpl. wal_simpl. by rewrite lookup_insert_ne.
  - assert (Hn : ~ ParticipantProps.endpoint path) by (unfold ParticipantProps.endpoint; tauto).
    by rewrite (do_POST_other _ _ _ _ _ Hn).
Qed.

(** *** A transaction and its decision *)

(** What a call does to the state of a txid at a node, and to the [Served]
    events. *)
Lemma call_state_at e p path payload w w' res q t :
  call_effect e p path payload w w' res ->
  state_at w' q t = state_at w q t
  \/ (q = p /\ t = Participant.body_txid payload
      /\ exists reply,
           handled path (state_at w p t) reply (state_at w' p t)
           /\ Served p path t reply (state_at w' p t) ∈ log w'
           /\ (res = Raise URLError \/ res = reply)).
Proof.
  intros [w1 _ _ Hn _|n w1 res1 Hn r _ _ Hn' Hl Hres].
  - left. unfold state_at. by rewrite Hn.
  - subst r. destruct (decide (q = p)) as [-> |Hq].
    2: { left. unfold state_at. by rewrite Hn', lookup_insert_ne. }
    destruct (decide (t = Participant.body_txid payload)) as [-> |Ht].
    2: { left. unfold state_at. rewrite Hn', lookup_insert_eq, Hn. simpl.
         by rewrite do_POST_other_txid. }
    right. split; [done|]. split; [done|].
    eexists. unfold state_at. rewrite Hn', lookup_insert_eq, Hn. simpl.
    split; [apply do_POST_handled|]. split; [|exact Hres].
    rewrite Hl. apply elem_of_app. right. apply elem_of_cons. right.
    apply elem_of_app. right. by apply list_elem_of_singleton.
Qed.

Lemma call_served_in e p path payload w w' res q path' t reply st :
  call_effect e p path payload w w' res ->
  Served q path' t reply st ∈ log w' ->
  Served q path' t reply st ∈ log w
  \/ (q = p /\ path' = path /\ t = Participant.body_txid payload
      /\ st = state_at w' p t
      /\ handled path (state_at w p t) reply st).
Proof.
  intros [w1 _ _ _ Hl|n w1 res1 Hn r _ _ Hn' Hl _]; rewrite Hl.
  - intros Hin. apply elem_of_app in Hin as [Hin|Hin]; [by left|].
    apply list_elem_of_singleton in Hin. discriminate.
  - subst r. intros Hin. apply elem_of_app in Hin as [Hin|Hin]; [by left|].
    apply elem_of_cons in Hin as [Hin|Hin]; [discriminate|].
    apply elem_of_app in Hin as [Hin|Hin].
    + apply list_elem_of_fmap in Hin as (x & Hx & _). discriminate.
    + apply list_elem_of_singleton in Hin. injection Hin as -> -> -> -> ->.
      right. unfold state_at. rewrite Hn', lookup_insert_eq, Hn. simpl.
      repeat split; try done. apply do_POST_handled.
Qed.

Lemma call_coord_wal_in e p path payload w w' res text :
  call_effect e p path payload w w' res ->
  CoordWal text ∈ log w' -> CoordWal text ∈ log w.
Proof.
  intros [w1 _ _ _ Hl|n w1 res1 Hn r _ _ Hn' Hl _]; rewrite Hl; intros Hin.
  - apply elem_of_app in Hin as [Hin|Hin]; [done|].
    apply list_elem_of_singleton in Hin. discriminate.
  - apply elem_of_app in Hin as [Hin|Hin]; [done|].
    apply elem_of_cons in Hin as [Hin|Hin]; [discriminate|].
    apply elem_of_app in Hin as [Hin|Hin].
    + apply list_elem_of_fmap in Hin as (x & Hx & _). discriminate.
    + apply list_elem_of_singleton in Hin. discriminate.
Qed.

Lemma endpoint_of_terminal d path s :
  path = endpoint_of d ->
  (path = "/commit" /\ s = Participant.COMMITTED)
  \/ (path = "/abort" /\ s = Participant.ABORTED) ->
  s = terminal_of d.
Proof.
  unfold endpoint_of, terminal_of.
  destruct (String.eqb d "COMMIT"); intros -> [[? ->]|[? ->]];
    (done || discriminate).
Qed.

(** A request on [/precommit] or on the endpoint of [d] keeps the record in
    line with [d]. *)
Lemma handled_in_line d path before reply st :
  handled path before reply st ->
  path = "/precommit" \/ path = endpoint_of d ->
  (forall s, before = Some s -> Participant.terminal s = true -> s = terminal_of d) ->
  served_ok d path reply st.
Proof.
  intros Hh Hpath Hbefore.
  assert (Hcases : path = "/precommit" \/ path = "/commit" \/ path = "/abort").
  { destruct Hpath as [-> | ->]; [by left|]. right. apply endpoint_of_cases. }
  split.
  - intros s Hs Hterm.
    destruct Hh as [Hp|Hp|Hp|valid Hp|valid Hp|ex|payload Hp].
    + injection Hs as <-. destruct Hpath as [-> |Hpath]; [discriminate|].
      apply (endpoint_of_terminal d path); [done|]. by right.
    + injection Hs as <-. destruct Hpath as [-> |Hpath]; [discriminate|].
      apply (endpoint_of_terminal d path); [done|]. by left.
    + injection Hs as <-. discriminate.
    + subst path. destruct Hcases as [?|[?|?]]; discriminate.
    + subst path. destruct Hcases as [?|[?|?]]; discriminate.
    + by apply Hbefore.
    + by apply Hbefore.
  - intros _ Hack. destruct Hpath as [-> |Hpath]; [|done].
    destruct Hack; discriminate.
Qed.

Lemma call_agrees e p path payload w w' res t d :
  call_effect e p path payload w w' res ->
  (t = Participant.body_txid payload ->
   path = "/precommit" \/ path = endpoint_of d) ->
  agrees w t d -> agrees w' t d.
Proof.
  intros Hcall Hpath [Hst Hsv]. split.
  - intros q s Hs Hterm.
    destruct (call_state_at _ _ _ _ _ _ _ q t Hcall)
      as [Heq|(-> & Ht & reply & Hh & _ & _)].
    + rewrite Heq in Hs. by apply (Hst q).
    + destruct (handled_in_line d path _ _ _ Hh (Hpath Ht) (Hst p)) as [Hok _].
      by apply Hok.
  - intros q path' reply st Hin.
    destruct (call_served_in _ _ _ _ _ _ _ _ _ _ _ _ Hcall Hin)
      as [Hold|(-> & -> & Ht & _ & Hh)].
    + by apply (Hsv q).
    + apply (handled_in_line d path _ _ _ Hh (Hpath Ht) (Hst p)).
Qed.

Lemma call_untouched e p path payload w w' res t :
  call_effect e p path payload w w' res ->
  t <> Participant.body_txid payload ->
  untouched w t -> untouched w' t.
Proof.
  intros Hcall Hne [Hst Hsv]. split.
  - intros q.
    destruct (call_state_at _ _ _ _ _ _ _ q t Hcall) as [Heq|(_ & Ht & _)]; [|done].
    by rewrite Heq.
  - intros q path' reply st Hin.
    destruct (call_served_in _ _ _ _ _ _ _ _ _ _ _ _ Hcall Hin)
      as [Hold|(_ & _ & Ht & _)]; [|done].
    by apply (Hsv q path' reply st).
Qed.

(** *** The table of decisions *)

Lemma tab_functional (tab : list (string * string)) t d d' :
  NoDup tab.*1 -> (t, d) ∈ tab -> (t, d') ∈ tab -> d = d'.
Proof.
  induction tab as [|[k v] tab IH]; simpl; intros Hnd H1 H2.
  - by apply elem_of_nil in H1.
  - apply NoDup_cons in Hnd as [Hk Hnd].
    apply elem_of_cons in H1 as [H1|H1]; apply elem_of_cons in H2 as [H2|H2].
    + congruence.
    + exfalso. apply Hk. injection H1 as <- <-.
      apply list_elem_of_fmap. by exists (t, d').
    + exfalso. apply Hk. injection H2 as <- <-.
      apply list_elem_of_fmap. by exists (t, d).
    + by apply IH.
Qed.

(** A call for [t] keeps the table, when [t] is still undecided or the call
    is a pre-commit or the dispatch of the decision of [t]. *)
Lemma call_agreed e p path payload w w' res tab :
  call_effect e p path payload w w' res ->
  (forall d, (Participant.body_txid payload, d) ∈ tab ->
             path = "/precommit" \/ path = endpoint_of d) ->
  agreed tab w -> agreed tab w'.
Proof.
  intros Hcall Hpath [Hnd Hent Hwal]. split; [exact Hnd| |].
  - intros t d Hin. destruct (Hent t d Hin) as [Hv Ha]. split; [exact Hv|].
    apply (call_agrees _ _ _ _ _ _ _ _ _ Hcall); [|exact Ha].
    intros ->. by apply Hpath.
  - intros text Hin. apply Hwal. by apply (call_coord_wal_in _ _ _ _ _ _ _ _ Hcall).
Qed.

Lemma call_rest_untouched e p path payload w w' res ks :
  call_effect e p path payload w w' res ->
  Participant.body_txid payload ∈ ks ->
  rest_untouched ks w -> rest_untouched ks w'.
Proof.
  intros Hcall Hin Hr t Ht.
  apply (call_untouched _ _ _ _ _ _ _ _ Hcall); [|by apply Hr].
  intros ->. contradiction.
Qed.

(** A property kept by every call of a loop is kept by the loop. *)
Lemma send_all_keeps (P : world -> Prop) e cfg path txid w :
  (forall p w1 w2 res,
      call_effect e p path
        {| Participant.body_txid := txid; Participant.body_op := None |} w1 w2 res ->
      P w1 -> P w2) ->
  P w -> P (send_all e cfg path txid w).
Proof.
  intros Hstep. unfold send_all. generalize (PARTICIPANTS cfg) as ps.
  intros ps. revert w. induction ps as [|p ps IH]; intros w Hw; simpl; [exact Hw|].
  apply IH. unfold send_step. eapply Hstep; [apply post_json_effect|exact Hw].
Qed.

(** *** The voting loop *)

Lemma vote_step_effect e path t o tl p :
  exists res,
    call_effect e p path
      {| Participant.body_txid := t; Participant.body_op := Some o |}
      (t_world tl) (t_world (vote_step e path t o tl p)) res
    /\ (all_yes tl = false -> all_yes (vote_step e path t o tl p) = false)
    /\ (res = Raise URLError -> all_yes (vote_step e path t o tl p) = false)
    /\ (forall code, res = Ok (code, JObj [("vote", JStr "NO")]) ->
                     all_yes (vote_step e path t o tl p) = false).
Proof.
  unfold vote_step.
  pose proof (post_json_effect e p path
                {| Participant.body_txid := t; Participant.body_op := Some o |}
                (t_world tl)) as Hcall.
  destruct (post_json e p path _ (t_world tl)) as [w' res]. simpl in Hcall.
  exists res. split.
  { destruct (let* sr := res in resp_vote sr.2); exact Hcall. }
  destruct res as [[code resp]|ex]; simpl.
  - destruct (resp_vote resp) as [v|ex] eqn:Hv; simpl.
    + split; [intros ->; by destruct (negb _)|]. split; [discriminate|].
      intros code' Heq. injection Heq as -> ->. simpl in Hv. by injection Hv as <-.
    + by repeat split.
  - by repeat split.
Qed.

Lemma handled_vote path before reply st s :
  path = "/prepare" \/ path = "/can_commit" ->
  handled path before reply st ->
  st = Some s -> Participant.terminal s = true ->
  (s = Participant.ABORTED
   /\ reply = Ok (200, JObj [("vote", JStr "NO")]))
  \/ (before = Some s /\ exists ex, reply = Raise ex).
Proof.
  intros Hpath Hh Hs Hterm.
  destruct Hh as [Hp|Hp|Hp|valid Hp|valid Hp|ex|payload Hp].
  - subst path. destruct Hpath; discriminate.
  - subst path. destruct Hpath; discriminate.
  - subst path. destruct Hpath; discriminate.
  - injection Hs as <-. destruct valid; [discriminate|]. by left.
  - injection Hs as <-. discriminate.
  - right. split; [done|]. by exists ex.
  - exfalso. apply Hp. unfold ParticipantProps.endpoint. tauto.
Qed.

Lemma vote_step_voting e path t o tl p :
  path = "/prepare" \/ path = "/can_commit" ->
  voting t tl -> voting t (vote_step e path t o tl p).
Proof.
  intros Hpath [Hst Hsv].
  destruct (vote_step_effect e path t o tl p) as (res & Hcall & Hmono & Hraise & Hno).
  assert (Hnew : forall reply st s,
             handled path (state_at (t_world tl) p t) reply st ->
             res = Raise URLError \/ res = reply ->
             st = Some s -> Participant.terminal s = true ->
             s = Participant.ABORTED /\ all_yes (vote_step e path t o tl p) = false).
  { intros reply st s Hh Hres Hs Hterm.
    destruct (handled_vote _ _ _ _ _ Hpath Hh Hs Hterm) as [[-> ->]|[Hb [ex ->]]].
    - split; [done|]. destruct Hres as [Hres|Hres]; [by apply Hraise|by apply (Hno 200)].
    - destruct (Hst p s Hb Hterm) as [-> Hall]. split; [done|]. by apply Hmono. }
  split.
  - intros q s Hs Hterm.
    destruct (call_state_at _ _ _ _ _ _ _ q t Hcall)
      as [Heq|(-> & _ & reply & Hh & _ & Hres)].
    + rewrite Heq in Hs. destruct (Hst q s Hs Hterm) as [-> Hall].
      split; [done|]. by apply Hmono.
    + by apply (Hnew reply _ s Hh Hres).
  - intros q path' reply st Hin.
    destruct (call_served_in _ _ _ _ _ _ _ _ _ _ _ _ Hcall Hin)
      as [Hold|(-> & -> & _ & Hst' & Hh)].
    + destruct (Hsv q path' reply st Hold) as [Hp Hs]. split; [exact Hp|].
      intros s Hs' Hterm. destruct (Hs s Hs' Hterm) as [-> Hall].
      split; [done|]. by apply Hmono.
    + split; [exact Hpath|]. intros s Hs Hterm.
      destruct (call_state_at _ _ _ _ _ _ _ p t Hcall)
        as [Heq|(_ & _ & reply' & Hh' & _ & Hres)].
      * rewrite Hst', Heq in Hs. destruct (Hst p s Hs Hterm) as [-> Hall].
        split; [done|]. by apply Hmono.
      * destruct (handled_vote _ _ _ _ _ Hpath Hh Hs Hterm) as [[-> Hr]|[Hb [ex Hr]]].
        -- subst st. by apply (Hnew reply' _ _ Hh' Hres).
        -- destruct (Hst p s Hb Hterm) as [-> Hall]. split; [done|]. by apply Hmono.
Qed.

Lemma collect_votes_keeps (P : world -> Prop) e cfg path t o w :
  (forall p w1 w2 res,
      call_effect e p path
        {| Participant.body_txid := t; Participant.body_op := Some o |} w1 w2 res ->
      P w1 -> P w2) ->
  P w -> P (t_world (collect_votes e cfg path t o w)).
Proof.
  intros Hstep Hw. unfold collect_votes.
  set (tl0 := {| t_world := w; votes := ∅; all_yes := true |}).
  change (P (t_world tl0)) in Hw. generalize dependent tl0.
  generalize (PARTICIPANTS cfg) as ps.
  induction ps as [|p ps IH]; intros tl Htl; simpl; [exact Htl|].
  apply IH.
  destruct (vote_step_effect e path t o tl p) as (res & Hcall & _).
  by apply (Hstep _ _ _ _ Hcall).
Qed.

Lemma collect_votes_voting e cfg path t o w :
  path = "/prepare" \/ path = "/can_commit" ->
  untouched w t -> voting t (collect_votes e cfg path t o w).
Proof.
  intros Hpath [Hst Hsv]. unfold collect_votes.
  set (tl0 := {| t_world := w; votes := ∅; all_yes := true |}).
  assert (Hv : voting t tl0).
  { split.
    - intros p s Hs. simpl in Hs. by rewrite Hst in Hs.
    - intros p path' reply st Hin. by apply Hsv in Hin. }
  generalize dependent tl0. generalize (PARTICIPANTS cfg) as ps.
  induction ps as [|p ps IH]; intros tl Htl; simpl; [exact Htl|].
  apply IH. by apply vote_step_voting.
Qed.

(** After the votes, the transaction is in line with the decision that the
    tally gives. *)
Lemma voting_agrees t tl :
  voting t tl ->
  agrees (t_world tl) t (if all_yes tl then "COMMIT" else "ABORT").
Proof.
  intros [Hst Hsv]. split.
  - intros p s Hs Hterm. destruct (Hst p s Hs Hterm) as [-> ->]. reflexivity.
  - intros p path reply st Hin. destruct (Hsv p path reply st Hin) as [Hp Hs]. split.
    + intros s Hs' Hterm. destruct (Hs s Hs' Hterm) as [-> ->]. reflexivity.
    + intros _ [-> | ->]; destruct Hp; discriminate.
Qed.

(** *** The invariant of a run *)

Lemma decisions_keys tx : (decisions tx).*1 = tx.*1.
Proof. unfold decisions. rewrite <- list_fmap_compose. reflexivity. Qed.

Lemma decisions_snoc tx t r :
  decisions (tx ++ [(t, r)]) = decisions tx ++ [(t, rec_decision r)].
Proof. unfold decisions. by rewrite fmap_app. Qed.

Lemma agreed_extend tab w t d :
  agreed tab w -> t ∉ tab.*1 -> valid_decision d -> agrees w t d ->
  agreed (tab ++ [(t, d)]) w.
Proof.
  intros [Hnd Hent Hwal] Hfresh Hv Ha. split.
  - rewrite fmap_app. simpl. apply NoDup_app. split; [exact Hnd|].
    split; [|apply NoDup_singleton].
    intros x Hx Hx'. apply list_elem_of_singleton in Hx'. by subst x.
  - intros t' d' Hin. apply elem_of_app in Hin as [Hin|Hin]; [by apply Hent|].
    apply list_elem_of_singleton in Hin. by injection Hin as -> ->.
  - intros text Hin. destruct (Hwal text Hin) as (t' & d' & Hin' & Htext).
    exists t', d'. split; [|exact Htext]. apply elem_of_app. by left.
Qed.

Lemma coord_wal_append_state_at cfg line w p t :
  state_at (wal_append cfg line w) p t = state_at w p t.
Proof. unfold wal_append. by destruct (negb _). Qed.

Lemma wal_append_served cfg line w p path t reply st :
  Served p path t reply st ∈ log (wal_append cfg line w) <->
  Served p path t reply st ∈ log w.
Proof.
  unfold wal_append. destruct (negb _); [done|]. simpl.
  rewrite elem_of_app, list_elem_of_singleton. split; [|by left].
  intros [H|H]; [done|discriminate].
Qed.

Lemma coord_wal_append_TX cfg line w : TX (coord (wal_append cfg line w)) = TX (coord w).
Proof. unfold wal_append. by destruct (negb _). Qed.

Lemma wal_append_agreed cfg tab t d w :
  agreed tab w -> (t, d) ∈ tab -> agreed tab (wal_append cfg (decision_line t d) w).
Proof.
  intros [Hnd Hent Hwal] Hin. split; [exact Hnd| |].
  - intros t' d' Hin'. destruct (Hent t' d' Hin') as [Hv [Hst Hsv]].
    split; [exact Hv|]. split.
    + intros p s. rewrite coord_wal_append_state_at. apply Hst.
    + intros p path reply st. rewrite wal_append_served. apply Hsv.
  - intros text. unfold wal_append. destruct (negb _); [apply Hwal|]. simpl.
    rewrite elem_of_app, list_elem_of_singleton. intros [H|H]; [by apply Hwal|].
    injection H as ->. by exists t, d.
Qed.

Lemma wal_append_rest cfg line ks w :
  rest_untouched ks w -> rest_untouched ks (wal_append cfg line w).
Proof.
  intros Hr t Ht. destruct (Hr t Ht) as [Hst Hsv]. split.
  - intros p. by rewrite coord_wal_append_state_at.
  - intros p path reply st. by rewrite wal_append_served.
Qed.

Lemma send_all_agreed e cfg tab path t d w :
  agreed tab w -> (t, d) ∈ tab ->
  path = "/precommit" \/ path = endpoint_of d ->
  agreed tab (send_all e cfg path t w).
Proof.
  intros Ha Hin Hpath. apply send_all_keeps; [|exact Ha].
  intros p w1 w2 res Hcall Ha1.
  apply (call_agreed _ _ _ _ _ _ _ _ Hcall); [|exact Ha1].
  simpl. intros d' Hin'.
  by rewrite (tab_functional tab t d' d (agreed_nodup _ _ Ha) Hin' Hin).
Qed.

Lemma send_all_rest e cfg ks path t w :
  rest_untouched ks w -> t ∈ ks -> rest_untouched ks (send_all e cfg path t w).
Proof.
  intros Hr Hin. apply send_all_keeps; [|exact Hr].
  intros p w1 w2 res Hcall Hr1.
  by apply (call_rest_untouched _ _ _ _ _ _ _ _ Hcall).
Qed.


Lemma agreed_set_coord tab w c : agreed tab w -> agreed tab (set_coord w c).
Proof.
  intros [Hnd Hent Hwal]. split; [exact Hnd| |exact Hwal].
  intros t d Hin. destruct (Hent t d Hin) as [Hv [Hst Hsv]].
  split; [exact Hv|]. split; [exact Hst|exact Hsv].
Qed.

Lemma rest_untouched_set_coord ks w c :
  rest_untouched ks w -> rest_untouched ks (set_coord w c).
Proof.
  intros Hr t Ht. destruct (Hr t Ht) as [Hst Hsv]. split; [exact Hst|exact Hsv].
Qed.


Lemma rest_untouched_weaken ks ks' w :
  (forall t, t ∈ ks -> t ∈ ks') -> rest_untouched ks w -> rest_untouched ks' w.
Proof. intros Hsub Hr t Ht. apply Hr. intros Hin. apply Ht. by apply Hsub. Qed.








Lemma boot_consistent ns :
  (forall p n, ns !! p = Some n -> Participant.TX (node_st n) = ∅) ->
  consistent (boot ns).
Proof.
  intros Hempty. split; simpl.
  - split; simpl.
    + apply NoDup_nil_2.
    + intros t d Hin. by apply elem_of_nil in Hin.
    + intros text Hin. by apply elem_of_nil in Hin.
  - intros t _. split.
    + intros p. unfold state_at. simpl.
      destruct (ns !! p) as [n|] eqn:Hn; [|reflexivity]. simpl.
      by rewrite (Hempty p n Hn), lookup_empty.
    + intros p path reply st Hin. by apply elem_of_nil in Hin.
  - constructor.
Qed.

(** *** The decision line names one transaction and one decision *)

Lemma decision_line_inj t d t' d' :
  valid_decision d -> valid_decision d' ->
  decision_line t d +:+ chr LF = decision_line t' d' +:+ chr LF ->
  t = t' /\ d = d'.
Proof.
  unfold decision_line.
  assert (Hc : forall x, (x +:+ " DECISION " +:+ "COMMIT") +:+ chr LF
                         = (x +:+ " DECISION COM") +:+ String "M" (String "I" (String "T" (chr LF)))).
  { intros x. by rewrite !StringFacts.string_app_assoc. }
  assert (Ha : forall x, (x +:+ " DECISION " +:+ "ABORT") +:+ chr LF
                         = (x +:+ " DECISION AB") +:+ String "O" (String "R" (String "T" (chr LF)))).
  { intros x. by rewrite !StringFacts.string_app_assoc. }
  assert (Hs : forall x y (s : string), (x +:+ s) +:+ chr LF = (y +:+ s) +:+ chr LF -> x = y).
  { intros x y s H. rewrite !StringFacts.string_app_assoc in H.
    by apply StringFacts.string_app_inv_tail in H. }
  intros [-> | ->] [-> | ->] H.
  - split; [|reflexivity]. by apply (Hs _ _ (" DECISION " +:+ "COMMIT")).
  - exfalso. rewrite Hc, Ha in H.
    by apply StringFacts.string_app_tail_neq in H.
  - exfalso. rewrite Hc, Ha in H.
    by apply StringFacts.string_app_tail_neq in H.
  - split; [|reflexivity]. by apply (Hs _ _ (" DECISION " +:+ "ABORT")).
Qed.


Lemma two_nodes_empty p n :
  Samples.two_nodes !! p = Some n -> Participant.TX (node_st n) = ∅.
Proof.
  unfold Samples.two_nodes. intros H.
  apply lookup_insert_Some in H as [[_ <-]|[_ H]]; [reflexivity|].
  apply lookup_insert_Some in H as [[_ <-]|[_ H]]; [reflexivity|].
  by rewrite lookup_empty in H.
Qed.




End AgreementFacts.

(** ** Lines of the WAL: writing them and reading them back *)

Module LineFacts.

Import Py Json TextProps StringFacts.

Local Open Scope list_scope.

Lemma all_chars_app p (s1 s2 : string) :
  all_chars p (s1 +:+ s2) = all_chars p s1 && all_chars p s2.
Proof.
  induction s1 as [|c s1 IH]; [reflexivity|].
  rewrite string_app_cons. simpl. by rewrite IH, andb_assoc.
Qed.

Lemma all_chars_impl (p q : ascii -> bool) s :
  (forall c, p c = true -> q c = true) ->
  all_chars p s = true -> all_chars q s = true.
Proof.
  intros Hpq. induction s as [|c s IH]; simpl; [done|].
  intros H. apply andb_prop in H as [Hc Hs]. by rewrite (Hpq c Hc), IH.
Qed.

Lemma printable_line_char c : printable c = true -> line_char c = true.
Proof.
  destruct c as [[] [] [] [] [] [] [] []]; vm_compute; intros H;
    (reflexivity || discriminate H).
Qed.

Lemma printable_not_LF c : printable c = true -> Ascii.eqb LF c = false.
Proof.
  destruct c as [[] [] [] [] [] [] [] []]; vm_compute; intros H;
    (reflexivity || discriminate H).
Qed.

Lemma solid_line_char c : negb (is_space c) = true -> line_char c = true.
Proof.
  destruct c as [[] [] [] [] [] [] [] []]; vm_compute; intros H;
    (reflexivity || discriminate H).
Qed.

Lemma solid_not_SP c : negb (is_space c) = true -> negb (Ascii.eqb c SP) = true.
Proof.
  destruct c as [[] [] [] [] [] [] [] []]; vm_compute; intros H;
    (reflexivity || discriminate H).
Qed.

(** *** [split] *)

Lemma split_head sep (s1 s2 : string) n :
  all_chars (fun c => negb (Ascii.eqb c sep)) s1 = true ->
  split sep (s1 +:+ String sep s2) (S n) = s1 :: split sep s2 n.
Proof.
  induction s1 as [|c s1 IH]; intros H.
  - rewrite string_app_nil_l. simpl. by rewrite Ascii.eqb_refl.
  - simpl in H. apply andb_prop in H as [Hc Hs].
    rewrite string_app_cons. simpl.
    apply negb_true_iff in Hc. rewrite Hc. by rewrite (IH Hs).
Qed.

Lemma split_zero sep s : split sep s 0 = [s].
Proof. by destruct s. Qed.

(** *** [strip] *)

Lemma rstrip_by_all p t : all_chars p t = true -> rstrip_by p t = EmptyString.
Proof.
  induction t as [|c t IH]; simpl; [done|].
  intros H. apply andb_prop in H as [Hc Ht]. by rewrite (IH Ht), Hc.
Qed.

Lemma rstrip_by_solid p (s t : string) c :
  p c = false -> all_chars p t = true ->
  rstrip_by p (s +:+ String c t) = s +:+ chr c.
Proof.
  intros Hc Ht. induction s as [|a s IH].
  - rewrite !string_app_nil_l. simpl. by rewrite (rstrip_by_all p t Ht), Hc.
  - rewrite !string_app_cons. simpl. rewrite IH.
    destruct s; reflexivity.
Qed.

Lemma lstrip_solid c s : is_space c = false -> lstrip (String c s) = String c s.
Proof. intros H. simpl. by rewrite H. Qed.

Lemma rstrip_nl_record (s : string) z :
  Ascii.eqb LF z = false -> rstrip_nl (s +:+ chr z) = s +:+ chr z.
Proof. intros Hz. unfold rstrip_nl. by apply rstrip_by_solid. Qed.

(** *** [readlines] *)

Lemma readlines_line (l rest : string) :
  all_chars line_char l = true ->
  readlines ((l +:+ chr LF) +:+ rest) = (l +:+ chr LF) :: readlines rest.
Proof.
  induction l as [|c l IH]; intros H.
  - reflexivity.
  - simpl in H. apply andb_prop in H as [Hc Hl].
    unfold line_char in Hc. apply andb_prop in Hc as [Hlf Hcr].
    apply negb_true_iff in Hlf, Hcr.
    rewrite !string_app_cons. simpl. rewrite Hlf, Hcr.
    rewrite <- string_app_cons. by rewrite (IH Hl).
Qed.

Lemma file_of_app l1 l2 : file_of (l1 ++ l2) = file_of l1 +:+ file_of l2.
Proof.
  induction l1 as [|l l1 IH]; simpl; [reflexivity|].
  by rewrite IH, !string_app_assoc.
Qed.

Lemma readlines_file lines :
  Forall (fun l => all_chars line_char l = true) lines ->
  readlines (file_of lines) = (fun l => l +:+ chr LF) <$> lines.
Proof.
  induction 1 as [|l lines Hl _ IH]; simpl; [reflexivity|].
  by rewrite readlines_line, IH.
Qed.

Lemma file_of_nil_inv lines : file_of lines = EmptyString -> lines = [].
Proof.
  destruct lines as [|l lines]; [done|]. simpl.
  rewrite string_app_assoc. destruct l; discriminate.
Qed.

End LineFacts.

(** ** The text of [json.dumps] *)

Module JsonFacts.

Import Py Json TextProps StringFacts LineFacts.

Local Open Scope list_scope.

Lemma escape_char_printable c : all_chars printable (escape_char c) = true.
Proof. destruct c as [[] [] [] [] [] [] [] []]; vm_compute; reflexivity. Qed.

Lemma escape_printable s : all_chars printable (escape s) = true.
Proof.
  induction s as [|c s IH]; simpl; [reflexivity|].
  by rewrite all_chars_app, escape_char_printable, IH.
Qed.

Lemma dumps_str_printable s : all_chars printable (dumps_str s) = true.
Proof.
  unfold dumps_str. simpl. by rewrite all_chars_app, escape_printable.
Qed.

Lemma string_of_uint_printable d :
  all_chars printable (NilEmpty.string_of_uint d) = true.
Proof. induction d; simpl; auto. Qed.

Lemma str_int_printable z : all_chars printable (str_int z) = true.
Proof.
  unfold str_int, NilZero.string_of_int, NilZero.string_of_uint.
  destruct (Z.to_int z) as [d|d]; destruct d; simpl;
    try reflexivity; apply string_of_uint_printable.
Qed.

Lemma join_printable sep l :
  all_chars printable sep = true ->
  Forall (fun s => all_chars printable s = true) l ->
  all_chars printable (join sep l) = true.
Proof.
  intros Hsep. induction 1 as [|s l Hs Hl IH]; simpl; [reflexivity|].
  destruct l as [|s' l]; [exact Hs|].
  change (all_chars printable (s +:+ sep +:+ join sep (s' :: l)) = true).
  by rewrite !all_chars_app, Hs, Hsep, IH.
Qed.

(** Every character that [json.dumps] writes is a printable ASCII
    character: the text has no line end and no control character. *)
Lemma dumps_printable v : all_chars printable (dumps v) = true.
Proof.
  induction v as [|b|z|s|l IH|kvs IH] using json_nested_ind.
  - reflexivity.
  - by destruct b.
  - apply str_int_printable.
  - apply dumps_str_printable.
  - change (all_chars printable ("[" +:+ join ", " (List.map dumps l) +:+ "]") = true).
    rewrite !all_chars_app. rewrite join_printable; [reflexivity|reflexivity|].
    induction IH as [|x l Hx _ IHl]; simpl; constructor; assumption.
  - change (all_chars printable
              ("{" +:+ join ", "
                         (List.map (fun kv => dumps_str kv.1 +:+ ": " +:+ dumps kv.2) kvs)
               +:+ "}") = true).
    rewrite !all_chars_app. rewrite join_printable; [reflexivity|reflexivity|].
    induction IH as [|kv kvs Hkv _ IHl]; simpl; constructor; [|assumption].
    by rewrite !all_chars_app, dumps_str_printable, Hkv.
Qed.

(** The text of an object is a brace, the members, a brace. *)
Lemma dumps_object kvs :
  exists inner, dumps (JObj kvs) = String "{" inner +:+ chr "}"
                /\ all_chars printable inner = true.
Proof.
  exists (join ", " (List.map (fun kv => dumps_str kv.1 +:+ ": " +:+ dumps kv.2) kvs)).
  split; [reflexivity|].
  pose proof (dumps_printable (JObj kvs)) as H.
  change (all_chars printable
            ("{" +:+ join ", "
                       (List.map (fun kv => dumps_str kv.1 +:+ ": " +:+ dumps kv.2) kvs)
             +:+ "}") = true) in H.
  rewrite !all_chars_app in H. apply andb_prop in H as [_ H].
  by apply andb_prop in H as [H _].
Qed.

End JsonFacts.

(** ** [json.loads] reads back what [json.dumps] writes *)

Module RoundtripFacts.

Import Py Json TextProps StringFacts LineFacts JsonFacts.

Local Open Scope list_scope.

Lemma skip_ws_solid c s : is_ws c = false -> skip_ws (String c s) = String c s.
Proof. intros H. simpl. by rewrite H. Qed.

(** *** Strings *)

Lemma scanstring_escape_char c (X : string) :
  scanstring (escape_char c +:+ X)
  = match scanstring X with
    | Some (t, r) => Some (String c t, r)
    | None => None
    end.
Proof. destruct c as [[] [] [] [] [] [] [] []]; reflexivity. Qed.

Lemma scanstring_escape s rest :
  scanstring (escape s +:+ String DQ rest) = Some (s, rest).
Proof.
  induction s as [|c s IH]; [reflexivity|].
  simpl. rewrite string_app_assoc, scanstring_escape_char. by rewrite IH.
Qed.

Lemma scan_dumps_str s rest :
  exists body, dumps_str s +:+ rest = String DQ body
               /\ scanstring body = Some (s, rest).
Proof.
  exists (escape s +:+ String DQ rest). split; [|apply scanstring_escape].
  unfold dumps_str. rewrite string_app_cons. f_equal.
  by rewrite string_app_assoc.
Qed.

(** *** Integers *)

Lemma string_of_uint_digits d : all_chars is_digit (NilEmpty.string_of_uint d) = true.
Proof. induction d; simpl; auto. Qed.

Lemma span_digits_app (ds rest : string) :
  all_chars is_digit ds = true -> ends_value rest = true ->
  span_digits (ds +:+ rest) = (ds, rest).
Proof.
  intros Hds Hrest. induction ds as [|c ds IH].
  - rewrite string_app_nil_l. destruct rest as [|c r]; [reflexivity|].
    simpl in *. destruct c as [[] [] [] [] [] [] [] []]; try discriminate Hrest;
      reflexivity.
  - simpl in Hds. apply andb_prop in Hds as [Hc Hds].
    rewrite string_app_cons. simpl. by rewrite Hc, (IH Hds).
Qed.

Lemma float_tail_ends rest : ends_value rest = true -> float_tail rest = false.
Proof.
  destruct rest as [|c r]; [reflexivity|]. simpl.
  destruct c as [[] [] [] [] [] [] [] []]; try discriminate; by destruct r.
Qed.

(** The decimal text of a positive number starts with a digit other than
    zero. *)
Lemma to_uint_head p :
  exists c s, NilEmpty.string_of_uint (Pos.to_uint p) = String c s
              /\ is_digit c = true /\ Ascii.eqb c "0" = false.
Proof.
  pose proof (DecimalPos.Unsigned.to_uint_nonzero p) as Hnz.
  pose proof (DecimalPos.Unsigned.to_uint_nonnil p) as Hnn.
  pose proof (DecimalPos.Unsigned.to_of (Pos.to_uint p)) as Hn.
  rewrite DecimalPos.Unsigned.of_to in Hn. simpl in Hn.
  destruct (Pos.to_uint p) as [|u|u|u|u|u|u|u|u|u|u] eqn:Hp;
    try (eexists _, _; split; [reflexivity|]; split; reflexivity).
  - contradiction.
  - exfalso. rewrite DecimalFacts.unorm_D0 in Hn.
    destruct u as [|u'|u'|u'|u'|u'|u'|u'|u'|u'|u'] eqn:Hu;
      [by apply Hnz| | | | | | | | | |];
      (assert (Hne : u <> Decimal.Nil) by (by rewrite Hu);
       pose proof (DecimalFacts.nb_digits_unorm u Hne) as Hle;
       rewrite Hu in Hle; rewrite <- Hn in Hle at 1; simpl in Hle; lia).
Qed.

Lemma scan_nat_pos p rest :
  ends_value rest = true ->
  scan_nat (NilEmpty.string_of_uint (Pos.to_uint p) +:+ rest) = Some (Zpos p, rest).
Proof.
  intros Hrest. destruct (to_uint_head p) as (c & s & Hs & Hd & Hz).
  pose proof (string_of_uint_digits (Pos.to_uint p)) as Hds.
  pose proof (span_digits_app _ _ Hds Hrest) as Hspan.
  pose proof (NilEmpty.usu (Pos.to_uint p)) as Hu.
  rewrite Hs in Hds, Hspan, Hu |- *.
  change (NilEmpty.uint_of_string (String c s))
    with (NilZero.uint_of_string (String c s)) in Hu.
  unfold scan_nat. rewrite string_app_cons, Hz, Hd.
  rewrite <- string_app_cons, Hspan, Hu.
  f_equal. f_equal.
  change (Z.of_uint (Pos.to_uint p)) with (Z.of_int (Z.to_int (Zpos p))).
  apply DecimalZ.of_to.
Qed.

Lemma str_int_cases z :
  (z = 0%Z /\ str_int z = "0")
  \/ (exists p, z = Zpos p /\ str_int z = NilEmpty.string_of_uint (Pos.to_uint p))
  \/ (exists p, z = Zneg p
                /\ str_int z = String "-" (NilEmpty.string_of_uint (Pos.to_uint p))).
Proof.
  destruct z as [|p|p].
  - by left.
  - right. left. exists p. split; [reflexivity|].
    unfold str_int, NilZero.string_of_int, NilZero.string_of_uint. simpl.
    pose proof (DecimalPos.Unsigned.to_uint_nonnil p).
    by destruct (Pos.to_uint p).
  - right. right. exists p. split; [reflexivity|].
    unfold str_int, NilZero.string_of_int, NilZero.string_of_uint. simpl.
    pose proof (DecimalPos.Unsigned.to_uint_nonnil p).
    by destruct (Pos.to_uint p).
Qed.

Lemma scan_int_str_int z rest :
  ends_value rest = true ->
  scan_int (str_int z +:+ rest) = Some (JNum z, rest).
Proof.
  intros Hrest. pose proof (float_tail_ends rest Hrest) as Hft.
  destruct (str_int_cases z) as [[-> ->]|[(p & -> & ->)|(p & -> & ->)]].
  - change ("0" +:+ rest) with (String "0" rest).
    unfold scan_int. simpl. by rewrite Hft.
  - destruct (to_uint_head p) as (c & s & Hs & Hd & Hz).
    unfold scan_int.
    assert (Hm : Ascii.eqb c "-" = false).
    { destruct c as [[] [] [] [] [] [] [] []]; try discriminate Hd; reflexivity. }
    pose proof (scan_nat_pos p rest Hrest) as Hn.
    rewrite Hs in *. rewrite string_app_cons in *. rewrite Hm, Hn. by rewrite Hft.
  - unfold scan_int. rewrite string_app_cons. simpl.
    rewrite (scan_nat_pos p rest Hrest). by rewrite Hft.
Qed.

(** The first character of the text of an integer. *)
Lemma str_int_head z :
  exists c s, str_int z = String c s
              /\ (is_digit c = true \/ c = "-"%char).
Proof.
  destruct (str_int_cases z) as [[-> ->]|[(p & -> & ->)|(p & -> & ->)]].
  - eexists _, _. split; [reflexivity|by left].
  - destruct (to_uint_head p) as (c & s & Hs & Hd & _).
    exists c, s. split; [exact Hs|by left].
  - eexists _, _. split; [reflexivity|by right].
Qed.

(** *** Values *)

Lemma value_start_solid c :
  value_start c = true ->
  is_ws c = false /\ Ascii.eqb c "]" = false /\ Ascii.eqb c "}" = false.
Proof.
  destruct c as [[] [] [] [] [] [] [] []]; intros H;
    try discriminate H; by repeat split.
Qed.

Lemma dumps_head v : exists c s, dumps v = String c s /\ value_start c = true.
Proof.
  destruct v as [|[]|z|s|l|kvs]; try (eexists _, _; split; reflexivity).
  destruct (str_int_head z) as (c & s & Hs & [Hd| ->]).
  - exists c, s. split; [exact Hs|]. unfold value_start. by rewrite Hd.
  - eexists _, _. split; [exact Hs|reflexivity].
Qed.

Lemma skip_ws_dumps v rest : skip_ws (dumps v +:+ rest) = dumps v +:+ rest.
Proof.
  destruct (dumps_head v) as (c & s & -> & Hc).
  rewrite string_app_cons. apply skip_ws_solid. by apply value_start_solid.
Qed.

Lemma size_array l : size (JArr l) = S (size_items l).
Proof. reflexivity. Qed.

Lemma size_object kvs : size (JObj kvs) = S (size_members kvs).
Proof. reflexivity. Qed.

Lemma dumps_array l rest :
  dumps (JArr l) +:+ rest = String "[" (join ", " (List.map dumps l) +:+ String "]" rest).
Proof.
  change (dumps (JArr l)) with ("[" +:+ join ", " (List.map dumps l) +:+ "]").
  by rewrite !string_app_assoc.
Qed.

Lemma dumps_object_text kvs rest :
  dumps (JObj kvs) +:+ rest
  = String "{" (join ", " (List.map member_text kvs) +:+ String "}" rest).
Proof.
  change (dumps (JObj kvs))
    with ("{" +:+ join ", " (List.map member_text kvs) +:+ "}").
  by rewrite !string_app_assoc.
Qed.

Lemma join_cons2 sep x y (l : list string) :
  join sep (x :: y :: l) = x +:+ sep +:+ join sep (y :: l).
Proof. reflexivity. Qed.

(** One step of each reader. *)
Lemma scan_items_step f s :
  scan_items (S f) s
  = match scan_once f s with
    | Some (v, r) =>
        match skip_ws r with
        | String c r' =>
            if Ascii.eqb c "," then
              match scan_items f (skip_ws r') with
              | Some (l, rest) => Some (v :: l, rest)
              | None => None
              end
            else if Ascii.eqb c "]" then Some ([v], r')
            else None
        | EmptyString => None
        end
    | None => None
    end.
Proof. reflexivity. Qed.

Lemma scan_members_step f body :
  scan_members (S f) (String DQ body)
  = match scanstring body with
    | Some (k, r1) =>
        match skip_ws r1 with
        | String c1 r2 =>
            if Ascii.eqb c1 ":" then
              match scan_once f (skip_ws r2) with
              | Some (v, r3) =>
                  match skip_ws r3 with
                  | String c3 r4 =>
                      if Ascii.eqb c3 "}" then Some ([(k, v)], r4)
                      else if Ascii.eqb c3 "," then
                        match scan_members f (skip_ws r4) with
                        | Some (m, rest) => Some ((k, v) :: m, rest)
                        | None => None
                        end
                      else None
                  | EmptyString => None
                  end
              | None => None
              end
            else None
        | EmptyString => None
        end
    | None => None
    end.
Proof. reflexivity. Qed.

Lemma scan_once_array f c s :
  value_start c = true ->
  scan_once (S f) (String "[" (String c s))
  = match scan_items f (String c s) with
    | Some (l, rest) => Some (JArr l, rest)
    | None => None
    end.
Proof.
  intros Hc. destruct (value_start_solid c Hc) as (Hws & Hb & _).
  change (scan_once (S f) (String "[" (String c s)))
    with (match skip_ws (String c s) with
          | String c1 r1 =>
              if Ascii.eqb c1 "]" then Some (JArr [], r1)
              else match scan_items f (String c1 r1) with
                   | Some (l, rest) => Some (JArr l, rest)
                   | None => None
                   end
          | EmptyString => None
          end).
  by rewrite (skip_ws_solid c s Hws), Hb.
Qed.

Lemma scan_once_object f s :
  scan_once (S f) (String "{" (String DQ s))
  = match scan_members f (String DQ s) with
    | Some (m, rest) => Some (JObj (dict_of_pairs m), rest)
    | None => None
    end.
Proof. reflexivity. Qed.

Lemma scan_once_number f c s :
  is_digit c = true \/ c = "-"%char ->
  scan_once (S f) (String c s) = scan_int (String c s).
Proof.
  destruct c as [[] [] [] [] [] [] [] []]; intros [H|H];
    try discriminate H; reflexivity.
Qed.

Lemma distinct_NoDup (l : list string) : distinct l = true -> NoDup l.
Proof.
  induction l as [|k l IH]; simpl; intros H; [apply NoDup_nil_2|].
  apply andb_prop in H as [Hk Hl]. apply NoDup_cons. split; [|by apply IH].
  intros Hin. apply negb_true_iff in Hk.
  assert (existsb (String.eqb k) l = true); [|congruence].
  apply existsb_exists. exists k. split; [by apply list_elem_of_In|apply String.eqb_refl].
Qed.

Lemma dict_of_pairs_distinct kvs :
  distinct (List.map fst kvs) = true -> dict_of_pairs kvs = kvs.
Proof.
  intros Hd. apply distinct_NoDup in Hd. unfold dict_of_pairs.
  assert (H : forall (l d : list (string * json)),
             NoDup ((d ++ l).*1) ->
             fold_left (fun d kv => set d kv.1 kv.2) l d = d ++ l).
  { induction l as [|[k v] l IH]; intros d Hnd; simpl; [by rewrite app_nil_r|].
    unfold set at 2. rewrite dict_set_fresh.
    - rewrite IH; [by rewrite <- app_assoc|]. by rewrite <- app_assoc.
    - rewrite fmap_app in Hnd. apply NoDup_app in Hnd as (_ & Hnd & _).
      intros Hin. apply (Hnd k Hin). simpl. apply elem_of_cons. by left. }
  apply (H kvs []). exact Hd.
Qed.

Lemma scan_items_dumps l :
  Forall reads_back l -> forallb well_formed l = true -> l <> [] ->
  forall fuel rest,
    (size_items l <= fuel)%nat ->
    scan_items fuel (join ", " (List.map dumps l) +:+ String "]" rest) = Some (l, rest).
Proof.
  induction 1 as [|x l Hx Hl IH]; intros Hwf Hne fuel rest Hfuel; [done|].
  simpl in Hwf. apply andb_prop in Hwf as [Hwx Hwl].
  simpl in Hfuel. destruct fuel as [|f]; [lia|].
  rewrite scan_items_step. destruct l as [|y l].
  - simpl. rewrite (Hx Hwx f (String "]" rest)) by (simpl in *; (lia || done)).
    reflexivity.
  - change (List.map dumps (x :: y :: l)) with (dumps x :: List.map dumps (y :: l)).
    change (dumps x :: List.map dumps (y :: l))
      with (dumps x :: dumps y :: List.map dumps l).
    rewrite join_cons2, !string_app_assoc.
    change (", " +:+ join ", " (dumps y :: List.map dumps l) +:+ String "]" rest)
      with (String "," (String " " (join ", " (List.map dumps (y :: l))
                                    +:+ String "]" rest))).
    rewrite (Hx Hwx f) by (simpl in *; (lia || done)).
    cbn [skip_ws is_ws Ascii.eqb Bool.eqb orb andb SP LF CR].
    assert (Hskip : forall t, skip_ws (join ", " (List.map dumps (y :: l)) +:+ t)
                              = join ", " (List.map dumps (y :: l)) +:+ t).
    { intros t. simpl. destruct (List.map dumps l).
      - apply skip_ws_dumps.
      - rewrite string_app_assoc. apply skip_ws_dumps. }
    change (skip_ws (String " " (join ", " (List.map dumps (y :: l)) +:+ String "]" rest)))
      with (skip_ws (join ", " (List.map dumps (y :: l)) +:+ String "]" rest)).
    rewrite Hskip, IH; [reflexivity|exact Hwl|done|simpl in *; lia].
Qed.

Lemma member_text_head kv t : exists s, member_text kv +:+ t = String DQ s.
Proof.
  unfold member_text, dumps_str. rewrite !string_app_cons. by eexists.
Qed.

Lemma scan_members_dumps kvs :
  Forall (fun kv => reads_back kv.2) kvs ->
  forallb (fun kv => well_formed kv.2) kvs = true -> kvs <> [] ->
  forall fuel rest,
    (size_members kvs <= fuel)%nat ->
    scan_members fuel (join ", " (List.map member_text kvs) +:+ String "}" rest)
    = Some (kvs, rest).
Proof.
  induction 1 as [|[k v] kvs Hx Hl IH]; intros Hwf Hne fuel rest Hfuel; [done|].
  simpl in Hwf. apply andb_prop in Hwf as [Hwx Hwl].
  simpl in Hfuel, Hx. destruct fuel as [|f]; [lia|].
  assert (Hmember : forall t,
             member_text (k, v) +:+ t
             = String DQ (escape k +:+ String DQ (String ":" (String " " (dumps v +:+ t))))).
  { intros t. unfold member_text, dumps_str. simpl.
    by rewrite !string_app_cons, !string_app_assoc. }
  assert (Hread : forall t,
             ends_value t = true ->
             scan_members (S f) (member_text (k, v) +:+ t)
             = match skip_ws t with
               | String c3 r4 =>
                   if Ascii.eqb c3 "}" then Some ([(k, v)], r4)
                   else if Ascii.eqb c3 "," then
                     match scan_members f (skip_ws r4) with
                     | Some (m, rest) => Some ((k, v) :: m, rest)
                     | None => None
                     end
                   else None
               | EmptyString => None
               end).
  { intros t Ht. rewrite Hmember, scan_members_step, scanstring_escape.
    cbn [skip_ws is_ws Ascii.eqb Bool.eqb orb andb SP LF CR].
    change (skip_ws (String " " (dumps v +:+ t))) with (skip_ws (dumps v +:+ t)).
    rewrite skip_ws_dumps, (Hx Hwx f t) by (done || lia). reflexivity. }
  destruct kvs as [|[k' v'] kvs].
  - change (join ", " (List.map member_text [(k, v)])) with (member_text (k, v)).
    rewrite Hread by done. reflexivity.
  - change (List.map member_text ((k, v) :: (k', v') :: kvs))
      with (member_text (k, v) :: member_text (k', v') :: List.map member_text kvs).
    rewrite join_cons2, !string_app_assoc.
    change (", " +:+ join ", " (member_text (k', v') :: List.map member_text kvs)
            +:+ String "}" rest)
      with (String "," (String " " (join ", " (List.map member_text ((k', v') :: kvs))
                                    +:+ String "}" rest))).
    rewrite Hread by done.
    cbn [skip_ws is_ws Ascii.eqb Bool.eqb orb andb SP LF CR].
    assert (Hskip : forall t, skip_ws (join ", " (List.map member_text ((k', v') :: kvs)) +:+ t)
                              = join ", " (List.map member_text ((k', v') :: kvs)) +:+ t).
    { intros t.
      change (List.map member_text ((k', v') :: kvs))
        with (member_text (k', v') :: List.map member_text kvs).
      destruct (List.map member_text kvs) as [|m ms].
      - change (join ", " [member_text (k', v')]) with (member_text (k', v')).
        destruct (member_text_head (k', v') t) as [s ->]. by apply skip_ws_solid.
      - rewrite join_cons2, string_app_assoc.
        destruct (member_text_head (k', v') ((", " +:+ join ", " (m :: ms)) +:+ t))
          as [s ->].
        by apply skip_ws_solid. }
    change (skip_ws (String " " (join ", " (List.map member_text ((k', v') :: kvs))
                                 +:+ String "}" rest)))
      with (skip_ws (join ", " (List.map member_text ((k', v') :: kvs)) +:+ String "}" rest)).
    rewrite Hskip, IH; [reflexivity|exact Hwl|done|simpl in *; lia].
Qed.

Lemma items_head l t :
  l <> [] ->
  exists c s, join ", " (List.map dumps l) +:+ t = String c s /\ value_start c = true.
Proof.
  destruct l as [|x l]; [done|]. intros _.
  destruct (dumps_head x) as (c & s & Hs & Hc).
  change (List.map dumps (x :: l)) with (dumps x :: List.map dumps l).
  destruct (List.map dumps l) as [|m ms].
  - change (join ", " [dumps x]) with (dumps x). rewrite Hs, string_app_cons. eauto.
  - rewrite join_cons2, string_app_assoc, Hs, string_app_cons. eauto.
Qed.

Lemma members_head kvs t :
  kvs <> [] ->
  exists s, join ", " (List.map member_text kvs) +:+ t = String DQ s.
Proof.
  destruct kvs as [|kv kvs]; [done|]. intros _.
  change (List.map member_text (kv :: kvs))
    with (member_text kv :: List.map member_text kvs).
  destruct (List.map member_text kvs) as [|m ms].
  - change (join ", " [member_text kv]) with (member_text kv).
    apply member_text_head.
  - rewrite join_cons2, string_app_assoc. apply member_text_head.
Qed.

Lemma scan_once_dumps v : reads_back v.
Proof.
  induction v as [|b|z|s|l IH|kvs IH] using json_nested_ind;
    intros Hwf fuel rest Hfuel Hrest.
  - destruct fuel as [|f]; [simpl in Hfuel; lia|]. reflexivity.
  - destruct fuel as [|f]; [simpl in Hfuel; lia|]. by destruct b.
  - destruct fuel as [|f]; [simpl in Hfuel; lia|].
    destruct (str_int_head z) as (c & s & Hs & Hc).
    pose proof (scan_int_str_int z rest Hrest) as Hi.
    change (dumps (JNum z)) with (str_int z).
    rewrite Hs in Hi |- *. rewrite string_app_cons in Hi |- *.
    by rewrite scan_once_number.
  - destruct fuel as [|f]; [simpl in Hfuel; lia|].
    change (dumps (JStr s)) with (dumps_str s).
    destruct (scan_dumps_str s rest) as (body & -> & Hb).
    change (scan_once (S f) (String DQ body))
      with (match scanstring body with
            | Some (t, r) => Some (JStr t, r)
            | None => None
            end).
    by rewrite Hb.
  - rewrite size_array in Hfuel. destruct fuel as [|f]; [lia|].
    rewrite dumps_array. destruct l as [|x l]; [reflexivity|].
    pose proof (scan_items_dumps (x :: l) IH Hwf ltac:(done) f rest
                  ltac:(lia)) as Hitems.
    destruct (items_head (x :: l) (String "]" rest) ltac:(done)) as (c & s & Hs & Hc).
    rewrite Hs in Hitems |- *. rewrite scan_once_array by exact Hc.
    by rewrite Hitems.
  - rewrite size_object in Hfuel. destruct fuel as [|f]; [lia|].
    rewrite dumps_object_text. destruct kvs as [|kv kvs]; [reflexivity|].
    simpl in Hwf. apply andb_prop in Hwf as [Hd Hwf].
    pose proof (scan_members_dumps (kv :: kvs) IH Hwf ltac:(done) f rest
                  ltac:(lia)) as Hmem.
    destruct (members_head (kv :: kvs) (String "}" rest) ltac:(done)) as (s & Hs).
    rewrite Hs in Hmem |- *. rewrite scan_once_object, Hmem.
    by rewrite (dict_of_pairs_distinct (kv :: kvs)).
Qed.

(** *** The fuel of [loads] is enough *)

Lemma string_length_app (s1 s2 : string) :
  String.length (s1 +:+ s2) = (String.length s1 + String.length s2)%nat.
Proof.
  induction s1 as [|c s1 IH]; [reflexivity|].
  rewrite string_app_cons. simpl. by rewrite IH.
Qed.

Lemma dumps_length_pos v : (1 <= String.length (dumps v))%nat.
Proof. destruct (dumps_head v) as (c & s & -> & _). simpl. lia. Qed.

Lemma size_le_text v : (size v <= 2 * String.length (dumps v))%nat.
Proof.
  induction v as [|b|z|s|l IH|kvs IH] using json_nested_ind.
  - pose proof (dumps_length_pos JNull). simpl size. lia.
  - pose proof (dumps_length_pos (JBool b)). simpl size. lia.
  - pose proof (dumps_length_pos (JNum z)). simpl size. lia.
  - pose proof (dumps_length_pos (JStr s)). simpl size. lia.
  - rewrite size_array.
    change (dumps (JArr l)) with ("[" +:+ join ", " (List.map dumps l) +:+ "]").
    rewrite !string_length_app. simpl String.length.
    assert (H : (size_items l <= 2 * String.length (join ", " (List.map dumps l)) + 1)%nat);
      [|lia].
    induction IH as [|x l Hx _ IHl]; [simpl; lia|].
    change (List.map dumps (x :: l)) with (dumps x :: List.map dumps l).
    simpl size_items. fold (size_items l).
    destruct l as [|y l].
    + simpl. lia.
    + change (List.map dumps (y :: l)) with (dumps y :: List.map dumps l) in *.
      rewrite join_cons2, !string_length_app.
      change (String.length ", ") with 2%nat. lia.
  - rewrite size_object.
    change (dumps (JObj kvs))
      with ("{" +:+ join ", " (List.map member_text kvs) +:+ "}").
    rewrite !string_length_app. simpl String.length.
    assert (H : (size_members kvs
                 <= 2 * String.length (join ", " (List.map member_text kvs)) + 1)%nat);
      [|lia].
    assert (Hm : forall kv, (size kv.2 <= 2 * String.length (dumps kv.2))%nat ->
                            (size kv.2 <= 2 * String.length (member_text kv))%nat).
    { intros kv H. unfold member_text. rewrite !string_length_app. lia. }
    induction IH as [|kv kvs Hx _ IHl]; [simpl; lia|].
    change (List.map member_text (kv :: kvs))
      with (member_text kv :: List.map member_text kvs).
    simpl size_members. fold (size_members kvs).
    apply Hm in Hx.
    destruct kvs as [|kv' kvs].
    + change (join ", " (member_text kv :: List.map member_text []))
        with (member_text kv).
      change (size_members []) with 0%nat. lia.
    + change (List.map member_text (kv' :: kvs))
        with (member_text kv' :: List.map member_text kvs) in *.
      rewrite join_cons2, !string_length_app.
      change (String.length ", ") with 2%nat. lia.
Qed.

(** A decoded value survives [json.loads (json.dumps v)]. *)
Lemma loads_dumps v : well_formed v = true -> loads (dumps v) = Ok v.
Proof.
  intros Hwf. unfold loads.
  pose proof (skip_ws_dumps v EmptyString) as Hskip.
  pose proof (scan_once_dumps v Hwf (2 * String.length (dumps v) + 2)%nat EmptyString)
    as Hscan.
  rewrite string_app_nil_r in Hskip, Hscan.
  rewrite Hskip, Hscan; [reflexivity| |reflexivity].
  pose proof (size_le_text v). lia.
Qed.

End RoundtripFacts.

(** ** Recovery: replaying the participant's WAL *)

Module RecoveryFacts.

Import Py Json Participant TextProps RecoveryProps StringFacts LineFacts JsonFacts
  RoundtripFacts ParticipantProps ParticipantFacts.

Local Open Scope list_scope.

Lemma ends_with_app q (s1 s2 : string) : ends_with q s2 -> ends_with q (s1 +:+ s2).
Proof.
  intros (s & z & -> & Hz). exists (s1 +:+ s), z.
  split; [by rewrite string_app_assoc|exact Hz].
Qed.

Lemma ends_with_impl (q q' : ascii -> bool) l :
  (forall c, q c = true -> q' c = true) -> ends_with q l -> ends_with q' l.
Proof. intros Hq (s & z & -> & Hz). exists s, z. auto. Qed.

Lemma token_starts_solid (t rest : string) :
  is_token t = true -> starts_solid (t +:+ rest).
Proof.
  destruct t as [|c t]; [discriminate|]. simpl. intros H.
  apply andb_prop in H as [Hc _]. apply negb_true_iff in Hc.
  exists c, (t +:+ rest). by rewrite string_app_cons.
Qed.

Lemma strip_line l :
  starts_solid l -> ends_with (fun c => negb (is_space c)) l ->
  strip (l +:+ chr LF) = l.
Proof.
  intros (c & s & -> & Hc) (s' & z & Heq & Hz). apply negb_true_iff in Hz.
  unfold strip. rewrite string_app_cons, lstrip_solid by exact Hc.
  rewrite <- string_app_cons, Heq, string_app_assoc.
  unfold rstrip. by apply rstrip_by_solid.
Qed.

Lemma rstrip_nl_line l :
  ends_with printable l -> rstrip_nl l = l.
Proof.
  intros (s & z & -> & Hz). apply rstrip_nl_record. by apply printable_not_LF.
Qed.

Lemma token_no_SP t :
  is_token t = true -> all_chars (fun c => negb (Ascii.eqb c SP)) t = true.
Proof.
  destruct t as [|c t]; [discriminate|]. unfold is_token.
  apply all_chars_impl. apply solid_not_SP.
Qed.

Lemma token_line_chars t : is_token t = true -> all_chars line_char t = true.
Proof.
  destruct t as [|c t]; [discriminate|]. unfold is_token.
  apply all_chars_impl. apply solid_line_char.
Qed.

Lemma printable_not_space_end l :
  ends_with (fun c => printable c && negb (Ascii.eqb c SP)) l ->
  ends_with (fun c => negb (is_space c)) l /\ ends_with printable l.
Proof.
  intros H. split; eapply ends_with_impl; try exact H; clear H.
  - intros c. destruct c as [[] [] [] [] [] [] [] []]; vm_compute; intros H;
      (reflexivity || discriminate H).
  - intros c H. by apply andb_prop in H as [H _].
Qed.

Lemma word_of_literal (s : string) z :
  all_chars (fun c => negb (Ascii.eqb c SP)) (s +:+ chr z) = true ->
  all_chars printable (s +:+ chr z) = true ->
  is_word (s +:+ chr z).
Proof.
  intros Hsp Hpr. split; [exact Hsp|]. split.
  - eapply all_chars_impl; [apply printable_line_char|exact Hpr].
  - exists s, z. split; [reflexivity|].
    rewrite all_chars_app in Hsp, Hpr. simpl in Hsp, Hpr.
    apply andb_prop in Hsp as [_ Hsp]. apply andb_prop in Hpr as [_ Hpr].
    rewrite andb_true_r in Hsp, Hpr. by rewrite Hsp, Hpr.
Qed.

Lemma word_PREPARE : is_word "PREPARE".
Proof. by apply (word_of_literal "PREPAR" "E"). Qed.
Lemma word_CAN_COMMIT : is_word "CAN_COMMIT".
Proof. by apply (word_of_literal "CAN_COMMI" "T"). Qed.
Lemma word_PRECOMMIT : is_word "PRECOMMIT".
Proof. by apply (word_of_literal "PRECOMMI" "T"). Qed.
Lemma word_COMMIT : is_word "COMMIT".
Proof. by apply (word_of_literal "COMMI" "T"). Qed.
Lemma word_ABORT : is_word "ABORT".
Proof. by apply (word_of_literal "ABOR" "T"). Qed.
Lemma word_vote valid : is_word (vote_of valid).
Proof.
  destruct valid; [by apply (word_of_literal "YE" "S")|by apply (word_of_literal "N" "O")].
Qed.

Lemma dumps_object_end kvs :
  ends_with (fun c => printable c && negb (Ascii.eqb c SP)) (dumps (JObj kvs)).
Proof.
  destruct (dumps_object kvs) as (inner & -> & _).
  exists (String "{" inner), "}"%char. by split.
Qed.

(** What [wal_replay] reads back from a record. *)
Lemma plain_line_fields t cmd :
  is_token t = true -> is_word cmd ->
  rstrip_nl (plain_line t cmd) = plain_line t cmd
  /\ all_chars line_char (plain_line t cmd) = true
  /\ split SP (strip (plain_line t cmd +:+ chr LF)) 2 = [t; cmd].
Proof.
  intros Ht (Hsp & Hlc & Hend). unfold plain_line.
  destruct (printable_not_space_end _ Hend) as [Hsolid Hpr].
  split; [|split].
  - apply rstrip_nl_line. apply ends_with_app.
    destruct Hpr as (s & z & -> & Hz). exists (String SP s), z. by rewrite string_app_cons.
  - rewrite all_chars_app. simpl. by rewrite token_line_chars, Hlc.
  - rewrite strip_line.
    + rewrite split_head by (by apply token_no_SP).
      destruct Hsolid as (s & z & -> & _).
      clear Hlc Hend Hpr. revert Hsp. generalize (s +:+ chr z) as w. intros w Hsp.
      assert (Hw : forall n, split SP w n = [w]).
      { induction w as [|c w IH]; intros n; [by destruct n|].
        simpl in Hsp. apply andb_prop in Hsp as [Hc Hw]. apply negb_true_iff in Hc.
        destruct n; [reflexivity|]. simpl. by rewrite Hc, (IH Hw). }
      by rewrite Hw.
    + by apply token_starts_solid.
    + apply ends_with_app.
      destruct Hsolid as (s & z & -> & Hz). exists (String SP s), z.
      by rewrite string_app_cons.
Qed.

Lemma vote_line_fields t cmd vote kvs :
  is_token t = true -> is_word cmd -> is_word vote ->
  let l := vote_line t cmd vote (JObj kvs) in
  rstrip_nl l = l
  /\ all_chars line_char l = true
  /\ split SP (strip (l +:+ chr LF)) 2 = [t; cmd; vote +:+ String SP (dumps (JObj kvs))]
  /\ split SP (vote +:+ String SP (dumps (JObj kvs))) 1 = [vote; dumps (JObj kvs)].
Proof.
  intros Ht (Hsp & Hlc & _) (Hvsp & Hvlc & _). cbv zeta. unfold vote_line.
  pose proof (dumps_printable (JObj kvs)) as Hdp.
  pose proof (dumps_object_end kvs) as Hde.
  revert Hdp Hde. generalize (dumps (JObj kvs)) as d. intros d Hdp Hde.
  destruct (printable_not_space_end _ Hde) as [Hsolid Hpr].
  assert (Hend : forall q, ends_with q d ->
                           ends_with q (t +:+ String SP (cmd +:+ String SP
                                          (vote +:+ String SP d)))).
  { intros q (s & z & -> & Hz).
    exists (t +:+ String SP (cmd +:+ String SP (vote +:+ String SP s))), z.
    split; [|exact Hz].
    by rewrite !string_app_assoc, !string_app_cons, !string_app_assoc,
         !string_app_cons, !string_app_assoc, !string_app_cons. }
  split; [|split; [|split]].
  - apply rstrip_nl_line. by apply Hend.
  - rewrite all_chars_app. simpl. rewrite all_chars_app. simpl.
    rewrite all_chars_app. simpl.
    rewrite token_line_chars, Hlc, Hvlc by done. simpl.
    eapply all_chars_impl; [apply printable_line_char|exact Hdp].
  - rewrite strip_line; [|by apply token_starts_solid|by apply Hend].
    rewrite split_head by (by apply token_no_SP).
    rewrite split_head by exact Hsp. by rewrite split_zero.
  - rewrite split_head by exact Hvsp. by rewrite split_zero.
Qed.

(** The lines that the endpoints write. *)
Lemma prepare_line_shape (t vote : string) o :
  (t ++ " PREPARE " ++ vote ++ " " ++ dumps o)%string = vote_line t "PREPARE" vote o.
Proof. reflexivity. Qed.

Lemma can_commit_line_shape (t vote : string) o :
  (t ++ " CAN_COMMIT " ++ vote ++ " " ++ dumps o)%string
  = vote_line t "CAN_COMMIT" vote o.
Proof. reflexivity. Qed.

(** *** One record, read back *)

Lemma replay_vote_line now t cmd valid kvs store tx :
  is_token t = true ->
  cmd = "PREPARE" \/ cmd = "CAN_COMMIT" ->
  loads (dumps (JObj kvs)) = Ok (JObj kvs) ->
  replay_line now (vote_line t cmd (vote_of valid) (JObj kvs) +:+ chr LF) (store, tx)
  = Ok (store,
        <[t := {| state := if valid then READY else ABORTED;
                  op := JObj kvs; ts := Some now |}]> tx).
Proof.
  intros Ht Hcmd Hload.
  assert (Hw : is_word cmd).
  { destruct Hcmd as [-> | ->]; [apply word_PREPARE|apply word_CAN_COMMIT]. }
  destruct (vote_line_fields t cmd (vote_of valid) kvs Ht Hw (word_vote valid))
    as (_ & _ & Hfields & Hargs).
  unfold replay_line. rewrite Hfields.
  assert (Hc : String.eqb cmd "PREPARE" || String.eqb cmd "CAN_COMMIT" = true).
  { by destruct Hcmd as [-> | ->]. }
  rewrite Hc, Hargs, Hload. unfold bind.
  by destruct valid.
Qed.

Lemma replay_plain_line now t cmd (tabs : gmap string string * gmap string txrec) :
  is_token t = true -> is_word cmd ->
  String.eqb cmd "PREPARE" || String.eqb cmd "CAN_COMMIT" = false ->
  replay_line now (plain_line t cmd +:+ chr LF) tabs
  = if String.eqb cmd "PRECOMMIT" then
      match tabs.2 !! t with
      | None => Raise KeyError
      | Some rec => Ok (tabs.1, <[t := set_state rec PRECOMMIT]> tabs.2)
      end
    else if String.eqb cmd "COMMIT" then
      match tabs.2 !! t with
      | None => Raise KeyError
      | Some rec =>
          let* store' := apply_op (op rec) tabs.1 in
          Ok (store', <[t := set_state rec COMMITTED]> tabs.2)
      end
    else if String.eqb cmd "ABORT" then
      Ok (tabs.1, <[t := {| state := ABORTED; op := JNull; ts := None |}]> tabs.2)
    else Ok tabs.
Proof.
  intros Ht Hw Hc.
  destruct (plain_line_fields t cmd Ht Hw) as (_ & _ & Hfields).
  unfold replay_line. destruct tabs as [store tx]. by rewrite Hfields, Hc.
Qed.

(** *** The tables rebuilt by the replay and the tables in memory *)

Lemma validate_op_object o valid :
  validate_op o = Ok valid -> exists kvs, o = JObj kvs.
Proof. destruct o; try discriminate. intros _. by eexists. Qed.

Lemma similar_lookup tabs st t rec :
  similar tabs st -> TX st !! t = Some rec ->
  exists rec', tabs.2 !! t = Some rec' /\ op rec' = op rec /\ state rec' = state rec.
Proof.
  intros [_ Htx] Hr.
  apply (f_equal (fun m => m !! t)) in Htx. rewrite !lookup_fmap, Hr in Htx.
  destruct (tabs.2 !! t) as [rec'|]; [|discriminate]. simpl in Htx.
  injection Htx as Hs Ho. by exists rec'.
Qed.

Lemma wal_append_file cfg line st lines :
  truthy (WAL_PATH cfg) = true ->
  rstrip_nl line = line ->
  default EmptyString (wal st) = file_of lines ->
  default EmptyString (wal (wal_append cfg line st).1) = file_of (lines ++ [line]).
Proof.
  intros Hw Hl Hf. unfold wal_append. rewrite Hw. simpl.
  rewrite Hl, Hf, file_of_app. simpl. by rewrite string_app_nil_r.
Qed.

(** What serving one request adds to the WAL is read back as the same
    change of the tables. *)
Lemma serve_step cfg r st lines tabs now' :
  truthy (WAL_PATH cfg) = true ->
  replayable r ->
  default EmptyString (wal st) = file_of lines ->
  similar tabs st ->
  serve cfg st r = st
  \/ exists line tabs',
       default EmptyString (wal (serve cfg st r)) = file_of (lines ++ [line])
       /\ all_chars line_char line = true
       /\ replay_line now' (line +:+ chr LF) tabs = Ok tabs'
       /\ similar tabs' (serve cfg st r).
Proof.
  intros Hw (Ht & Hload & Hcan) Hf Hsim. unfold serve.
  destruct r as [now path b]. destruct tabs as [store tx].
  cbn [req_time req_path req_body] in *.
  pose proof Hsim as [Hkv Htx]. simpl in Hkv, Htx.
  by_path path.
  - rewrite do_POST_prepare.
    destruct (body_op b) as [o|] eqn:Ho; [|by left].
    destruct (validate_op o) as [valid|ex] eqn:Hv; [|by left].
    destruct (validate_op_object o valid Hv) as [kvs ->].
    right. rewrite prepare_line_shape. unfold replied. cbn [out_state fst].
    destruct (vote_line_fields (body_txid b) "PREPARE" (vote_of valid) kvs Ht
                word_PREPARE (word_vote valid)) as (Hr & Hlc & _).
    eexists _, _. split; [by apply wal_append_file|]. split; [exact Hlc|].
    split; [apply replay_vote_line; auto using loads_dumps|].
    split; simpl; [by rewrite wal_append_kv|].
    rewrite wal_append_TX. simpl. by rewrite !fmap_insert, Htx.
  - rewrite do_POST_commit.
    destruct (TX st !! body_txid b) as [rec|] eqn:Hr; [|by left].
    destruct (apply_op (op rec) (kv st)) as [store'|ex] eqn:Ha; [|by left].
    right. unfold replied. cbn [out_state fst].
    destruct (plain_line_fields (body_txid b) "COMMIT" Ht word_COMMIT) as (Hrs & Hlc & _).
    destruct (similar_lookup _ _ _ _ Hsim Hr) as (rec' & Hr' & Hop & Hst).
    simpl in Hr'.
    eexists _, _. split; [by apply (wal_append_file _ (plain_line _ "COMMIT"))|].
    split; [exact Hlc|].
    split.
    { rewrite (replay_plain_line _ _ "COMMIT") by (auto using word_COMMIT).
      simpl. rewrite Hr', Hop, Hkv, Ha. reflexivity. }
    split; simpl; [by rewrite wal_append_kv|].
    rewrite wal_append_TX. simpl.
    rewrite !fmap_insert, Htx. f_equal. unfold forget_ts. simpl. by rewrite Hop.
  - rewrite do_POST_abort. right. unfold replied. cbn [out_state fst].
    destruct (plain_line_fields (body_txid b) "ABORT" Ht word_ABORT) as (Hrs & Hlc & _).
    eexists _, _. split; [by apply (wal_append_file _ (plain_line _ "ABORT"))|].
    split; [exact Hlc|].
    split; [by rewrite (replay_plain_line _ _ "ABORT") by (auto using word_ABORT)|].
    split; simpl; [by rewrite wal_append_kv|].
    rewrite wal_append_TX. simpl. by rewrite !fmap_insert, Htx.
  - rewrite do_POST_can_commit.
    destruct (body_op b) as [o|] eqn:Ho; [|by left].
    destruct (validate_op o) as [valid|ex] eqn:Hv; [|by left].
    destruct valid; [|exfalso; by apply (Hcan eq_refl o)].
    destruct (validate_op_object o true Hv) as [kvs ->].
    right. rewrite can_commit_line_shape. unfold replied. cbn [out_state fst].
    destruct (vote_line_fields (body_txid b) "CAN_COMMIT" (vote_of true) kvs Ht
                word_CAN_COMMIT (word_vote true)) as (Hr & Hlc & _).
    eexists _, _. split; [by apply wal_append_file|]. split; [exact Hlc|].
    split; [apply (replay_vote_line _ _ "CAN_COMMIT" true); auto using loads_dumps|].
    split; simpl; [by rewrite wal_append_kv|].
    rewrite wal_append_TX. simpl. by rewrite !fmap_insert, Htx.
  - rewrite do_POST_precommit.
    destruct (TX st !! body_txid b) as [rec|] eqn:Hr; [|by left].
    right. unfold replied. cbn [out_state fst].
    destruct (plain_line_fields (body_txid b) "PRECOMMIT" Ht word_PRECOMMIT)
      as (Hrs & Hlc & _).
    destruct (similar_lookup _ _ _ _ Hsim Hr) as (rec' & Hr' & Hop & Hst).
    simpl in Hr'.
    eexists _, _. split; [by apply (wal_append_file _ (plain_line _ "PRECOMMIT"))|].
    split; [exact Hlc|].
    split.
    { rewrite (replay_plain_line _ _ "PRECOMMIT") by (auto using word_PRECOMMIT).
      simpl. rewrite Hr'. reflexivity. }
    split; simpl; [by rewrite wal_append_kv|].
    rewrite wal_append_TX. simpl.
    rewrite !fmap_insert, Htx. f_equal. unfold forget_ts. simpl. by rewrite Hop.
  - left. assert (Hn : ~ endpoint path) by (unfold endpoint; tauto).
    by rewrite (do_POST_other _ _ _ _ _ Hn).
Qed.

Lemma replay_lines_snoc clock ls l : forall i tabs,
  replay_lines clock i (ls ++ [l]) tabs
  = let* tabs' := replay_lines clock i ls tabs in
    replay_line (clock (i + length ls)%nat) l tabs'.
Proof.
  induction ls as [|l0 ls IH]; intros i tabs; simpl.
  - rewrite Nat.add_0_r. by destruct (replay_line (clock i) l tabs).
  - destruct (replay_line (clock i) l0 tabs) as [tabs1|ex]; simpl; [|reflexivity].
    rewrite IH. by replace (S i + length ls)%nat with (i + S (length ls))%nat by lia.
Qed.

(** The WAL of a run is read back as the tables of the run. *)
Lemma serve_all_replay cfg clock reqs : forall st lines tabs,
  truthy (WAL_PATH cfg) = true ->
  Forall replayable reqs ->
  default EmptyString (wal st) = file_of lines ->
  Forall (fun l => all_chars line_char l = true) lines ->
  replay_lines clock 0 ((fun l => l +:+ chr LF) <$> lines) (∅, ∅) = Ok tabs ->
  similar tabs st ->
  exists lines' tabs',
    default EmptyString (wal (serve_all cfg st reqs)) = file_of lines'
    /\ Forall (fun l => all_chars line_char l = true) lines'
    /\ replay_lines clock 0 ((fun l => l +:+ chr LF) <$> lines') (∅, ∅) = Ok tabs'
    /\ similar tabs' (serve_all cfg st reqs).
Proof.
  induction reqs as [|r reqs IH]; intros st lines tabs Hw Hreqs Hf Hlc Hrep Hsim.
  - by exists lines, tabs.
  - apply Forall_cons in Hreqs as [Hr Hreqs]. simpl.
    destruct (serve_step cfg r st lines tabs
                (clock (0 + length ((fun l => l +:+ chr LF) <$> lines))%nat)
                Hw Hr Hf Hsim)
      as [->|(line & tabs1 & Hf1 & Hl1 & Hrep1 & Hsim1)].
    + by apply (IH st lines tabs).
    + apply (IH _ (lines ++ [line]) tabs1); try done.
      * apply Forall_app. split; [exact Hlc|]. by constructor.
      * rewrite fmap_app. simpl. by rewrite replay_lines_snoc, Hrep.
Qed.

(** C8, amended. On a participant with a WAL path, started with empty
    tables and no WAL file, take any sequence of requests whose txids are
    non-empty and free of whitespace, whose operations are decoded JSON
    values, and none of which is a [/can_commit] of an operation that fails
    validation.  Replaying the WAL in append order
    rebuilds the key-value store and, up to the clock reading [ts] of each
    record, the transaction table that the participant held when the last
    record was appended.  The op-json of a [PREPARE] or [CAN_COMMIT] record
    is what follows the third space of the line, so the spaces inside the
    JSON text do no harm, and a [COMMIT] record applies the recorded
    operation again. *)
Theorem replay_rebuilds_state cfg clock :
  truthy (WAL_PATH cfg) = true ->
  (forall reqs, Forall replayable reqs -> recovers cfg clock reqs)
  /\ (forall now t cmd valid kvs store tx,
         is_token t = true -> cmd = "PREPARE" \/ cmd = "CAN_COMMIT" ->
         well_formed (JObj kvs) = true ->
         replay_line now
           (t +:+ " " +:+ cmd +:+ " " +:+ vote_of valid +:+ " " +:+ dumps (JObj kvs)
            +:+ chr LF) (store, tx)
         = Ok (store,
               <[t := {| state := if valid then READY else ABORTED;
                         op := JObj kvs; ts := Some now |}]> tx))
  /\ (forall now t store tx,
         is_token t = true ->
         replay_line now (t +:+ " COMMIT" +:+ chr LF) (store, tx)
         = match tx !! t with
           | None => Raise KeyError
           | Some rec =>
               let* store' := apply_op (op rec) store in
               Ok (store', <[t := set_state rec COMMITTED]> tx)
           end).
Proof.
  intros Hw. split; [|split].
  - intros reqs Hreqs. unfold recovers. cbv zeta.
    destruct (serve_all_replay cfg clock reqs (initial None) [] (∅, ∅) Hw Hreqs)
      as (lines & tabs & Hf & Hlc & Hrep & Hkv & Htx); try done.
    unfold wal_replay. rewrite Hw. simpl.
    destruct (wal (serve_all cfg (initial None) reqs)) as [content|] eqn:Hwal.
    + simpl in Hf. subst content. rewrite (readlines_file lines Hlc), Hrep. simpl.
      eexists. split; [reflexivity|]. by split.
    + simpl in Hf. symmetry in Hf. apply file_of_nil_inv in Hf. subst lines.
      simpl in Hrep. injection Hrep as <-.
      eexists. split; [reflexivity|]. by split.
  - intros now t cmd valid kvs store tx Ht Hcmd Hwf.
    rewrite <- (replay_vote_line now t cmd valid kvs store tx Ht Hcmd
                  (loads_dumps _ Hwf)).
    f_equal. unfold vote_line.
    repeat first [rewrite string_app_assoc|rewrite string_app_cons]. reflexivity.
  - intros now t store tx Ht.
    change (t +:+ " COMMIT" +:+ chr LF) with (t +:+ String SP ("COMMIT" +:+ chr LF)).
    replace (t +:+ String SP ("COMMIT" +:+ chr LF))
      with (plain_line t "COMMIT" +:+ chr LF)
      by (unfold plain_line; by rewrite string_app_assoc).
    by rewrite (replay_plain_line _ _ "COMMIT") by (auto using word_COMMIT).
Qed.

(** The record of a txid with a space is not read back: the second field
    of its line is not a command, and the replay skips the line. *)
Lemma spaced_txid_not_recovered :
  ~ recovers Samples.cfg_wal (fun _ => 0%Z) [Samples.spaced_request].
Proof.
  intros (st' & Hrep & _ & Htx).
  vm_compute in Hrep. injection Hrep as <-.
  apply (f_equal (fun m => m !! "a b")) in Htx.
  vm_compute in Htx. discriminate Htx.
Qed.

Lemma sample_requests_replayable : Forall replayable Samples.sample_requests.
Proof.
  repeat constructor; simpl; try discriminate;
    intros o Ho; injection Ho as <-; reflexivity.
Qed.

Lemma replay_rebuilds_state_witness :
  truthy (WAL_PATH Samples.cfg_wal) = true
  /\ recovers Samples.cfg_wal (fun i => 50 + Z.of_nat i)%Z Samples.sample_requests.
Proof.
  split; [reflexivity|].
  apply (replay_rebuilds_state Samples.cfg_wal (fun i => 50 + Z.of_nat i)%Z eq_refl).
  exact sample_requests_replayable.
Defined.

Example sample_requests_wal :
  wal (serve_all Samples.cfg_wal (initial None) Samples.sample_requests)
  = Some (file_of
            [ vote_line "t1" "PREPARE" "YES" Samples.op_set;
              "t1 COMMIT";
              vote_line "t2" "PREPARE" "NO" Samples.op_del;
              "t2 ABORT" ]).
Proof. vm_compute. reflexivity. Qed.

End RecoveryFacts.

(** ** More about the participant's handler *)

Module HandlerFacts.

Import Py Json Participant Samples ParticipantProps ParticipantFacts.

Local Open Scope list_scope.

Lemma validate_op_type kvs :
  validate_op (JObj kvs) = Ok true ->
  exists t, lookup kvs "type" = Some (JStr t) /\ String.eqb (upper t) "SET" = true.
Proof.
  unfold validate_op. destruct (lookup kvs "type") as [[]|] eqn:Ht; simpl; try discriminate.
  intros [= H]. eauto.
Qed.

(** The tables after the requests that change the record of a txid. *)
Lemma prepare_tables cfg now txid o valid st :
  validate_op o = Ok valid ->
  TX (out_state (do_POST cfg now "/prepare" (with_op txid o) st))
  = <[txid := {| state := if valid then READY else ABORTED; op := o; ts := Some now |}]>
      (TX st).
Proof.
  intros Hv. rewrite do_POST_prepare. cbn [with_op body_op body_txid]. rewrite Hv.
  unfold replied; cbn [out_state fst]. by wal_simpl.
Qed.

Lemma can_commit_tables cfg now txid o valid st :
  validate_op o = Ok valid ->
  TX (out_state (do_POST cfg now "/can_commit" (with_op txid o) st))
  = <[txid := {| state := READY; op := o; ts := Some now |}]> (TX st).
Proof.
  intros Hv. rewrite do_POST_can_commit. cbn [with_op body_op body_txid]. rewrite Hv.
  unfold replied; cbn [out_state fst]. by wal_simpl.
Qed.

Lemma can_commit_kv cfg now txid o valid st :
  validate_op o = Ok valid ->
  kv (out_state (do_POST cfg now "/can_commit" (with_op txid o) st)) = kv st.
Proof.
  intros Hv. rewrite do_POST_can_commit. cbn [with_op body_op body_txid]. rewrite Hv.
  unfold replied; cbn [out_state fst]. by wal_simpl.
Qed.

Lemma prepare_kv cfg now txid o valid st :
  validate_op o = Ok valid ->
  kv (out_state (do_POST cfg now "/prepare" (with_op txid o) st)) = kv st.
Proof.
  intros Hv. rewrite do_POST_prepare. cbn [with_op body_op body_txid]. rewrite Hv.
  unfold replied; cbn [out_state fst]. by wal_simpl.
Qed.

Lemma precommit_tables cfg now txid b st rec :
  TX st !! txid = Some rec ->
  let st' := out_state (do_POST cfg now "/precommit"
                          {| body_txid := txid; body_op := b |} st) in
  TX st' = <[txid := set_state rec PRECOMMIT]> (TX st) /\ kv st' = kv st.
Proof.
  intros Hrec. cbv zeta. rewrite do_POST_precommit. cbn [body_txid]. rewrite Hrec.
  unfold replied; cbn [out_state fst]. by wal_simpl.
Qed.

(** X1: a prepared [SET] is applied by the commit.  After [/prepare] (or
    [/can_commit] and [/precommit]) of an operation that votes YES and has a
    key and a value, [/commit] replies 200, stores [str(value)] under
    [str(key)] and leaves the record [COMMITTED]. *)
Theorem commit_applies_prepared_set cfg t1 t2 t3 txid kvs k v st :
  validate_op (JObj kvs) = Ok true ->
  lookup kvs "key" = Some k -> lookup kvs "value" = Some v ->
  let two := out_state (do_POST cfg t1 "/prepare" (with_op txid (JObj kvs)) st) in
  let three :=
    out_state (do_POST cfg t2 "/precommit" (only_txid txid)
                 (out_state (do_POST cfg t1 "/can_commit" (with_op txid (JObj kvs)) st))) in
  forall st1, st1 = two \/ st1 = three ->
  let r := do_POST cfg t3 "/commit" (only_txid txid) st1 in
  out_reply r = Ok (200, ok_true)
  /\ kv (out_state r) = <[str k := str v]> (kv st)
  /\ kv (out_state r) !! str k = Some (str v)
  /\ state_of (out_state r) txid = Some COMMITTED.
Proof.
  intros Hv Hk Hval two three st1 Hst1.
  destruct (validate_op_type kvs Hv) as (t & Ht & Hset).
  assert (Hop : forall store, apply_op (JObj kvs) store = Ok (<[str k := str v]> store)).
  { intros store. unfold apply_op. by rewrite Ht, Hset, Hval, Hk. }
  assert (Hrec : exists rec, TX st1 !! txid = Some rec /\ op rec = JObj kvs /\ kv st1 = kv st).
  { destruct Hst1 as [-> | ->]; unfold two, three.
    - rewrite (prepare_tables _ _ _ _ _ _ Hv), lookup_insert_eq, (prepare_kv _ _ _ _ _ _ Hv).
      eauto.
    - destruct (precommit_tables cfg t2 txid None
                  (out_state (do_POST cfg t1 "/can_commit" (with_op txid (JObj kvs)) st))
                  {| state := READY; op := JObj kvs; ts := Some t1 |}) as [HTX Hkv].
      { by rewrite (can_commit_tables _ _ _ _ _ _ Hv), lookup_insert_eq. }
      unfold only_txid. rewrite HTX, Hkv, lookup_insert_eq.
      rewrite (can_commit_kv _ _ _ _ _ _ Hv). eauto. }
  destruct Hrec as (rec & Hrec & Hoprec & Hkv).
  cbv zeta. rewrite do_POST_commit. cbn [only_txid body_txid]. rewrite Hrec, Hoprec, Hop.
  unfold replied; cbn [out_state out_reply fst]. unfold state_of. wal_simpl.
  rewrite !lookup_insert_eq, Hkv. done.
Qed.

Lemma commit_applies_prepared_set_witness :
  let r := do_POST cfg_wal 11 "/commit" (only_txid "t1")
             (out_state (do_POST cfg_wal 10 "/prepare" (with_op "t1" op_set) (initial None))) in
  out_reply r = Ok (200, ok_true) /\ kv (out_state r) !! "x" = Some "1".
Proof.
  pose proof (commit_applies_prepared_set cfg_wal 10 10 11 "t1"
                [("type", JStr "SET"); ("key", JStr "x"); ("value", JStr "1")]
                (JStr "x") (JStr "1") (initial None)
                eq_refl eq_refl eq_refl _ (or_introl eq_refl)) as H.
  cbv zeta in H. destruct H as (H1 & _ & H3 & _). split; [exact H1 | exact H3].
Defined.

(** X2: a YES vote does not mean that the commit can be applied.  An
    operation of type [SET] without a key or without a value is voted YES;
    its [/commit] then raises [KeyError]: no reply, no WAL record, and the
    record stays [READY]. *)
Theorem yes_vote_without_key_never_commits cfg t1 t2 txid kvs st :
  validate_op (JObj kvs) = Ok true ->
  lookup kvs "key" = None \/ lookup kvs "value" = None ->
  let p := do_POST cfg t1 "/prepare" (with_op txid (JObj kvs)) st in
  let r := do_POST cfg t2 "/commit" (only_txid txid) (out_state p) in
  out_reply p = Ok (200, JObj [("vote", JStr "YES")])
  /\ out_reply r = Raise KeyError
  /\ out_events r = []
  /\ out_state r = out_state p
  /\ state_of (out_state r) txid = Some READY.
Proof.
  intros Hv Hmiss. cbv zeta.
  destruct (validate_op_type kvs Hv) as (t & Ht & Hset).
  assert (Hop : forall store, apply_op (JObj kvs) store = Raise KeyError).
  { intros store. unfold apply_op. rewrite Ht, Hset.
    destruct Hmiss as [Hk | Hval].
    - rewrite Hk. by destruct (lookup kvs "value").
    - by rewrite Hval. }
  rewrite do_POST_prepare. cbn [with_op body_op body_txid]. rewrite Hv.
  rewrite do_POST_commit. cbn [only_txid body_txid].
  unfold replied at 1 2 3; cbn [out_state out_reply fst]. wal_simpl.
  rewrite lookup_insert_eq. cbn [op]. rewrite Hop.
  unfold raised, replied, state_of; cbn [out_state out_reply out_events fst].
  wal_simpl. rewrite lookup_insert_eq. done.
Qed.

Lemma yes_vote_without_key_witness :
  let p := do_POST cfg_wal 10 "/prepare" (with_op "t1" (JObj [("type", JStr "set")]))
             (initial None) in
  out_reply p = Ok (200, JObj [("vote", JStr "YES")])
  /\ out_reply (do_POST cfg_wal 11 "/commit" (only_txid "t1") (out_state p))
     = Raise KeyError.
Proof.
  pose proof (yes_vote_without_key_never_commits cfg_wal 10 11 "t1"
                [("type", JStr "set")] (initial None) eq_refl (or_introl eq_refl)) as H.
  cbv zeta in H. destruct H as (H1 & H2 & _). split; [exact H1 | exact H2].
Defined.

(** X3: an aborted transaction cannot be committed.  After [/abort] the
    record holds no operation, so [/commit] raises [TypeError]: no reply, no
    WAL record, and the record stays [ABORTED]. *)
Theorem commit_after_abort_raises cfg t1 t2 txid b st :
  let a := do_POST cfg t1 "/abort" (only_txid txid) st in
  let r := do_POST cfg t2 "/commit" {| body_txid := txid; body_op := b |} (out_state a) in
  out_reply a = Ok (200, ok_true)
  /\ out_reply r = Raise TypeError
  /\ out_events r = []
  /\ out_state r = out_state a
  /\ state_of (out_state r) txid = Some ABORTED
  /\ kv (out_state r) = kv st.
Proof.
  cbv zeta. rewrite do_POST_abort, do_POST_commit. cbn [only_txid body_txid].
  unfold replied at 1 2 3 4; cbn [out_state out_reply fst]. wal_simpl.
  rewrite lookup_insert_eq. cbn.
  unfold replied, state_of; cbn [out_state out_reply out_events fst].
  wal_simpl. rewrite lookup_insert_eq. done.
Qed.

(** X4: the requests for one txid leave the records of the other txids as
    they are. *)
Theorem other_txids_untouched cfg now path b st t :
  t <> body_txid b ->
  TX (out_state (do_POST cfg now path b st)) !! t = TX st !! t.
Proof.
  intros Hne. by_path path.
  - rewrite do_POST_prepare. destruct (body_op b) as [o|]; [|done].
    destruct (validate_op o); [|done].
    unfold replied; cbn [out_state fst]. wal_simpl. by rewrite lookup_insert_ne.
  - rewrite do_POST_commit. destruct (TX st !! body_txid b) as [rec|]; [|done].
    destruct (apply_op _ _); [|done].
    unfold replied; cbn [out_state fst]. wal_simpl. by rewrite lookup_insert_ne.
  - rewrite do_POST_abort.
    unfold replied; cbn [out_state fst]. wal_simpl. by rewrite lookup_insert_ne.
  - rewrite do_POST_can_commit. destruct (body_op b) as [o|]; [|done].
    destruct (validate_op o); [|done].
    unfold replied; cbn [out_state fst]. wal_simpl. by rewrite lookup_insert_ne.
  - rewrite do_POST_precommit. destruct (TX st !! body_txid b) as [rec|]; [|done].
    unfold replied; cbn [out_state fst]. wal_simpl. by rewrite lookup_insert_ne.
  - rewrite do_POST_other; [done|]. unfold endpoint. tauto.
Qed.

Lemma other_txids_untouched_witness :
  TX (out_state (do_POST cfg_wal 12 "/abort" (only_txid "t2") committed_t1)) !! "t1"
  = TX committed_t1 !! "t1".
Proof.
  apply (other_txids_untouched cfg_wal 12 "/abort" (only_txid "t2") committed_t1 "t1").
  discriminate.
Defined.

End HandlerFacts.

(** ** The participant process: replay, monitor and restarts *)

Module ProcessFacts.

Import Py Json Participant Samples ParticipantProps ParticipantFacts TextProps
  RecoveryProps ProcessProps Monitor ParticipantMain LineFacts RecoveryFacts.

Local Open Scope list_scope.

(** *** Lines that stop the replay *)

Lemma split_one_field sep s n :
  all_chars (fun c => negb (Ascii.eqb c sep)) s = true -> split sep s n = [s].
Proof.
  revert n. induction s as [|c s IH]; intros n H; [done|].
  simpl in H. apply andb_prop in H as [Hc Hs].
  simpl. destruct n as [|m]; [done|].
  apply negb_true_iff in Hc. rewrite Hc, (IH (S m) Hs). done.
Qed.

Lemma replay_one_field now line tabs :
  all_chars (fun c => negb (Ascii.eqb c SP)) (strip line) = true ->
  replay_line now line tabs = Raise IndexError.
Proof.
  intros H. unfold replay_line. destruct tabs as [store tx].
  by rewrite (split_one_field SP _ 2 H).
Qed.

Lemma replay_lines_stop clock l lines : forall i tabs,
  (forall now tabs', replay_line now l tabs' = Raise IndexError) ->
  l ∈ lines -> is_ok (replay_lines clock i lines tabs) = false.
Proof.
  induction lines as [|l' lines IH]; intros i tabs Hl Hin.
  - by apply elem_of_nil in Hin.
  - simpl. apply elem_of_cons in Hin as [<- | Hin].
    + by rewrite Hl.
    + destruct (replay_line (clock i) l' tabs) as [tabs'|]; [|done].
      simpl. by apply IH.
Qed.

(** X6: a line with a single field stops the replay.  The guard
    [if not parts: continue] never holds ([split] with a separator returns at
    least one field), so a blank line, or any line without a space after
    [strip], makes [wal_replay] raise [IndexError] at [parts[1]]: [main]
    ends there and the participant does not start. *)
Theorem blank_line_stops_replay cfg clock content l :
  truthy (WAL_PATH cfg) = true ->
  l ∈ readlines content ->
  all_chars (fun c => negb (Ascii.eqb c SP)) (strip l) = true ->
  (forall now tabs, replay_line now l tabs = Raise IndexError)
  /\ is_ok (main cfg clock (Some content)) = false.
Proof.
  intros Hw Hin Hl. split; [intros; by apply replay_one_field|].
  unfold main, wal_replay. rewrite Hw. simpl.
  destruct (replay_lines clock 0 (readlines content) (∅, ∅)) eqn:Hr; [|done].
  pose proof (replay_lines_stop clock l (readlines content) 0%nat (∅, ∅)
                (fun now tabs => replay_one_field now l tabs Hl) Hin) as Hs.
  by rewrite Hr in Hs.
Qed.

Lemma blank_line_stops_replay_witness :
  is_ok (main cfg_wal (fun _ => 0) (Some ("t1 ABORT" +:+ chr LF +:+ chr LF))) = false.
Proof.
  apply (blank_line_stops_replay cfg_wal (fun _ => 0) ("t1 ABORT" +:+ chr LF +:+ chr LF)
           (chr LF) eq_refl).
  - apply list_elem_of_lookup. exists 1%nat. reflexivity.
  - reflexivity.
Defined.

End ProcessFacts.

(** ** The monitor thread and restarts of the participant *)

Module RestartFacts.

Import Py Json Participant Samples ParticipantProps ParticipantFacts TextProps
  RecoveryProps ProcessProps Monitor ParticipantMain LineFacts RecoveryFacts.

Local Open Scope list_scope.

(** *** Records in state READY carry their clock reading *)

Lemma ready_stamped_insert tx t r :
  ready_stamped tx -> (state r = READY -> is_Some (ts r)) ->
  ready_stamped (<[t := r]> tx).
Proof.
  intros Htx Hr t' rec Hl Hs.
  destruct (decide (t = t')) as [<- | Hne].
  - rewrite lookup_insert_eq in Hl. injection Hl as <-. by apply Hr.
  - rewrite lookup_insert_ne in Hl by done. by apply (Htx t').
Qed.

Lemma do_POST_stamped cfg now path b st :
  ready_stamped (TX st) -> ready_stamped (TX (out_state (do_POST cfg now path b st))).
Proof.
  intros Hst. by_path path.
  - rewrite do_POST_prepare. destruct (body_op b) as [o|]; [|done].
    destruct (validate_op o); [|done].
    unfold replied; cbn [out_state fst]. wal_simpl.
    apply ready_stamped_insert; [done|]. by eexists.
  - rewrite do_POST_commit. destruct (TX st !! body_txid b) as [rec|]; [|done].
    destruct (apply_op _ _); [|done].
    unfold replied; cbn [out_state fst]. wal_simpl.
    apply ready_stamped_insert; [done|]. discriminate.
  - rewrite do_POST_abort.
    unfold replied; cbn [out_state fst]. wal_simpl.
    apply ready_stamped_insert; [done|]. discriminate.
  - rewrite do_POST_can_commit. destruct (body_op b) as [o|]; [|done].
    destruct (validate_op o); [|done].
    unfold replied; cbn [out_state fst]. wal_simpl.
    apply ready_stamped_insert; [done|]. by eexists.
  - rewrite do_POST_precommit. destruct (TX st !! body_txid b) as [rec|]; [|done].
    unfold replied; cbn [out_state fst]. wal_simpl.
    apply ready_stamped_insert; [done|]. discriminate.
  - rewrite do_POST_other; [done|]. unfold endpoint. tauto.
Qed.

Lemma replay_line_stamped now line tabs tabs' :
  replay_line now line tabs = Ok tabs' ->
  ready_stamped tabs.2 -> ready_stamped tabs'.2.
Proof.
  destruct tabs as [store tx]. unfold replay_line.
  destruct (split SP (strip line) 2) as [|txid [|cmd rest2]]; try discriminate.
  - by intros [= <-].
  - destruct (String.eqb cmd "PREPARE" || String.eqb cmd "CAN_COMMIT").
    { destruct rest2 as [|arg ?]; [discriminate|].
      destruct (split SP arg 1) as [|vote [|op_json [|]]]; try discriminate.
      destruct (loads op_json) as [o|]; [|discriminate].
      simpl. intros [= <-] Htx. simpl.
      apply ready_stamped_insert; [done|]. by eexists. }
    destruct (String.eqb cmd "PRECOMMIT").
    { destruct (tx !! txid) as [rec|]; [|discriminate].
      intros [= <-] Htx. simpl. apply ready_stamped_insert; [done|]. discriminate. }
    destruct (String.eqb cmd "COMMIT").
    { destruct (tx !! txid) as [rec|]; [|discriminate].
      destruct (apply_op _ _); [|discriminate].
      simpl. intros [= <-] Htx. simpl.
      apply ready_stamped_insert; [done|]. discriminate. }
    destruct (String.eqb cmd "ABORT").
    { intros [= <-] Htx. simpl. apply ready_stamped_insert; [done|]. discriminate. }
    by intros [= <-].
Qed.

Lemma replay_lines_stamped clock lines : forall i tabs tabs',
  replay_lines clock i lines tabs = Ok tabs' ->
  ready_stamped tabs.2 -> ready_stamped tabs'.2.
Proof.
  induction lines as [|l lines IH]; intros i tabs tabs'; simpl.
  - by intros [= <-].
  - destruct (replay_line (clock i) l tabs) as [tabs1|] eqn:Hl; [|discriminate].
    simpl. intros Hr Htx. apply (IH _ _ _ Hr). by apply (replay_line_stamped _ _ _ _ Hl).
Qed.

Lemma wal_replay_stamped cfg clock st st' :
  wal_replay cfg clock st = Ok st' ->
  ready_stamped (TX st) -> ready_stamped (TX st').
Proof.
  unfold wal_replay. destruct (negb (truthy (WAL_PATH cfg))); [by intros [= <-]|].
  destruct (wal st) as [content|]; [|by intros [= <-]].
  destruct (replay_lines clock 0 (readlines content) (kv st, TX st)) as [tabs|] eqn:Hr;
    [|discriminate].
  simpl. intros [= <-] Htx. simpl. by apply (replay_lines_stamped _ _ _ _ _ Hr).
Qed.

Lemma initial_stamped file : ready_stamped (TX (initial file)).
Proof. intros t rec Hl. simpl in Hl. by rewrite lookup_empty in Hl. Qed.

Lemma life_stamped cfg hs : forall st st',
  life cfg st hs = Ok st' -> ready_stamped (TX st) -> ready_stamped (TX st').
Proof.
  induction hs as [|[r | clock] hs IH]; intros st st'; simpl.
  - by intros [= <-].
  - intros Hl Htx. apply (IH _ _ Hl). by apply do_POST_stamped.
  - unfold restart, main.
    destruct (wal_replay cfg clock (initial (wal st))) as [st1|] eqn:Hr; [|discriminate].
    simpl. intros Hl _. apply (IH _ _ Hl).
    apply (wal_replay_stamped _ _ _ _ Hr). apply initial_stamped.
Qed.

Lemma monitor_items_reports now items : forall out,
  (forall t rec, (t, rec) ∈ items -> state rec = READY -> is_Some (ts rec)) ->
  exists out',
    monitor_items now items out = Ok out'
    /\ forall t, t ∈ out' <->
         t ∈ out
         \/ exists rec stamp,
              (t, rec) ∈ items /\ state rec = READY /\ ts rec = Some stamp
              /\ READY_TIMEOUT < now - stamp.
Proof.
  induction items as [|[t0 rec0] items IH]; intros out Hst; simpl.
  - exists out. split; [done|]. intros t. split; [by left|].
    intros [H | (rec & stamp & H & _)]; [done|]. by apply elem_of_nil in H.
  - assert (Hrest : forall t rec, (t, rec) ∈ items -> state rec = READY -> is_Some (ts rec)).
    { intros t rec Hin. apply (Hst t rec). by apply elem_of_cons; right. }
    destruct (state rec0) eqn:Hs0.
    + destruct (Hst t0 rec0 (proj2 (elem_of_cons _ _ _) (or_introl eq_refl)) Hs0)
        as [stamp0 Hts0]. rewrite Hts0.
      destruct (IH (if READY_TIMEOUT <? now - stamp0 then out ++ [t0] else out) Hrest)
        as (out' & Hrun & Hout).
      exists out'. split; [done|]. intros t. rewrite Hout. split.
      * intros [Hin | (rec & stamp & Hin & H)].
        -- destruct (READY_TIMEOUT <? now - stamp0) eqn:Hlt; [|by left].
           apply elem_of_app in Hin as [Hin | Hin]; [by left|].
           apply list_elem_of_singleton in Hin as ->. right.
           exists rec0, stamp0. apply Z.ltb_lt in Hlt.
           split; [by apply elem_of_cons; left|done].
        -- right. exists rec, stamp. split; [by apply elem_of_cons; right|done].
      * intros [Hin | (rec & stamp & Hin & Hs & Hts & Hlt)].
        -- left. destruct (READY_TIMEOUT <? now - stamp0); [|done].
           apply elem_of_app. by left.
        -- apply elem_of_cons in Hin as [[= -> ->] | Hin].
           ++ left. rewrite Hts0 in Hts. injection Hts as ->.
              apply Z.ltb_lt in Hlt. rewrite Hlt. apply elem_of_app. right.
              by apply list_elem_of_singleton.
           ++ right. by exists rec, stamp.
    + destruct (IH out Hrest) as (out' & Hrun & Hout).
      exists out'. split; [done|]. intros t. rewrite Hout. split.
      * intros [Hin | (rec & stamp & Hin & H)]; [by left|].
        right. exists rec, stamp. split; [by apply elem_of_cons; right|done].
      * intros [Hin | (rec & stamp & Hin & Hs & H)]; [by left|].
        apply elem_of_cons in Hin as [[= -> ->] | Hin]; [congruence|].
        right. by exists rec, stamp.
    + destruct (IH out Hrest) as (out' & Hrun & Hout).
      exists out'. split; [done|]. intros t. rewrite Hout. split.
      * intros [Hin | (rec & stamp & Hin & H)]; [by left|].
        right. exists rec, stamp. split; [by apply elem_of_cons; right|done].
      * intros [Hin | (rec & stamp & Hin & Hs & H)]; [by left|].
        apply elem_of_cons in Hin as [[= -> ->] | Hin]; [congruence|].
        right. by exists rec, stamp.
    + destruct (IH out Hrest) as (out' & Hrun & Hout).
      exists out'. split; [done|]. intros t. rewrite Hout. split.
      * intros [Hin | (rec & stamp & Hin & H)]; [by left|].
        right. exists rec, stamp. split; [by apply elem_of_cons; right|done].
      * intros [Hin | (rec & stamp & Hin & Hs & H)]; [by left|].
        apply elem_of_cons in Hin as [[= -> ->] | Hin]; [congruence|].
        right. by exists rec, stamp.
Qed.

(** X7: the monitor never fails and reports the stale READY records.  In
    every state that a participant reaches from its start (a replay of any
    WAL that can be replayed, then requests and restarts), every record in
    state [READY] has a [ts]; so a pass of [timeout_monitor] raises no
    [KeyError], and it reports a txid exactly when its record is [READY] and
    more than [READY_TIMEOUT] = 15 seconds old. *)
Theorem timeout_monitor_reports_stale_ready cfg clock file st0 hs st now :
  main cfg clock file = Ok st0 ->
  life cfg st0 hs = Ok st ->
  exists out,
    timeout_monitor now st = Ok out
    /\ READY_TIMEOUT = 15
    /\ forall t, t ∈ out <->
         exists rec stamp,
           TX st !! t = Some rec /\ state rec = READY /\ ts rec = Some stamp
           /\ 15 < now - stamp.
Proof.
  intros Hmain Hlife.
  assert (Hst : ready_stamped (TX st)).
  { apply (life_stamped _ _ _ _ Hlife). apply (wal_replay_stamped _ _ _ _ Hmain).
    apply initial_stamped. }
  destruct (monitor_items_reports now (map_to_list (TX st)) []) as (out & Hrun & Hout).
  { intros t rec Hin. apply elem_of_map_to_list in Hin. by apply (Hst t). }
  exists out. split; [done|]. split; [done|]. intros t. rewrite Hout. split.
  - intros [Hin | (rec & stamp & Hin & H)]; [by apply elem_of_nil in Hin|].
    apply elem_of_map_to_list in Hin. by exists rec, stamp.
  - intros (rec & stamp & Hin & H). right. exists rec, stamp.
    split; [by apply elem_of_map_to_list|done].
Qed.

Lemma timeout_monitor_witness :
  exists out,
    timeout_monitor 30 (serve cfg_wal (initial None) MoreSamples.prepare_t1) = Ok out
    /\ READY_TIMEOUT = 15
    /\ forall t, t ∈ out <->
         exists rec stamp,
           TX (serve cfg_wal (initial None) MoreSamples.prepare_t1) !! t = Some rec
           /\ state rec = READY /\ ts rec = Some stamp /\ 15 < 30 - stamp.
Proof.
  apply (timeout_monitor_reports_stale_ready cfg_wal (fun _ => 0) None (initial None)
           [Request MoreSamples.prepare_t1] _ 30); reflexivity.
Defined.

(** *** A restart between two requests is not seen *)

Lemma same_tables_refl st : same_tables st st.
Proof. done. Qed.

Lemma same_lookup (ta tb : gmap string txrec) t :
  forget_ts <$> ta = forget_ts <$> tb ->
  match ta !! t, tb !! t with
  | Some ra, Some rb => state ra = state rb /\ op ra = op rb
  | None, None => True
  | _, _ => False
  end.
Proof.
  intros H. apply (f_equal (fun m => m !! t)) in H. rewrite !lookup_fmap in H.
  destruct (ta !! t) as [ra|], (tb !! t) as [rb|]; simpl in H; try done.
  injection H as H1 H2. done.
Qed.

Lemma same_insert (ta tb : gmap string txrec) t ra rb :
  forget_ts <$> ta = forget_ts <$> tb -> forget_ts ra = forget_ts rb ->
  forget_ts <$> <[t := ra]> ta = forget_ts <$> <[t := rb]> tb.
Proof. intros H Hr. by rewrite !fmap_insert, H, Hr. Qed.

Lemma wal_append_same cfg line a b :
  wal a = wal b -> wal (wal_append cfg line a).1 = wal (wal_append cfg line b).1.
Proof.
  intros H. unfold wal_append. destruct (negb (truthy (WAL_PATH cfg))); simpl; [done|].
  by rewrite H.
Qed.

Lemma replied_same cfg line a b code payload :
  kv a = kv b -> forget_ts <$> TX a = forget_ts <$> TX b -> wal a = wal b ->
  same_tables (out_state (replied (wal_append cfg line a) code payload))
    (out_state (replied (wal_append cfg line b) code payload))
  /\ out_reply (replied (wal_append cfg line a) code payload)
     = out_reply (replied (wal_append cfg line b) code payload).
Proof.
  intros Hkv Htx Hwal. unfold replied; cbn [out_state out_reply fst]. split; [|done].
  split; [|split].
  - by rewrite !wal_append_kv.
  - by rewrite !wal_append_TX.
  - by apply wal_append_same.
Qed.

Lemma do_POST_same cfg n1 n2 path b sa sb :
  same_tables sa sb ->
  same_tables (out_state (do_POST cfg n1 path b sa)) (out_state (do_POST cfg n2 path b sb))
  /\ out_reply (do_POST cfg n1 path b sa) = out_reply (do_POST cfg n2 path b sb).
Proof.
  intros (Hkv & Htx & Hwal).
  pose proof (same_lookup (TX sa) (TX sb) (body_txid b) Htx) as Hl.
  by_path path.
  - rewrite !do_POST_prepare. destruct (body_op b) as [o|]; [|done].
    destruct (validate_op o); [|done].
    apply replied_same; simpl; [done| |done]. by apply same_insert.
  - rewrite !do_POST_commit.
    destruct (TX sa !! body_txid b) as [ra|], (TX sb !! body_txid b) as [rb|];
      try done.
    destruct Hl as [Hs Ho]. rewrite Ho, Hkv.
    destruct (apply_op (op rb) (kv sb)) as [store|]; [|done].
    apply replied_same; simpl; [done| |done]. apply same_insert; [done|].
    unfold forget_ts, set_state; simpl. by rewrite Ho.
  - rewrite !do_POST_abort.
    apply replied_same; simpl; [done| |done]. by apply same_insert.
  - rewrite !do_POST_can_commit. destruct (body_op b) as [o|]; [|done].
    destruct (validate_op o); [|done].
    apply replied_same; simpl; [done| |done]. by apply same_insert.
  - rewrite !do_POST_precommit.
    destruct (TX sa !! body_txid b) as [ra|], (TX sb !! body_txid b) as [rb|];
      try done.
    destruct Hl as [Hs Ho].
    apply replied_same; simpl; [done| |done]. apply same_insert; [done|].
    unfold forget_ts, set_state; simpl. by rewrite Ho.
  - rewrite !do_POST_other by (unfold endpoint; tauto). done.
Qed.

Lemma serve_all_snoc cfg st rs r :
  serve_all cfg st (rs ++ [r]) = serve cfg (serve_all cfg st rs) r.
Proof. unfold serve_all. by rewrite fold_left_app. Qed.

Lemma restart_recovers cfg clock reqs st :
  truthy (WAL_PATH cfg) = true -> Forall replayable reqs ->
  same_tables st (serve_all cfg (initial None) reqs) ->
  exists st', restart cfg clock st = Ok st'
              /\ same_tables st' (serve_all cfg (initial None) reqs).
Proof.
  intros Hw Hreqs (Hkv & Htx & Hwal).
  destruct (serve_all_replay cfg clock reqs (initial None) [] (∅, ∅) Hw Hreqs)
    as (lines & tabs & Hf & Hlc & Hrep & Hk & Ht); try done.
  unfold restart, main, wal_replay. rewrite Hw, Hwal. simpl.
  destruct (wal (serve_all cfg (initial None) reqs)) as [content|] eqn:Hc.
  - simpl in Hf. subst content. rewrite (readlines_file lines Hlc), Hrep. simpl.
    eexists. split; [reflexivity|]. by split.
  - simpl in Hf. symmetry in Hf. apply file_of_nil_inv in Hf. subst lines.
    simpl in Hrep. injection Hrep as <-. eexists. split; [reflexivity|].
    split; [done|]. split; [|done]. done.
Qed.

Lemma life_tracks cfg hs : forall done st,
  truthy (WAL_PATH cfg) = true ->
  Forall replayable done -> Forall replayable (requests_of hs) ->
  same_tables st (serve_all cfg (initial None) done) ->
  exists st',
    life cfg st hs = Ok st'
    /\ same_tables st' (serve_all cfg (initial None) (done ++ requests_of hs)).
Proof.
  induction hs as [|[r | clock] hs IH]; intros done st Hw Hdone Hhs Hsame; simpl.
  - exists st. by rewrite app_nil_r.
  - simpl in Hhs. apply Forall_cons in Hhs as [Hr Hhs].
    destruct (IH (done ++ [r]) (serve cfg st r) Hw) as (st' & Hl & Hs); try done.
    + apply Forall_app. split; [done|]. by apply Forall_singleton.
    + rewrite serve_all_snoc. unfold serve. by apply do_POST_same.
    + exists st'. split; [done|]. by rewrite <- app_assoc in Hs.
  - simpl in Hhs.
    destruct (restart_recovers cfg clock done st Hw Hdone Hsame) as (st1 & Hr & Hs1).
    rewrite Hr. simpl. by apply IH.
Qed.

(** X8: a restart is not seen.  With a WAL path, kill the participant and
    start it again any number of times between requests whose records can
    be read back: every restart succeeds, and the process ends with the
    key-value store, the WAL and (up to the clock readings [ts]) the
    transaction table of a process that served the same requests without
    ever being killed. *)
Theorem restarts_are_not_seen cfg hs :
  truthy (WAL_PATH cfg) = true ->
  Forall replayable (requests_of hs) ->
  exists st,
    life cfg (initial None) hs = Ok st
    /\ same_tables st (serve_all cfg (initial None) (requests_of hs)).
Proof.
  intros Hw Hhs.
  by apply (life_tracks cfg hs [] (initial None) Hw).
Qed.

Lemma restarts_are_not_seen_witness :
  exists st,
    life cfg_wal (initial None) MoreSamples.sample_life = Ok st
    /\ same_tables st (serve_all cfg_wal (initial None) sample_requests).
Proof.
  exact (restarts_are_not_seen cfg_wal MoreSamples.sample_life eq_refl
           sample_requests_replayable).
Defined.

End RestartFacts.

(** ** The coordinator's WAL: what the replay reads *)

Module CoordReplayFacts.

Import Py Json Coordinator CoordinatorMain TextProps SystemProps CrashProps
  StringFacts LineFacts RecoveryFacts.

Local Open Scope list_scope.

(** *** Fields cut at whitespace *)

Lemma rev_app_back (s : string) : forall acc acc',
  String.rev_app (String.rev_app s acc) acc' = String.rev_app acc (s +:+ acc').
Proof.
  induction s as [|c s IH]; intros acc acc'.
  - by rewrite string_app_nil_l.
  - simpl. rewrite IH. simpl. by rewrite string_app_cons.
Qed.

Lemma split_ws_go_field t : forall acc rest,
  all_chars (fun c => negb (is_space c)) t = true ->
  split_ws_go (Some acc) (t +:+ rest)
  = split_ws_go (Some (String.rev_app t acc)) rest.
Proof.
  induction t as [|c t IH]; intros acc rest H.
  - by rewrite !string_app_nil_l.
  - simpl in H. apply andb_prop in H as [Hc Ht]. apply negb_true_iff in Hc.
    rewrite string_app_cons. simpl. rewrite Hc. simpl.
    by rewrite (IH _ _ Ht).
Qed.

Lemma split_ws_go_token t c rest :
  is_token t = true -> is_space c = true ->
  split_ws_go None (t +:+ String c rest) = t :: split_ws_go None rest.
Proof.
  intros Ht Hc. destruct t as [|a t]; [done|].
  simpl in Ht. apply andb_prop in Ht as [Ha Ht]. apply negb_true_iff in Ha.
  rewrite string_app_cons. simpl. rewrite Ha. simpl.
  rewrite (split_ws_go_field t _ _ Ht). simpl. rewrite Hc.
  unfold String.rev. rewrite rev_app_back. simpl. by rewrite string_app_nil_r.
Qed.

Lemma split_ws_go_last t :
  is_token t = true -> split_ws_go None t = [t].
Proof.
  intros Ht. destruct t as [|a t]; [done|].
  simpl in Ht. apply andb_prop in Ht as [Ha Ht]. apply negb_true_iff in Ha.
  simpl. rewrite Ha. simpl.
  rewrite <- (string_app_nil_r t) at 1.
  rewrite (split_ws_go_field t _ _ Ht). simpl.
  unfold String.rev. rewrite rev_app_back. simpl. by rewrite string_app_nil_r.
Qed.

Lemma lstrip_blank s : all_chars is_space s = true -> lstrip s = EmptyString.
Proof.
  induction s as [|c s IH]; [done|]. simpl. intros H.
  apply andb_prop in H as [Hc Hs]. rewrite Hc. by apply IH.
Qed.

(** *** The decision line *)

Lemma valid_decision_word d : valid_decision d -> is_word d /\ is_token d = true.
Proof. intros [-> | ->]; split; try done; [apply word_COMMIT|apply word_ABORT]. Qed.

Lemma decision_line_text t d :
  decision_line t d = t +:+ String SP ("DECISION" +:+ String SP d).
Proof. done. Qed.

Lemma decision_line_fields t d :
  is_token t = true -> valid_decision d ->
  all_chars line_char (decision_line t d) = true
  /\ split_ws (strip (decision_line t d +:+ chr LF)) = [t; "DECISION"; d].
Proof.
  intros Ht Hd. destruct (valid_decision_word d Hd) as [(Hsp & Hlc & Hend) Htok].
  rewrite decision_line_text. split.
  - rewrite all_chars_app. rewrite (token_line_chars t Ht). simpl.
    change (all_chars line_char ("DECISION" +:+ String SP d))
      with (all_chars line_char d). done.
  - rewrite strip_line.
    + unfold split_ws. rewrite (split_ws_go_token t SP _ Ht eq_refl).
      rewrite (split_ws_go_token "DECISION" SP d eq_refl eq_refl).
      by rewrite (split_ws_go_last d Htok).
    + by apply token_starts_solid.
    + apply ends_with_app. change (String SP ("DECISION" +:+ String SP d))
        with (" DECISION " +:+ d). apply ends_with_app.
      by apply printable_not_space_end.
Qed.

Lemma replay_decision_line cfg t d tx :
  is_token t = true -> valid_decision d ->
  replay_line cfg (decision_line t d +:+ chr LF) tx
  = Ok (dict_set tx t (Recovered t d (PARTICIPANTS cfg))).
Proof.
  intros Ht Hd. unfold replay_line.
  destruct (decision_line_fields t d Ht Hd) as [_ ->]. done.
Qed.

Lemma replay_tab cfg tab : forall tx,
  Forall (fun td => is_token td.1 = true /\ valid_decision td.2) tab ->
  NoDup (tx.*1 ++ tab.*1) ->
  replay_lines cfg
    ((fun l => l +:+ chr LF) <$> ((fun td => decision_line td.1 td.2) <$> tab)) tx
  = Ok (tx ++ recovered_of cfg tab).
Proof.
  induction tab as [|[t d] tab IH]; intros tx Htab Hnd; simpl.
  - by rewrite app_nil_r.
  - apply Forall_cons in Htab as [[Ht Hd] Htab]. simpl in Ht, Hd.
    rewrite (replay_decision_line cfg t d tx Ht Hd). simpl.
    assert (Hfresh : t ∉ tx.*1).
    { apply NoDup_app in Hnd as (_ & Hdis & _). intros Hin.
      apply (Hdis t Hin). simpl. apply elem_of_cons. by left. }
    rewrite (dict_set_fresh tx t _ Hfresh).
    rewrite IH; [by rewrite <- app_assoc|exact Htab|].
    rewrite fmap_app. simpl. rewrite <- app_assoc. exact Hnd.
Qed.

Lemma wal_of_lines tab :
  Forall (fun td => is_token td.1 = true /\ valid_decision td.2) tab ->
  Forall (fun l => all_chars line_char l = true)
    ((fun td => decision_line td.1 td.2) <$> tab).
Proof.
  intros H. apply Forall_fmap. eapply Forall_impl; [exact H|].
  intros [t d] [Ht Hd]. simpl in *. by destruct (decision_line_fields t d Ht Hd).
Qed.

(** [main] on the WAL that holds [tab]. *)
Lemma main_wal_of cfg tab file :
  truthy (WAL_PATH cfg) = true ->
  Forall (fun td => is_token td.1 = true /\ valid_decision td.2) tab ->
  NoDup tab.*1 ->
  default EmptyString file = wal_of tab ->
  main cfg file = Ok {| TX := recovered_of cfg tab; wal := file |}.
Proof.
  intros Hw Htab Hnd Hfile. unfold main, wal_replay. rewrite Hw. simpl.
  destruct file as [content|]; simpl in *.
  - subst content. unfold wal_of.
    rewrite (readlines_file _ (wal_of_lines tab Htab)).
    rewrite (replay_tab cfg tab [] Htab Hnd). done.
  - symmetry in Hfile. apply file_of_nil_inv in Hfile.
    apply fmap_nil_inv in Hfile. by subst tab.
Qed.

End CoordReplayFacts.

(** ** The coordinator killed and started again *)

Module CrashFacts.

Import Py Json Coordinator CoordinatorMain TextProps SystemProps CrashProps
  StringFacts LineFacts DecisionFacts EventFacts AgreementFacts CoordReplayFacts.

Local Open Scope list_scope.

(** *** The WAL file follows the decisions *)

Lemma coord_wal_append_wal cfg line w :
  truthy (WAL_PATH cfg) = true ->
  wal (coord (wal_append cfg line w))
  = Some (default EmptyString (wal (coord w)) +:+ (line +:+ chr LF)).
Proof. intros Hw. unfold wal_append. by rewrite Hw. Qed.

Lemma wal_of_snoc tab t d :
  wal_of (tab ++ [(t, d)]) = wal_of tab +:+ (decision_line t d +:+ chr LF).
Proof.
  unfold wal_of. rewrite fmap_app, file_of_app. simpl.
  by rewrite string_app_nil_r.
Qed.

Lemma dict_set_elem {A} (d : list (string * A)) k v k' v' :
  (k', v') ∈ dict_set d k v -> (k', v') = (k, v) \/ (k', v') ∈ d.
Proof.
  induction d as [|[k0 v0] d IH]; simpl.
  - intros H. apply list_elem_of_singleton in H. by left.
  - destruct (String.eqb k0 k) eqn:Hk.
    + apply String.eqb_eq in Hk as ->. intros H.
      apply elem_of_cons in H as [H | H]; [by left|]. right. apply elem_of_cons. by right.
    + intros H. apply elem_of_cons in H as [H | H].
      * right. apply elem_of_cons. by left.
      * destruct (IH H) as [? | ?]; [by left|]. right. apply elem_of_cons. by right.
Qed.

Lemma dict_get_elem {A} (d : list (string * A)) k v :
  NoDup d.*1 -> (k, v) ∈ d -> dict_get d k = Some v.
Proof.
  induction d as [|[k0 v0] d IH]; intros Hnd Hin.
  - by apply elem_of_nil in Hin.
  - simpl in Hnd. apply NoDup_cons in Hnd as [Hk0 Hnd]. simpl.
    apply elem_of_cons in Hin as [[= -> ->] | Hin].
    + by rewrite String.eqb_refl.
    + destruct (String.eqb k0 k) eqn:Hk; [|by apply IH].
      apply String.eqb_eq in Hk as ->. exfalso. apply Hk0.
      apply list_elem_of_fmap. by exists (k, v).
Qed.

(** *** The phases of a start, for a txid not begun before *)

Lemma fresh_key (ks : list string) (tab : list (string * string)) t :
  (forall t' d', (t', d') ∈ tab -> t' ∈ ks) -> t ∉ ks -> t ∉ tab.*1.
Proof.
  intros Hk Ht Hin. apply list_elem_of_fmap in Hin as ([t' d'] & -> & Hin).
  apply Ht. by apply (Hk t' d').
Qed.

Lemma send_all_fresh e cfg tab path t w :
  agreed tab w -> t ∉ tab.*1 -> agreed tab (send_all e cfg path t w).
Proof.
  intros Ha Hf. apply send_all_keeps; [|exact Ha].
  intros p w1 w2 res Hcall Ha1.
  apply (call_agreed _ _ _ _ _ _ _ _ Hcall); [|exact Ha1].
  simpl. intros d' Hin. exfalso. apply Hf. apply list_elem_of_fmap. by exists (t, d').
Qed.

Lemma voted_sound e cfg cfg' path t o ks tab w :
  path = "/prepare" \/ path = "/can_commit" ->
  sound cfg ks tab w -> t ∉ ks ->
  let tl := collect_votes e cfg' path t o w in
  coord (t_world tl) = coord w
  /\ sound cfg (t :: ks) tab (t_world tl)
  /\ voting t tl.
Proof.
  intros Hpath [Ha Hk Hr Hh Hwal] Hfresh. cbv zeta.
  assert (Hco : coord (t_world (collect_votes e cfg' path t o w)) = coord w)
    by apply collect_votes_coord.
  split; [exact Hco|]. split; [split|].
  - apply collect_votes_keeps; [|exact Ha].
    intros p w1 w2 res Hcall Ha1.
    apply (call_agreed _ _ _ _ _ _ _ _ Hcall); [|exact Ha1].
    simpl. intros d' Hin. exfalso. apply Hfresh. by apply (Hk t d').
  - intros t' d' Hin. apply elem_of_cons. right. by apply (Hk t' d').
  - apply collect_votes_keeps.
    + intros p w1 w2 res Hcall Hr1.
      apply (call_rest_untouched _ _ _ _ _ _ _ _ Hcall); [|exact Hr1].
      apply elem_of_cons. by left.
    + apply (rest_untouched_weaken ks); [|exact Hr].
      intros t' Hin. apply elem_of_cons. by right.
  - rewrite Hco. exact Hh.
  - rewrite Hco. exact Hwal.
  - apply collect_votes_voting; [exact Hpath|]. by apply Hr.
Qed.

(** Sends for a txid that is begun and not decided. *)
Lemma undecided_sends_sound e cfg cfg' path t ks tab w :
  sound cfg ks tab w -> t ∈ ks -> t ∉ tab.*1 ->
  sound cfg ks tab (send_all e cfg' path t w)
  /\ coord (send_all e cfg' path t w) = coord w.
Proof.
  intros [Ha Hk Hr Hh Hwal] Hin Hf.
  assert (Hco : coord (send_all e cfg' path t w) = coord w) by apply send_all_coord.
  split; [|exact Hco]. split.
  - by apply send_all_fresh.
  - exact Hk.
  - by apply send_all_rest.
  - by rewrite Hco.
  - by rewrite Hco.
Qed.

(** Sends of the decision of a txid. *)
Lemma decided_sends_sound e cfg cfg' path t d ks tab w :
  sound cfg ks tab w -> (t, d) ∈ tab ->
  path = "/precommit" \/ path = endpoint_of d ->
  sound cfg ks tab (send_all e cfg' path t w)
  /\ coord (send_all e cfg' path t w) = coord w.
Proof.
  intros [Ha Hk Hr Hh Hwal] Hin Hpath.
  assert (Hco : coord (send_all e cfg' path t w) = coord w) by apply send_all_coord.
  split; [|exact Hco]. split.
  - by apply (send_all_agreed _ _ _ _ _ d).
  - exact Hk.
  - apply send_all_rest; [exact Hr|]. by apply (Hk t d).
  - by rewrite Hco.
  - by rewrite Hco.
Qed.

(** The decision is made: it joins the decisions logged. *)
Lemma decided_sound cfg ks tab t d w :
  sound cfg ks tab w -> t ∈ ks -> t ∉ tab.*1 ->
  valid_decision d -> agrees w t d ->
  sound cfg ks (tab ++ [(t, d)]) (wal_append cfg (decision_line t d) w).
Proof.
  intros [Ha Hk Hr Hh Hwal] Hin Hf Hd Hag.
  assert (Htd : (t, d) ∈ tab ++ [(t, d)]).
  { apply elem_of_app. right. by apply list_elem_of_singleton. }
  split.
  - apply wal_append_agreed; [|exact Htd]. by apply agreed_extend.
  - intros t' d' Hin'. apply elem_of_app in Hin' as [Hin' | Hin'].
    + by apply (Hk t' d').
    + apply list_elem_of_singleton in Hin'. by injection Hin' as -> ->.
  - by apply wal_append_rest.
  - rewrite coord_wal_append_TX. intros k r Hin' Hv.
    apply elem_of_app. left. by apply (Hh k r).
  - intros Hw. rewrite (coord_wal_append_wal _ _ _ Hw). simpl.
    by rewrite (Hwal Hw), wal_of_snoc.
Qed.

(** The record of the transaction is stored. *)
Lemma store_done_sound cfg ks tab t protocol d vs w :
  sound cfg ks tab w -> (t, d) ∈ tab ->
  sound cfg ks tab (store_done t protocol d vs w).
Proof.
  intros [Ha Hk Hr Hh Hwal] Hin. unfold store_done. split.
  - by apply agreed_set_coord.
  - exact Hk.
  - by apply rest_untouched_set_coord.
  - simpl. intros k r Hin' Hv. apply dict_set_elem in Hin' as [[= -> ->] | Hin'].
    + exact Hin.
    + by apply (Hh k r).
  - exact Hwal.
Qed.

Lemma store_done_settled cfg tab t protocol d vs w :
  settled cfg tab w -> t ∉ tab.*1 ->
  settled cfg (tab ++ [(t, d)]) (store_done t protocol d vs w).
Proof.
  intros Hs Hf Hw. destruct (Hs Hw) as [Hdec Hid]. unfold store_done. simpl.
  assert (Hfresh : t ∉ (TX (coord w)).*1) by (by rewrite <- decisions_keys, Hdec).
  rewrite (dict_set_fresh _ _ _ Hfresh). split.
  - by rewrite decisions_snoc, Hdec.
  - apply Forall_app. split; [exact Hid|]. by repeat constructor.
Qed.

Lemma settled_coord cfg tab w w' :
  TX (coord w') = TX (coord w) -> settled cfg tab w -> settled cfg tab w'.
Proof. intros Heq Hs Hw. rewrite Heq. by apply Hs. Qed.

Lemma all_yes_valid (b : bool) : valid_decision (if b then "COMMIT" else "ABORT").
Proof. destruct b; [by left|by right]. Qed.

(** *** A start that runs to its end *)

Lemma start_sound e cfg t o protocol ks tab w :
  sound cfg ks tab w -> settled cfg tab w -> t ∉ ks ->
  exists d,
    sound cfg (t :: ks) (tab ++ [(t, d)]) (fst (start e cfg t o protocol w))
    /\ settled cfg (tab ++ [(t, d)]) (fst (start e cfg t o protocol w)).
Proof.
  intros Hs Hset Hfresh.
  assert (Hf : t ∉ tab.*1) by (apply (fresh_key ks); [apply Hs|exact Hfresh]).
  assert (Hin : t ∈ t :: ks) by (apply elem_of_cons; by left).
  unfold start. destruct (String.eqb _ "3PC").
  - unfold three_pc. cbv zeta.
    destruct (voted_sound e cfg cfg "/can_commit" t o ks tab w (or_intror eq_refl) Hs Hfresh)
      as (Hco & Hs1 & Hv).
    pose proof (voting_agrees _ _ Hv) as Hag.
    set (tl := collect_votes e cfg "/can_commit" t o w) in *.
    destruct (all_yes tl) eqn:Hyes; simpl.
    + exists "COMMIT".
      destruct (undecided_sends_sound e cfg cfg "/precommit" t _ _ _ Hs1 Hin Hf)
        as [Hs2 Hco2].
      assert (Hag2 : agrees (send_all e cfg "/precommit" t (t_world tl)) t "COMMIT").
      { apply send_all_keeps; [|exact Hag].
        intros p w1 w2 res Hcall Ha1.
        apply (call_agrees _ _ _ _ _ _ _ _ _ Hcall); [by left|exact Ha1]. }
      pose proof (decided_sound cfg _ _ t "COMMIT" _ Hs2 Hin Hf (or_introl eq_refl) Hag2)
        as Hs3.
      assert (Htd : (t, "COMMIT") ∈ tab ++ [(t, "COMMIT")]).
      { apply elem_of_app. right. by apply list_elem_of_singleton. }
      destruct (decided_sends_sound e cfg cfg (endpoint_of "COMMIT") t "COMMIT" _ _ _
                  Hs3 Htd (or_intror eq_refl)) as [Hs4 Hco4].
      split.
      * by apply store_done_sound.
      * apply store_done_settled; [|exact Hf].
        apply (settled_coord cfg tab w); [|exact Hset].
        by rewrite Hco4, coord_wal_append_TX, Hco2, Hco.
    + exists "ABORT".
      pose proof (decided_sound cfg _ _ t "ABORT" _ Hs1 Hin Hf (or_intror eq_refl) Hag)
        as Hs3.
      assert (Htd : (t, "ABORT") ∈ tab ++ [(t, "ABORT")]).
      { apply elem_of_app. right. by apply list_elem_of_singleton. }
      destruct (decided_sends_sound e cfg cfg (endpoint_of "ABORT") t "ABORT" _ _ _
                  Hs3 Htd (or_intror eq_refl)) as [Hs4 Hco4].
      split.
      * by apply store_done_sound.
      * apply store_done_settled; [|exact Hf].
        apply (settled_coord cfg tab w); [|exact Hset].
        by rewrite Hco4, coord_wal_append_TX, Hco.
  - unfold two_pc. cbv zeta. simpl.
    destruct (voted_sound e cfg cfg "/prepare" t o ks tab w (or_introl eq_refl) Hs Hfresh)
      as (Hco & Hs1 & Hv).
    pose proof (voting_agrees _ _ Hv) as Hag.
    set (tl := collect_votes e cfg "/prepare" t o w) in *.
    set (d := if all_yes tl then "COMMIT" else "ABORT") in *.
    exists d.
    pose proof (decided_sound cfg _ _ t d _ Hs1 Hin Hf (all_yes_valid _) Hag) as Hs3.
    assert (Htd : (t, d) ∈ tab ++ [(t, d)]).
    { apply elem_of_app. right. by apply list_elem_of_singleton. }
    destruct (decided_sends_sound e cfg cfg (endpoint_of d) t d _ _ _
                Hs3 Htd (or_intror eq_refl)) as [Hs4 Hco4].
    split.
    + by apply store_done_sound.
    + apply store_done_settled; [|exact Hf].
      apply (settled_coord cfg tab w); [|exact Hset].
      by rewrite Hco4, coord_wal_append_TX, Hco.
Qed.

(** *** A start that is killed *)

Lemma start_killed_sound e cfg t o protocol cp ks tab w :
  sound cfg ks tab w -> t ∉ ks ->
  exists tab', sound cfg (t :: ks) tab' (start_killed e cfg t o protocol cp w).
Proof.
  intros Hs Hfresh.
  assert (Hf : t ∉ tab.*1) by (apply (fresh_key ks); [apply Hs|exact Hfresh]).
  assert (Hin : t ∈ t :: ks) by (apply elem_of_cons; by left).
  unfold start_killed. destruct (String.eqb _ "3PC").
  - destruct (voted_sound e cfg cfg "/can_commit" t o ks tab w (or_intror eq_refl) Hs Hfresh)
      as (Hco & Hs1 & Hv).
    pose proof (voting_agrees _ _ Hv) as Hag.
    destruct cp as [j | j | j]; simpl.
    + exists tab.
      by destruct (voted_sound e cfg (cut j cfg) "/can_commit" t o ks tab w
                     (or_intror eq_refl) Hs Hfresh) as (_ & Hs' & _).
    + exists tab. destruct (all_yes _); simpl; [|exact Hs1].
      by destruct (undecided_sends_sound e cfg (cut j cfg) "/precommit" t _ _ _ Hs1 Hin Hf).
    + set (tl := collect_votes e cfg "/can_commit" t o w) in *.
      destruct (all_yes tl) eqn:Hyes; simpl.
      * exists (tab ++ [(t, "COMMIT")]).
        destruct (undecided_sends_sound e cfg cfg "/precommit" t _ _ _ Hs1 Hin Hf)
          as [Hs2 Hco2].
        assert (Hag2 : agrees (send_all e cfg "/precommit" t (t_world tl)) t "COMMIT").
        { apply send_all_keeps; [|exact Hag].
          intros p w1 w2 res Hcall Ha1.
          apply (call_agrees _ _ _ _ _ _ _ _ _ Hcall); [by left|exact Ha1]. }
        pose proof (decided_sound cfg _ _ t "COMMIT" _ Hs2 Hin Hf (or_introl eq_refl) Hag2)
          as Hs3.
        assert (Htd : (t, "COMMIT") ∈ tab ++ [(t, "COMMIT")]).
        { apply elem_of_app. right. by apply list_elem_of_singleton. }
        by destruct (decided_sends_sound e cfg (cut j cfg) (endpoint_of "COMMIT") t "COMMIT"
                       _ _ _ Hs3 Htd (or_intror eq_refl)).
      * exists (tab ++ [(t, "ABORT")]).
        pose proof (decided_sound cfg _ _ t "ABORT" _ Hs1 Hin Hf (or_intror eq_refl) Hag)
          as Hs3.
        assert (Htd : (t, "ABORT") ∈ tab ++ [(t, "ABORT")]).
        { apply elem_of_app. right. by apply list_elem_of_singleton. }
        by destruct (decided_sends_sound e cfg (cut j cfg) (endpoint_of "ABORT") t "ABORT"
                       _ _ _ Hs3 Htd (or_intror eq_refl)).
  - destruct (voted_sound e cfg cfg "/prepare" t o ks tab w (or_introl eq_refl) Hs Hfresh)
      as (Hco & Hs1 & Hv).
    pose proof (voting_agrees _ _ Hv) as Hag.
    destruct cp as [j | j | j]; simpl.
    + exists tab.
      by destruct (voted_sound e cfg (cut j cfg) "/prepare" t o ks tab w
                     (or_introl eq_refl) Hs Hfresh) as (_ & Hs' & _).
    + by exists tab.
    + set (tl := collect_votes e cfg "/prepare" t o w) in *.
      set (d := if all_yes tl then "COMMIT" else "ABORT") in *.
      exists (tab ++ [(t, d)]).
      pose proof (decided_sound cfg _ _ t d _ Hs1 Hin Hf (all_yes_valid _) Hag) as Hs3.
      assert (Htd : (t, d) ∈ tab ++ [(t, d)]).
      { apply elem_of_app. right. by apply list_elem_of_singleton. }
      by destruct (decided_sends_sound e cfg (cut j cfg) (endpoint_of d) t d _ _ _
                     Hs3 Htd (or_intror eq_refl)).
Qed.

(** *** The retry loop *)

Lemma decision_test d :
  negb (String.eqb d "COMMIT" || String.eqb d "ABORT") = false -> valid_decision d.
Proof.
  intros H. apply negb_false_iff, orb_true_iff in H as [H | H];
    apply String.eqb_eq in H; [by left|by right].
Qed.

Lemma retry_rec_sound e cfg cfg' ks tab w k r :
  sound cfg ks tab w -> (k, r) ∈ TX (coord w) ->
  sound cfg ks tab (retry_rec e cfg' w r) /\ coord (retry_rec e cfg' w r) = coord w.
Proof.
  intros Hs Hin. unfold retry_rec.
  destruct (negb _) eqn:Hd; [done|]. apply decision_test in Hd.
  apply (decided_sends_sound _ _ _ _ _ (rec_decision r)); [exact Hs| |by right].
  by apply (sound_held _ _ _ _ Hs k r).
Qed.

Lemma retry_fold_sound e cfg ks tab recs : forall w,
  sound cfg ks tab w ->
  (forall r, r ∈ recs -> exists k, (k, r) ∈ TX (coord w)) ->
  sound cfg ks tab (fold_left (retry_rec e cfg) recs w)
  /\ coord (fold_left (retry_rec e cfg) recs w) = coord w.
Proof.
  induction recs as [|r recs IH]; intros w Hs Hrecs; simpl; [done|].
  destruct (Hrecs r) as [k Hin]; [apply elem_of_cons; by left|].
  destruct (retry_rec_sound e cfg cfg ks tab w k r Hs Hin) as [Hs' Hco'].
  destruct (IH (retry_rec e cfg w r) Hs') as [Hs'' Hco''].
  { intros r' Hr'. rewrite Hco'. apply Hrecs. apply elem_of_cons. by right. }
  split; [exact Hs''|]. by rewrite Hco''.
Qed.

Lemma values_held (tx : list (string * txrec)) r :
  r ∈ List.map snd tx -> exists k, (k, r) ∈ tx.
Proof.
  intros Hr. apply list_elem_of_fmap in Hr as ([k r'] & -> & Hin). by exists k.
Qed.

Lemma retry_pass_sound e cfg ks tab w :
  sound cfg ks tab w ->
  sound cfg ks tab (retry_pass e cfg w) /\ coord (retry_pass e cfg w) = coord w.
Proof.
  intros Hs. unfold retry_pass. apply retry_fold_sound; [exact Hs|].
  intros r Hr. by apply values_held.
Qed.

Lemma retry_killed_sound e cfg i j ks tab w :
  sound cfg ks tab w -> sound cfg ks tab (retry_killed e cfg i j w).
Proof.
  intros Hs. unfold retry_killed. cbv zeta.
  destruct (retry_fold_sound e cfg ks tab (take i (List.map snd (TX (coord w)))) w Hs)
    as [Hs1 Hco1].
  { intros r Hr. apply values_held. by apply (subseteq_take i). }
  destruct (List.map snd (TX (coord w)) !! i) as [r|] eqn:Hi; [|exact Hs1].
  destruct (negb _) eqn:Hd; [exact Hs1|]. apply decision_test in Hd.
  destruct (values_held (TX (coord w)) r) as [k Hin].
  { by apply list_elem_of_lookup_2 in Hi. }
  apply (decided_sends_sound e cfg (cut j cfg) _ _ (rec_decision r)); [exact Hs1| |by right].
  apply (sound_held _ _ _ _ Hs1 k r); [|exact Hd]. by rewrite Hco1.
Qed.

(** *** The coordinator starts again *)

Lemma recovered_decisions cfg tab : decisions (recovered_of cfg tab) = tab.
Proof.
  unfold decisions, recovered_of.
  induction tab as [|[t d] tab IH]; [done|]. rewrite !fmap_cons. simpl. by f_equal.
Qed.

Lemma reboot_sound cfg ks tab w :
  sound cfg ks tab w -> Forall (fun t => is_token t = true) ks ->
  exists w', reboot cfg w = Ok w' /\ sound cfg ks tab w' /\ settled cfg tab w'
             /\ log w' = log w /\ nodes w' = nodes w.
Proof.
  intros Hs Htok. pose proof Hs as [Ha Hk Hr Hh Hwal].
  unfold reboot. destruct (truthy (WAL_PATH cfg)) eqn:Hw.
  - assert (Htab : Forall (fun td => is_token td.1 = true /\ valid_decision td.2) tab).
    { apply Forall_forall. intros [t d] Hin. simpl. split.
      - rewrite Forall_forall in Htok. apply Htok. by apply (Hk t d).
      - by destruct (agreed_entry _ _ Ha t d Hin). }
    rewrite (main_wal_of cfg tab _ Hw Htab (agreed_nodup _ _ Ha) (Hwal eq_refl)). simpl.
    eexists. split; [reflexivity|]. split; [split|split; [|done]].
    + by apply agreed_set_coord.
    + exact Hk.
    + by apply rest_untouched_set_coord.
    + simpl. intros k r Hin _. unfold recovered_of in Hin.
      apply list_elem_of_fmap in Hin as ([t d] & [= -> ->] & Hin). exact Hin.
    + intros _. simpl. by apply Hwal.
    + intros _. simpl. split; [apply recovered_decisions|].
      unfold recovered_of. apply Forall_fmap. by apply Forall_forall.
  - unfold main, wal_replay. rewrite Hw. simpl.
    eexists. split; [reflexivity|]. split; [split|split; [|done]].
    + by apply agreed_set_coord.
    + exact Hk.
    + by apply rest_untouched_set_coord.
    + simpl. intros k r Hin. by apply elem_of_nil in Hin.
    + intros Hw'. by rewrite Hw in Hw'.
    + intros Hw'. by rewrite Hw in Hw'.
Qed.

(** *** Episodes *)

Lemma boot_sound cfg ns :
  (forall p n, ns !! p = Some n -> Participant.TX (node_st n) = ∅) ->
  sound cfg [] [] (boot ns) /\ settled cfg [] (boot ns).
Proof.
  intros Hempty. destruct (boot_consistent ns Hempty) as [Ha Hr _]. split; [split|].
  - exact Ha.
  - intros t d Hin. by apply elem_of_nil in Hin.
  - exact Hr.
  - simpl. intros k r Hin. by apply elem_of_nil in Hin.
  - done.
  - done.
Qed.

Lemma episode_sound e cfg ep ks tab w :
  sound cfg ks tab w -> settled cfg tab w ->
  Forall (fun t => is_token t = true) (begun ep ++ ks) ->
  NoDup (begun ep) -> (forall t, t ∈ begun ep -> t ∉ ks) ->
  exists w' tab',
    episode_step e cfg w ep = Ok w'
    /\ sound cfg (begun ep ++ ks) tab' w' /\ settled cfg tab' w'.
Proof.
  intros Hs Hset Htok Hnd Hfresh. destruct ep as [[t o protocol|] | | t o protocol cp | i j];
    simpl in *.
  - destruct (start_sound e cfg t o protocol ks tab w Hs Hset) as (d & Hs' & Hset').
    { apply Hfresh. apply elem_of_cons. by left. }
    by exists (fst (start e cfg t o protocol w)), (tab ++ [(t, d)]).
  - destruct (retry_pass_sound e cfg ks tab w Hs) as [Hs' Hco].
    exists (retry_pass e cfg w), tab. split; [done|]. split; [exact Hs'|].
    apply (settled_coord cfg tab w); [by rewrite Hco|exact Hset].
  - destruct (reboot_sound cfg ks tab w Hs Htok) as (w' & Hr & Hs' & Hset' & _).
    by exists w', tab.
  - destruct (start_killed_sound e cfg t o protocol cp ks tab w Hs) as (tab' & Hs').
    { apply Hfresh. apply elem_of_cons. by left. }
    destruct (reboot_sound cfg _ tab' _ Hs' Htok) as (w' & Hr & Hs'' & Hset' & _).
    by exists w', tab'.
  - pose proof (retry_killed_sound e cfg i j ks tab w Hs) as Hs'.
    destruct (reboot_sound cfg ks tab _ Hs' Htok) as (w' & Hr & Hs'' & Hset' & _).
    by exists w', tab.
Qed.

Lemma begun_NoDup ep : NoDup (begun ep).
Proof.
  destruct ep as [[t o protocol|] | | t o protocol cp | i j]; simpl;
    try apply NoDup_nil_2; apply NoDup_singleton.
Qed.

Lemma episodes_sound e cfg eps : forall ks tab w,
  sound cfg ks tab w -> settled cfg tab w ->
  Forall (fun t => is_token t = true) (begun_txids eps ++ ks) ->
  NoDup (begun_txids eps) -> (forall t, t ∈ begun_txids eps -> t ∉ ks) ->
  exists w' ks' tab',
    episodes e cfg w eps = Ok w' /\ sound cfg ks' tab' w' /\ settled cfg tab' w'.
Proof.
  induction eps as [|ep eps IH]; intros ks tab w Hs Hset Htok Hnd Hfresh.
  - by exists w, ks, tab.
  - unfold begun_txids in *. simpl in *.
    apply NoDup_app in Hnd as (Hnd1 & Hdis & Hnd2).
    rewrite <- app_assoc in Htok. apply Forall_app in Htok as [Htok1 Htok2].
    apply Forall_app in Htok2 as [Htok2 Htok3].
    destruct (episode_sound e cfg ep ks tab w Hs Hset) as (w1 & tab1 & Hstep & Hs1 & Hset1).
    { apply Forall_app. by split. }
    { exact Hnd1. }
    { intros t Hin. apply Hfresh. apply elem_of_app. by left. }
    rewrite Hstep. simpl.
    apply (IH (begun ep ++ ks) tab1 w1 Hs1 Hset1).
    + apply Forall_app. split; [exact Htok2|]. apply Forall_app. by split.
    + exact Hnd2.
    + intros t Hin Hin'. apply elem_of_app in Hin' as [Hin' | Hin'].
      * by apply (Hdis t Hin').
      * apply (Hfresh t); [|exact Hin']. apply elem_of_app. by right.
Qed.

Lemma sound_agreement cfg ks tab w txid d :
  sound cfg ks tab w -> valid_decision d ->
  CoordWal (decision_line txid d +:+ chr LF) ∈ log w ->
  (txid, d) ∈ tab /\ agrees w txid d.
Proof.
  intros [[Hnd Hent Hlines] _ _ _ _] Hv Hwal.
  destruct (Hlines _ Hwal) as (t' & d' & Hin & Heq).
  destruct (Hent t' d' Hin) as [Hv' Hag].
  destruct (decision_line_inj _ _ _ _ Hv Hv' Heq) as [<- <-]. done.
Qed.

End CrashFacts.

(** ** What the coordinator keeps across kills *)

Module CoordinatorLife.

Import Py Json Coordinator CoordinatorMain TextProps SystemProps CrashProps
  StringFacts LineFacts DecisionFacts EventFacts AgreementFacts CoordReplayFacts
  CrashFacts.

Local Open Scope list_scope.

Lemma boot_episodes e cfg ns eps :
  (forall p n, ns !! p = Some n -> Participant.TX (node_st n) = ∅) ->
  NoDup (begun_txids eps) ->
  Forall (fun t => is_token t = true) (begun_txids eps) ->
  exists w ks tab,
    episodes e cfg (boot ns) eps = Ok w /\ sound cfg ks tab w /\ settled cfg tab w.
Proof.
  intros Hempty Hnd Htok. destruct (boot_sound cfg ns Hempty) as [Hs Hset].
  apply (episodes_sound e cfg eps [] [] (boot ns) Hs Hset).
  - by rewrite app_nil_r.
  - exact Hnd.
  - intros t _ Hin. by apply elem_of_nil in Hin.
Qed.

(** X11: agreement holds across kills of the coordinator.  Start the system
    with empty participants; let the coordinator run starts and retry
    passes and be killed and started again at any point (while idle, after
    any number of calls of a start, after any number of calls of a retry
    pass), each txid being begun once and being one field (non-empty, no
    whitespace).  Every restart succeeds, and for a decision line
    [txid DECISION d] in the coordinator's WAL: no participant ever shows a
    terminal state other than the one of [d], acknowledges the other
    decision, or holds such a record at the end. *)
Theorem agreement_across_kills e cfg ns eps txid d :
  (forall p n, ns !! p = Some n -> Participant.TX (node_st n) = ∅) ->
  NoDup (begun_txids eps) ->
  Forall (fun t => is_token t = true) (begun_txids eps) ->
  valid_decision d ->
  exists w,
    episodes e cfg (boot ns) eps = Ok w
    /\ (CoordWal (decision_line txid d +:+ chr LF) ∈ log w ->
        (forall p path reply s,
            Served p path txid reply (Some s) ∈ log w ->
            Participant.terminal s = true -> s = terminal_of d)
        /\ (forall p path code payload st,
               Served p path txid (Ok (code, payload)) st ∈ log w ->
               path = "/commit" \/ path = "/abort" -> path = endpoint_of d)
        /\ (forall p n rec,
               nodes w !! p = Some n ->
               Participant.TX (node_st n) !! txid = Some rec ->
               Participant.terminal (Participant.state rec) = true ->
               Participant.state rec = terminal_of d)).
Proof.
  intros Hempty Hnd Htok Hv.
  destruct (boot_episodes e cfg ns eps Hempty Hnd Htok) as (w & ks & tab & Hrun & Hs & _).
  exists w. split; [exact Hrun|]. intros Hwal.
  destruct (sound_agreement cfg ks tab w txid d Hs Hv Hwal) as [_ [Hst Hsv]].
  split; [|split].
  - intros p path reply s Hin Hterm.
    destruct (Hsv p path reply (Some s) Hin) as [Hok _]. by apply Hok.
  - intros p path code payload st Hin Hack.
    destruct (Hsv p path (Ok (code, payload)) st Hin) as [_ Hok]. by apply Hok.
  - intros p n rec Hn Hrec Hterm. apply (Hst p); [|exact Hterm].
    unfold state_at. rewrite Hn. simpl. by rewrite Hrec.
Qed.

Lemma sample_episodes_txids : NoDup (begun_txids MoreSamples.sample_episodes).
Proof.
  change (NoDup ["t1"; "t2"]). apply NoDup_cons. split; [|apply NoDup_singleton].
  intros H. apply list_elem_of_singleton in H. discriminate H.
Qed.

Lemma sample_episodes_tokens :
  Forall (fun t => is_token t = true) (begun_txids MoreSamples.sample_episodes).
Proof. change (Forall (fun t => is_token t = true) ["t1"; "t2"]). by repeat constructor. Qed.

Lemma agreement_across_kills_witness :
  exists w,
    episodes Samples.env_ok Samples.cfg_coord (boot Samples.two_nodes)
      MoreSamples.sample_episodes = Ok w
    /\ (CoordWal (decision_line "t1" "COMMIT" +:+ chr LF) ∈ log w ->
        (forall p path reply s,
            Served p path "t1" reply (Some s) ∈ log w ->
            Participant.terminal s = true -> s = terminal_of "COMMIT")
        /\ (forall p path code payload st,
               Served p path "t1" (Ok (code, payload)) st ∈ log w ->
               path = "/commit" \/ path = "/abort" -> path = endpoint_of "COMMIT")
        /\ (forall p n rec,
               nodes w !! p = Some n ->
               Participant.TX (node_st n) !! "t1" = Some rec ->
               Participant.terminal (Participant.state rec) = true ->
               Participant.state rec = terminal_of "COMMIT")).
Proof.
  exact (agreement_across_kills Samples.env_ok Samples.cfg_coord Samples.two_nodes
           MoreSamples.sample_episodes "t1" "COMMIT" two_nodes_empty
           sample_episodes_txids sample_episodes_tokens (or_introl eq_refl)).
Defined.

(** X12: a logged decision is not forgotten.  Under the same conditions and
    with a WAL path, whenever the coordinator is between two episodes (also
    right after it was killed in the middle of a dispatch and started
    again), [TX] holds, under the txid of every decision line of the WAL, a
    record with that txid and that decision; so the next pass of the retry
    loop sends that decision, and no other, to the participants. *)
Theorem logged_decisions_are_held e cfg ns eps :
  (forall p n, ns !! p = Some n -> Participant.TX (node_st n) = ∅) ->
  NoDup (begun_txids eps) ->
  Forall (fun t => is_token t = true) (begun_txids eps) ->
  truthy (WAL_PATH cfg) = true ->
  exists w,
    episodes e cfg (boot ns) eps = Ok w
    /\ forall t d,
         valid_decision d ->
         CoordWal (decision_line t d +:+ chr LF) ∈ log w ->
         exists r,
           dict_get (TX (coord w)) t = Some r
           /\ rec_txid r = t /\ rec_decision r = d
           /\ forall w1, retry_rec e cfg w1 r = send_all e cfg (endpoint_of d) t w1.
Proof.
  intros Hempty Hnd Htok Hw.
  destruct (boot_episodes e cfg ns eps Hempty Hnd Htok)
    as (w & ks & tab & Hrun & Hs & Hset).
  exists w. split; [exact Hrun|]. intros t d Hv Hwal.
  destruct (sound_agreement cfg ks tab w t d Hs Hv Hwal) as [Hin _].
  destruct (Hset Hw) as [Hdec Hid].
  rewrite <- Hdec in Hin. unfold decisions in Hin.
  apply list_elem_of_fmap in Hin as ([k r] & [= -> ->] & Hin).
  exists r. simpl. rewrite Forall_forall in Hid. pose proof (Hid (k, r) Hin) as Hk.
  simpl in Hk. split; [|split; [exact Hk|split; [done|]]].
  - apply dict_get_elem; [|exact Hin].
    rewrite <- decisions_keys, Hdec. apply (agreed_nodup _ _ (sound_agreed _ _ _ _ Hs)).
  - intros w1. unfold retry_rec. rewrite Hk.
    by destruct Hv as [-> | ->].
Qed.

Lemma logged_decisions_are_held_witness :
  exists w,
    episodes Samples.env_ok Samples.cfg_coord (boot Samples.two_nodes)
      MoreSamples.sample_episodes = Ok w
    /\ forall t d,
         valid_decision d ->
         CoordWal (decision_line t d +:+ chr LF) ∈ log w ->
         exists r,
           dict_get (TX (coord w)) t = Some r
           /\ rec_txid r = t /\ rec_decision r = d
           /\ forall w1, retry_rec Samples.env_ok Samples.cfg_coord w1 r
                         = send_all Samples.env_ok Samples.cfg_coord (endpoint_of d) t w1.
Proof.
  exact (logged_decisions_are_held Samples.env_ok Samples.cfg_coord Samples.two_nodes
           MoreSamples.sample_episodes two_nodes_empty
           sample_episodes_txids sample_episodes_tokens eq_refl).
Defined.

(** The sample episodes: the decision of [t1] is logged before the kill, one
    participant misses it, and the retry pass of the new process brings it;
    [t2] is aborted. *)
Example sample_episodes_end :
  exists w,
    episodes Samples.env_ok Samples.cfg_coord (boot Samples.two_nodes)
      MoreSamples.sample_episodes = Ok w
    /\ decisions (TX (coord w)) = [("t1", "COMMIT"); ("t2", "ABORT")]
    /\ state_at w Samples.url1 "t1" = Some Participant.COMMITTED
    /\ state_at w Samples.url2 "t1" = Some Participant.COMMITTED
    /\ state_at w Samples.url2 "t2" = Some Participant.ABORTED.
Proof. eexists. split; [vm_compute; reflexivity|]. vm_compute. done. Qed.

End CoordinatorLife.

(** ** The coordinator: lines that stop the replay, the retry loop, the
    list of participants *)

Module CoordinatorFacts.

Import Py Json Coordinator CoordinatorMain TextProps SystemProps CrashProps
  DeliveryProps StringFacts LineFacts DecisionFacts EventFacts CoordReplayFacts.

Local Open Scope list_scope.

(** *** Lines that stop the replay *)

Lemma coord_replay_lines_stop cfg l lines : forall tx,
  (forall tx', replay_line cfg l tx' = Raise IndexError) ->
  l ∈ lines -> is_ok (replay_lines cfg lines tx) = false.
Proof.
  induction lines as [|l' lines IH]; intros tx Hl Hin.
  - by apply elem_of_nil in Hin.
  - simpl. apply elem_of_cons in Hin as [<- | Hin].
    + by rewrite Hl.
    + destruct (replay_line cfg l' tx) as [tx'|]; [|done]. simpl. by apply IH.
Qed.

Lemma short_line_raises cfg l tx :
  all_chars is_space l = true
  \/ is_token (strip l) = true
  \/ (exists t, is_token t = true /\ strip l = t +:+ " DECISION") ->
  replay_line cfg l tx = Raise IndexError.
Proof.
  unfold replay_line. intros [Hb | [Ht | (t & Ht & Heq)]].
  - unfold strip. by rewrite (lstrip_blank l Hb).
  - unfold split_ws. by rewrite (split_ws_go_last _ Ht).
  - rewrite Heq. unfold split_ws.
    change (t +:+ " DECISION") with (t +:+ String SP "DECISION").
    by rewrite (split_ws_go_token t SP _ Ht eq_refl).
Qed.

(** X14: a short line stops the coordinator.  [wal_replay] reads [parts[0]]
    and [parts[1]] of every line without a test, and [parts[2]] of a
    [DECISION] line: a WAL with a blank line, a line of one field, or a line
    [t DECISION] without a decision makes it raise [IndexError], so [main]
    ends and the coordinator does not start. *)
Theorem short_line_stops_coordinator cfg content l :
  truthy (WAL_PATH cfg) = true ->
  l ∈ readlines content ->
  all_chars is_space l = true
  \/ is_token (strip l) = true
  \/ (exists t, is_token t = true /\ strip l = t +:+ " DECISION") ->
  (forall tx, replay_line cfg l tx = Raise IndexError)
  /\ is_ok (main cfg (Some content)) = false.
Proof.
  intros Hw Hin Hl. split; [intros; by apply short_line_raises|].
  unfold main, wal_replay. rewrite Hw. simpl.
  destruct (replay_lines cfg (readlines content) []) eqn:Hr; [|done].
  pose proof (coord_replay_lines_stop cfg l (readlines content) []
                (fun tx => short_line_raises cfg l tx Hl) Hin) as Hs.
  by rewrite Hr in Hs.
Qed.

Lemma short_line_stops_coordinator_witness :
  is_ok (main Samples.cfg_coord (Some ("t1 DECISION COMMIT" +:+ chr LF +:+ chr LF)))
  = false.
Proof.
  apply (short_line_stops_coordinator Samples.cfg_coord
           ("t1 DECISION COMMIT" +:+ chr LF +:+ chr LF) (chr LF) eq_refl).
  - apply list_elem_of_lookup. exists 1%nat. reflexivity.
  - left. reflexivity.
Defined.

(** *** The retry loop *)

Lemma about_repeats tx k r ev :
  (k, r) ∈ tx -> valid_decision (rec_decision r) ->
  about (endpoint_of (rec_decision r)) (rec_txid r) ev -> repeats tx ev.
Proof.
  intros Hin Hv. destruct ev as [text | p path t | p ev | p path t reply st]; simpl;
    try done; intros [-> ->]; by exists k, r.
Qed.

Lemma retry_fold_repeats e cfg tx recs : forall w,
  (forall r, r ∈ recs -> exists k, (k, r) ∈ tx) ->
  coord (fold_left (retry_rec e cfg) recs w) = coord w
  /\ exists evs,
       log (fold_left (retry_rec e cfg) recs w) = log w ++ evs
       /\ Forall (repeats tx) evs.
Proof.
  induction recs as [|r recs IH]; intros w Hrecs; simpl.
  - split; [done|]. exists []. by rewrite app_nil_r.
  - destruct (IH (retry_rec e cfg w r)) as (Hco & evs2 & Hlog2 & Hev2).
    { intros r' Hr'. apply Hrecs. apply elem_of_cons. by right. }
    destruct (Hrecs r) as [k Hin]; [apply elem_of_cons; by left|].
    assert (H1 : coord (retry_rec e cfg w r) = coord w
                 /\ exists evs1, log (retry_rec e cfg w r) = log w ++ evs1
                                 /\ Forall (repeats tx) evs1).
    { unfold retry_rec. destruct (negb _) eqn:Hd.
      - split; [done|]. exists []. by rewrite app_nil_r.
      - apply CrashFacts.decision_test in Hd. split; [apply send_all_coord|].
        destruct (send_all_events e (endpoint_of (rec_decision r)) (rec_txid r)
                    (PARTICIPANTS cfg) w) as (evs1 & Hlog1 & Hev1).
        exists evs1. split; [exact Hlog1|].
        eapply Forall_impl; [exact Hev1|]. intros ev. by apply (about_repeats tx k r). }
    destruct H1 as (Hco1 & evs1 & Hlog1 & Hev1).
    split; [by rewrite Hco|]. exists (evs1 ++ evs2). split.
    + by rewrite Hlog2, Hlog1, app_assoc.
    + by apply Forall_app.
Qed.

(** X15: the retry loop only repeats decisions.  A pass of [retry_loop]
    leaves the coordinator's [TX] and WAL as they are, writes nothing to the
    WAL, and every request that it sends is [/commit] or [/abort] for the
    txid of a record of [TX] that holds that decision ([COMMIT] or
    [ABORT]); records with another decision are skipped. *)
Theorem retry_only_repeats_decisions e cfg w :
  coord (retry_pass e cfg w) = coord w
  /\ exists evs,
       log (retry_pass e cfg w) = log w ++ evs
       /\ Forall (repeats (TX (coord w))) evs.
Proof.
  unfold retry_pass. apply retry_fold_repeats.
  intros r Hr. by apply CrashFacts.values_held.
Qed.

(** *** The list of participants *)

Lemma split_enough sep l : forall n,
  l <> [] ->
  Forall (fun u => all_chars (fun c => negb (Ascii.eqb c sep)) u = true) l ->
  (length l <= S n)%nat ->
  split sep (join (chr sep) l) n = l.
Proof.
  induction l as [|x l IH]; intros n Hne Hl Hn; [done|].
  apply Forall_cons in Hl as [Hx Hl].
  destruct l as [|y l].
  - simpl. by apply ProcessFacts.split_one_field.
  - change (join (chr sep) (x :: y :: l))
      with (x +:+ chr sep +:+ join (chr sep) (y :: l)).
    change (chr sep +:+ join (chr sep) (y :: l))
      with (String sep (join (chr sep) (y :: l))).
    destruct n as [|n]; [simpl in Hn; lia|].
    rewrite (split_head sep x _ n Hx). f_equal.
    apply IH; [done|exact Hl|]. simpl in *. lia.
Qed.

Lemma join_length sep l :
  (length l <= S (String.length (join (chr sep) l)))%nat.
Proof.
  induction l as [|x l IH]; [simpl; lia|].
  destruct l as [|y l]; [simpl; lia|].
  change (join (chr sep) (x :: y :: l))
    with (x +:+ String sep (join (chr sep) (y :: l))).
  rewrite RoundtripFacts.string_length_app. simpl in *. lia.
Qed.

Lemma split_nonempty sep s n : split sep s n <> [].
Proof.
  revert n. induction s as [|c s IH]; intros n; [done|].
  simpl. destruct n as [|m]; [done|].
  destruct (Ascii.eqb c sep); [done|].
  by destruct (split sep s (S m)).
Qed.

(** X16: the list of participants read from the command line.  [main] cuts
    the argument at the commas and strips every piece: the list is never
    empty (an empty argument gives one empty URL), and an argument made by
    joining URLs without commas with [","] is read back as these URLs,
    stripped. *)
Theorem parse_participants_reads_back :
  (forall arg, parse_participants arg <> [])
  /\ (forall urls,
         urls <> [] ->
         Forall (fun u => all_chars (fun c => negb (Ascii.eqb c ",")) u = true) urls ->
         parse_participants (join "," urls) = List.map strip urls).
Proof.
  split.
  - intros arg. unfold parse_participants, split_all.
    pose proof (split_nonempty "," arg (String.length arg)) as H.
    by destruct (split "," arg (String.length arg)).
  - intros urls Hne Hl. unfold parse_participants, split_all.
    change ","%string with (chr ","). rewrite (split_enough "," urls); [done..|].
    apply join_length.
Qed.

Lemma parse_participants_reads_back_witness :
  parse_participants (join "," [Samples.url1; Samples.url2])
  = List.map strip [Samples.url1; Samples.url2].
Proof.
  apply (proj2 parse_participants_reads_back); [done|by repeat constructor].
Defined.

Example parse_two_participants :
  parse_participants "http://127.0.0.1:8001, http://127.0.0.1:8002"
  = [Samples.url1; Samples.url2].
Proof. reflexivity. Qed.

End CoordinatorFacts.

(** ** What a start does to the participants *)

Module DeliverySteps.

Import Py Json Participant ParticipantProps ParticipantFacts DeliveryProps.

Local Open Scope list_scope.




Lemma later_keeps_op cfg now path t b o st :
  path = "/precommit" \/ path = "/commit" ->
  has_op t o st ->
  has_op t o (out_state (do_POST cfg now path {| body_txid := t; body_op := b |} st)).
Proof.
  intros [-> | ->] (rec & Hrec & Hop).
  - rewrite do_POST_precommit. cbn [body_txid]. rewrite Hrec.
    unfold replied; cbn [out_state fst]. unfold has_op. wal_simpl.
    eexists. rewrite lookup_insert_eq. done.
  - rewrite do_POST_commit. cbn [body_txid]. rewrite Hrec.
    destruct (apply_op _ _); [|by exists rec].
    unfold replied; cbn [out_state fst]. unfold has_op. wal_simpl.
    eexists. rewrite lookup_insert_eq. done.
Qed.



Lemma abort_takes cfg now t b st :
  has_aborted t
    (out_state (do_POST cfg now "/abort" {| body_txid := t; body_op := b |} st)).
Proof.
  rewrite do_POST_abort. cbn [body_txid].
  unfold replied; cbn [out_state fst]. unfold has_aborted. wal_simpl.
  eexists. rewrite lookup_insert_eq. done.
Qed.

Lemma yes_vote_valid valid : eq_str (JStr (vote_of valid)) "YES" = true -> valid = true.
Proof. by destruct valid. Qed.


End DeliverySteps.

Module DeliveryFacts.

Import Py Json Coordinator CoordinatorMain SystemProps DeliveryProps
  DecisionFacts EventFacts DeliverySteps.

Local Open Scope list_scope.

(** *** One call *)

Lemma post_json_nodes e p path payload w :
  nodes (fst (post_json e p path payload w))
  = match net e (calls w), nodes w !! p with
    | Delivered _, Some n =>
        <[p := {| node_cfg := node_cfg n;
                  node_st := Participant.out_state
                               (Participant.do_POST (node_cfg n) (clock e (calls w))
                                  path payload (node_st n)) |}]> (nodes w)
    | _, _ => nodes w
    end.
Proof.
  unfold post_json.
  destruct (net e (calls w)) as [|ms]; [done|].
  destruct (nodes w !! p) as [n|]; [|done].
  destruct (Participant.out_reply _) as [[code resp]|]; [|done].
  destruct (timed_out ms); [done|]. by destruct (_ && _).
Qed.


Lemma post_json_sat e p path payload w q R :
  (forall cfg now st,
      R st -> R (Participant.out_state (Participant.do_POST cfg now path payload st))) ->
  at_node w q R -> at_node (fst (post_json e p path payload w)) q R.
Proof.
  intros Hkeep (n & Hn & HR). unfold at_node. rewrite post_json_nodes.
  destruct (net e (calls w)) as [|ms]; [by exists n|].
  destruct (nodes w !! p) as [np|] eqn:Hp; [|by exists n].
  destruct (decide (p = q)) as [-> | Hne].
  - rewrite lookup_insert_eq. eexists. split; [done|]. simpl.
    rewrite Hp in Hn. injection Hn as ->. by apply Hkeep.
  - rewrite lookup_insert_ne by done. by exists n.
Qed.

Lemma post_json_reach e p path payload w R0 R :
  timely e (calls w) ->
  (forall cfg now st,
      R0 st -> R (Participant.out_state (Participant.do_POST cfg now path payload st))) ->
  at_node w p R0 -> at_node (fst (post_json e p path payload w)) p R.
Proof.
  intros (ms & Hnet & _) Htake (n & Hn & HR). unfold at_node.
  rewrite post_json_nodes, Hnet, Hn.
  rewrite lookup_insert_eq. eexists. split; [done|]. simpl. by apply Htake.
Qed.


(** *** The loops *)

Lemma sends_sat e path t ps q R : forall w,
  (forall cfg' now st,
      R st ->
      R (Participant.out_state
           (Participant.do_POST cfg' now path
              {| Participant.body_txid := t; Participant.body_op := None |} st))) ->
  at_node w q R -> at_node (fold_left (send_step e path t) ps w) q R.
Proof.
  induction ps as [|p ps IH]; intros w Hkeep Hw; simpl; [done|].
  apply IH; [exact Hkeep|]. unfold send_step. by apply post_json_sat.
Qed.

Lemma send_all_sat e cfg path t w q R :
  (forall cfg' now st,
      R st ->
      R (Participant.out_state
           (Participant.do_POST cfg' now path
              {| Participant.body_txid := t; Participant.body_op := None |} st))) ->
  at_node w q R -> at_node (send_all e cfg path t w) q R.
Proof. apply sends_sat. Qed.

Lemma send_all_calls e cfg path t w :
  calls (send_all e cfg path t w) = (calls w + length (PARTICIPANTS cfg))%nat.
Proof.
  unfold send_all. generalize (PARTICIPANTS cfg) as ps.
  intros ps. revert w. induction ps as [|p ps IH]; intros w; simpl; [lia|].
  rewrite IH. unfold send_step. rewrite post_json_calls. lia.
Qed.


Lemma sends_reach e path t ps R0 R p : forall w,
  (forall i, (calls w <= i)%nat -> timely e i) ->
  (forall cfg' now st,
      R0 st ->
      R (Participant.out_state
           (Participant.do_POST cfg' now path
              {| Participant.body_txid := t; Participant.body_op := None |} st))) ->
  (forall cfg' now st,
      R0 st ->
      R0 (Participant.out_state
            (Participant.do_POST cfg' now path
               {| Participant.body_txid := t; Participant.body_op := None |} st))) ->
  (forall cfg' now st,
      R st ->
      R (Participant.out_state
           (Participant.do_POST cfg' now path
              {| Participant.body_txid := t; Participant.body_op := None |} st))) ->
  at_node w p R0 -> p ∈ ps ->
  at_node (fold_left (send_step e path t) ps w) p R.
Proof.
  induction ps as [|p0 ps IH]; intros w Hnet Htake Hkeep0 Hkeep H0 Hp; simpl.
  - by apply elem_of_nil in Hp.
  - destruct (decide (p0 = p)) as [-> | Hne].
    + apply sends_sat; [exact Hkeep|]. unfold send_step.
      apply (post_json_reach _ _ _ _ _ R0); [|exact Htake|exact H0].
      apply Hnet. lia.
    + apply elem_of_cons in Hp as [-> | Hp]; [done|].
      apply IH; try done.
      * intros i Hi. apply Hnet. unfold send_step in Hi.
        rewrite post_json_calls in Hi. lia.
      * unfold send_step. by apply post_json_sat.
Qed.

Lemma send_all_reach e cfg path t w R0 R p :
  (forall i, (calls w <= i)%nat -> timely e i) ->
  (forall cfg' now st,
      R0 st ->
      R (Participant.out_state
           (Participant.do_POST cfg' now path
              {| Participant.body_txid := t; Participant.body_op := None |} st))) ->
  (forall cfg' now st,
      R0 st ->
      R0 (Participant.out_state
            (Participant.do_POST cfg' now path
               {| Participant.body_txid := t; Participant.body_op := None |} st))) ->
  (forall cfg' now st,
      R st ->
      R (Participant.out_state
           (Participant.do_POST cfg' now path
              {| Participant.body_txid := t; Participant.body_op := None |} st))) ->
  at_node w p R0 -> p ∈ PARTICIPANTS cfg ->
  at_node (send_all e cfg path t w) p R.
Proof. apply sends_reach. Qed.

(** *** The voting loop *)




Lemma votes_calls e path t o ps : forall tl,
  calls (t_world (fold_left (vote_step e path t o) ps tl))
  = (calls (t_world tl) + length ps)%nat.
Proof.
  induction ps as [|p ps IH]; intros tl; simpl; [lia|].
  rewrite IH, vote_step_world, post_json_calls. lia.
Qed.





Lemma wal_append_calls cfg line w : calls (wal_append cfg line w) = calls w.
Proof. unfold wal_append. by destruct (negb _). Qed.



(** *** A decision that reaches the participants *)






(** X19: the calls of a start.  A start calls every participant of the list
    once for its vote and once with the decision, and a 3PC that commits
    calls each once more with [/precommit] in between: [2 n] calls, or
    [3 n]. *)
Theorem start_call_count e cfg t o protocol w :
  let n := length (PARTICIPANTS cfg) in
  let w' := fst (start e cfg t o protocol w) in
  let d := o_decision (snd (start e cfg t o protocol w)) in
  calls w'
  = (calls w
     + (if String.eqb (upper (default "2PC" protocol)) "3PC" && String.eqb d "COMMIT"
        then 3 * n else 2 * n))%nat.
Proof.
  cbv zeta. unfold start. destruct (String.eqb _ "3PC"); simpl.
  - unfold three_pc. cbv zeta. destruct (all_yes _); simpl;
      rewrite !send_all_calls, ?wal_append_calls, ?send_all_calls;
      unfold collect_votes; rewrite votes_calls; simpl; lia.
  - unfold two_pc. cbv zeta. simpl.
    rewrite send_all_calls, wal_append_calls. unfold collect_votes.
    rewrite votes_calls. simpl. lia.
Qed.

End DeliveryFacts.

(** ** A participant without a WAL path *)

Module NoWalFacts.

Import Py Json Participant Samples ParticipantProps ParticipantFacts ProcessProps
  ParticipantMain.

Local Open Scope list_scope.

Lemma wal_append_off cfg line st :
  truthy (WAL_PATH cfg) = false -> wal_append cfg line st = (st, []).
Proof. intros Hw. unfold wal_append. by rewrite Hw. Qed.

Lemma serve_no_wal cfg st r :
  truthy (WAL_PATH cfg) = false -> wal (serve cfg st r) = wal st.
Proof.
  intros Hw. unfold serve. destruct r as [now path b]. cbn [req_time req_path req_body].
  by_path path.
  - rewrite do_POST_prepare. destruct (body_op b) as [o|]; [|done].
    destruct (validate_op o); [|done]. by rewrite wal_append_off.
  - rewrite do_POST_commit. destruct (TX st !! body_txid b) as [rec|]; [|done].
    destruct (apply_op _ _); [|done]. by rewrite wal_append_off.
  - rewrite do_POST_abort. by rewrite wal_append_off.
  - rewrite do_POST_can_commit. destruct (body_op b) as [o|]; [|done].
    destruct (validate_op o); [|done]. by rewrite wal_append_off.
  - rewrite do_POST_precommit. destruct (TX st !! body_txid b) as [rec|]; [|done].
    by rewrite wal_append_off.
  - rewrite do_POST_other; [done|]. unfold endpoint. tauto.
Qed.

Lemma restart_no_wal cfg clock st :
  truthy (WAL_PATH cfg) = false -> restart cfg clock st = Ok (initial (wal st)).
Proof. intros Hw. unfold restart, main, wal_replay. by rewrite Hw. Qed.

Lemma life_no_wal cfg hs : forall st,
  truthy (WAL_PATH cfg) = false ->
  exists st', life cfg st hs = Ok st' /\ wal st' = wal st.
Proof.
  induction hs as [|[r | clock] hs IH]; intros st Hw; simpl.
  - by exists st.
  - destruct (IH (serve cfg st r) Hw) as (st' & Hl & Hwal).
    exists st'. split; [done|]. by rewrite Hwal, serve_no_wal.
  - rewrite (restart_no_wal _ _ _ Hw). simpl.
    destruct (IH (initial (wal st)) Hw) as (st' & Hl & Hwal). by exists st'.
Qed.

Lemma life_app cfg hs1 hs2 : forall st,
  life cfg st (hs1 ++ hs2) = let* st' := life cfg st hs1 in life cfg st' hs2.
Proof.
  induction hs1 as [|[r | clock] hs1 IH]; intros st; simpl; [done|apply IH|].
  destruct (restart cfg clock st); simpl; [apply IH|done].
Qed.

Lemma life_requests cfg reqs : forall st,
  life cfg st (Request <$> reqs) = Ok (serve_all cfg st reqs).
Proof. induction reqs as [|r reqs IH]; intros st; simpl; [done|apply IH]. Qed.

(** X9: without a WAL path, a kill forgets everything.  The participant's
    default [--wal ""] gives no WAL path; then no request writes a record,
    every restart succeeds with empty tables, and the process is where the
    requests served since the last kill alone would have brought it. *)
Theorem without_wal_a_kill_forgets cfg clock hs reqs :
  truthy (WAL_PATH cfg) = false ->
  (forall id, WAL_PATH (config_of id EmptyString) = None)
  /\ life cfg (initial None) (hs ++ Kill clock :: (Request <$> reqs))
     = Ok (serve_all cfg (initial None) reqs).
Proof.
  intros Hw. split; [done|]. rewrite life_app.
  destruct (life_no_wal cfg hs (initial None) Hw) as (st & -> & Hwal). simpl.
  rewrite (restart_no_wal _ _ _ Hw), Hwal. simpl. apply life_requests.
Qed.

Lemma without_wal_a_kill_forgets_witness :
  life cfg_nowal (initial None)
    ([Request MoreSamples.prepare_t1] ++ Kill (fun _ => 0) :: (Request <$> []))
  = Ok (serve_all cfg_nowal (initial None) []).
Proof.
  apply (without_wal_a_kill_forgets cfg_nowal (fun _ => 0)
           [Request MoreSamples.prepare_t1] []).
  reflexivity.
Defined.

End NoWalFacts.

(** ** The retry loop brings a logged decision *)

Module RetrySteps.

Import Py Json Participant ParticipantProps ParticipantFacts DeliveryProps.

Local Open Scope list_scope.

Lemma other_txid_record cfg now path b st t :
  body_txid b <> t ->
  TX (out_state (do_POST cfg now path b st)) !! t = TX st !! t.
Proof. intros Hne. apply AgreementFacts.do_POST_other_txid. congruence. Qed.

Lemma commit_takes_record cfg now t b o st :
  applies o -> has_op t o st ->
  has_record t COMMITTED o
    (out_state (do_POST cfg now "/commit" {| body_txid := t; body_op := b |} st)).
Proof.
  intros Hap (rec & Hrec & Hop). rewrite do_POST_commit. cbn [body_txid].
  rewrite Hrec, Hop. pose proof (Hap (kv st)) as Hok.
  destruct (apply_op o (kv st)) as [store|]; [|discriminate].
  unfold replied; cbn [out_state fst]. unfold has_record. wal_simpl.
  eexists. rewrite lookup_insert_eq. by rewrite <- Hop.
Qed.

Lemma record_has_op t s o st : has_record t s o st -> has_op t o st.
Proof. intros (rec & Hrec & _ & Hop). by exists rec. Qed.

End RetrySteps.

Module RetryFacts.

Import Py Json Coordinator CoordinatorMain SystemProps CrashProps DeliveryProps
  DecisionFacts EventFacts DeliverySteps DeliveryFacts RetrySteps CrashFacts.

Local Open Scope list_scope.

Lemma retry_rec_calls e cfg w r : (calls w <= calls (retry_rec e cfg w r))%nat.
Proof.
  unfold retry_rec. destruct (negb _); [lia|]. rewrite send_all_calls. lia.
Qed.

Lemma retry_fold_calls e cfg recs : forall w,
  (calls w <= calls (fold_left (retry_rec e cfg) recs w))%nat.
Proof.
  induction recs as [|r recs IH]; intros w; simpl; [lia|].
  pose proof (IH (retry_rec e cfg w r)). pose proof (retry_rec_calls e cfg w r). lia.
Qed.

(** A predicate on the state that the requests for the other txids keep. *)
Lemma retry_fold_other e cfg t recs q R : forall w,
  (forall r, r ∈ recs -> rec_txid r <> t) ->
  (forall cfg' now path b st,
      Participant.body_txid b <> t ->
      R st -> R (Participant.out_state (Participant.do_POST cfg' now path b st))) ->
  at_node w q R -> at_node (fold_left (retry_rec e cfg) recs w) q R.
Proof.
  induction recs as [|r recs IH]; intros w Hne Hkeep Hq; simpl; [done|].
  apply IH; [|exact Hkeep|].
  - intros r' Hr'. apply Hne. apply elem_of_cons. by right.
  - unfold retry_rec. destruct (negb _); [done|]. apply send_all_sat; [|exact Hq].
    intros cfg' now st. apply Hkeep. simpl. apply Hne. apply elem_of_cons. by left.
Qed.

Lemma other_keeps_op t o cfg' now path b st :
  Participant.body_txid b <> t -> has_op t o st ->
  has_op t o (Participant.out_state (Participant.do_POST cfg' now path b st)).
Proof.
  intros Hne (rec & Hrec & Hop). exists rec. by rewrite other_txid_record.
Qed.

Lemma other_keeps_record t s o cfg' now path b st :
  Participant.body_txid b <> t -> has_record t s o st ->
  has_record t s o (Participant.out_state (Participant.do_POST cfg' now path b st)).
Proof.
  intros Hne (rec & Hrec & Hop). exists rec. by rewrite other_txid_record.
Qed.

Lemma other_keeps_aborted t cfg' now path b st :
  Participant.body_txid b <> t -> has_aborted t st ->
  has_aborted t (Participant.out_state (Participant.do_POST cfg' now path b st)).
Proof.
  intros Hne (rec & Hrec & Hop). exists rec. by rewrite other_txid_record.
Qed.

(** The pass over a table that holds the decision [d] of [t] once, under
    [t], and the other records under other txids. *)
Lemma retry_pass_reach e cfg w t r d p R0 R :
  (t, r) ∈ TX (coord w) -> NoDup (TX (coord w)).*1 ->
  Forall (fun kr => rec_txid kr.2 = kr.1) (TX (coord w)) ->
  rec_decision r = d -> valid_decision d ->
  (forall i, (calls w <= i)%nat -> timely e i) ->
  p ∈ PARTICIPANTS cfg ->
  (forall cfg' now path b st,
      Participant.body_txid b <> t ->
      R0 st -> R0 (Participant.out_state (Participant.do_POST cfg' now path b st))) ->
  (forall cfg' now path b st,
      Participant.body_txid b <> t ->
      R st -> R (Participant.out_state (Participant.do_POST cfg' now path b st))) ->
  (forall cfg' now st,
      R0 st ->
      R (Participant.out_state
           (Participant.do_POST cfg' now (endpoint_of d)
              {| Participant.body_txid := t; Participant.body_op := None |} st))) ->
  (forall cfg' now st,
      R0 st ->
      R0 (Participant.out_state
            (Participant.do_POST cfg' now (endpoint_of d)
               {| Participant.body_txid := t; Participant.body_op := None |} st))) ->
  (forall cfg' now st,
      R st ->
      R (Participant.out_state
           (Participant.do_POST cfg' now (endpoint_of d)
              {| Participant.body_txid := t; Participant.body_op := None |} st))) ->
  at_node w p R0 -> at_node (retry_pass e cfg w) p R.
Proof.
  intros Hin Hnd Hid Hd Hv Hnet Hp Hother0 Hother Htake Hkeep0 Hkeep H0.
  apply list_elem_of_split in Hin as (l1 & l2 & Heq).
  unfold retry_pass. rewrite Heq in *. rewrite map_app, fold_left_app. simpl.
  rewrite fmap_app in Hnd. simpl in Hnd.
  apply NoDup_app in Hnd as (_ & Hdis & Hnd2). apply NoDup_cons in Hnd2 as [Hnot2 _].
  apply Forall_app in Hid as [Hid1 Hid2]. apply Forall_cons in Hid2 as [Hidr Hid2].
  simpl in Hidr.
  assert (Hne1 : forall r', r' ∈ List.map snd l1 -> rec_txid r' <> t).
  { intros r' Hr'. apply list_elem_of_fmap in Hr' as ([k r''] & -> & Hin').
    rewrite Forall_forall in Hid1. rewrite (Hid1 _ Hin'). simpl. intros ->.
    apply (Hdis t); [|apply elem_of_cons; by left].
    apply list_elem_of_fmap. by exists (t, r''). }
  assert (Hne2 : forall r', r' ∈ List.map snd l2 -> rec_txid r' <> t).
  { intros r' Hr'. apply list_elem_of_fmap in Hr' as ([k r''] & -> & Hin').
    rewrite Forall_forall in Hid2. rewrite (Hid2 _ Hin'). simpl. intros ->.
    apply Hnot2. apply list_elem_of_fmap. by exists (t, r''). }
  apply retry_fold_other with (t := t); [exact Hne2|exact Hother|].
  set (w1 := fold_left (retry_rec e cfg) (List.map snd l1) w).
  assert (H1 : at_node w1 p R0) by (by apply retry_fold_other with (t := t)).
  unfold retry_rec. rewrite Hd, Hidr.
  replace (negb (String.eqb d "COMMIT" || String.eqb d "ABORT")) with false
    by (by destruct Hv as [-> | ->]).
  apply (send_all_reach _ _ _ _ _ R0); try done.
  intros i Hi. apply Hnet. pose proof (retry_fold_calls e cfg (List.map snd l1) w).
  fold w1 in H. lia.
Qed.

(** X13: the retry loop brings a logged decision.  Under the conditions of
    the agreement across kills and with a WAL path, let no call ever be
    late (a request is answered within [TIMEOUT_S] or never reaches the
    participant), take the coordinator between two episodes and a decision
    line [t DECISION d] of its WAL.  If every call of the next pass of
    [retry_loop] is in time, then after the pass a participant of the list
    has the record of [t] [ABORTED] when [d] is [ABORT] (if there is a
    process behind it), and [COMMITTED] when [d] is [COMMIT] (if it holds
    the operation, and [apply_op] accepts it). *)
Theorem retry_brings_logged_decision e cfg ns eps w t d p :
  (forall q n, ns !! q = Some n -> Participant.TX (node_st n) = ∅) ->
  NoDup (begun_txids eps) ->
  Forall (fun k => is_token k = true) (begun_txids eps) ->
  truthy (WAL_PATH cfg) = true ->
  episodes e cfg (boot ns) eps = Ok w ->
  valid_decision d ->
  CoordWal (decision_line t d +:+ chr LF) ∈ log w ->
  never_late e ->
  (forall i, (calls w <= i)%nat -> timely e i) ->
  p ∈ PARTICIPANTS cfg ->
  (d = "ABORT" -> is_Some (nodes w !! p) ->
   at_node (retry_pass e cfg w) p (has_aborted t))
  /\ (d = "COMMIT" -> forall o,
        applies o -> at_node w p (has_op t o) ->
        at_node (retry_pass e cfg w) p (has_record t Participant.COMMITTED o)).
Proof.
  intros Hempty Hnd Htok Hw Hrun Hv Hwal _ Hnet Hp.
  destruct (CoordinatorLife.boot_episodes e cfg ns eps Hempty Hnd Htok)
    as (w' & ks & tab & Hrun' & Hs & Hset).
  rewrite Hrun in Hrun'. injection Hrun' as <-.
  destruct (sound_agreement cfg ks tab w t d Hs Hv Hwal) as [Hin _].
  destruct (Hset Hw) as [Hdec Hid].
  assert (Hkeys : NoDup (TX (coord w)).*1).
  { rewrite <- AgreementFacts.decisions_keys, Hdec.
    apply (agreed_nodup _ _ (sound_agreed _ _ _ _ Hs)). }
  rewrite <- Hdec in Hin. unfold decisions in Hin.
  apply list_elem_of_fmap in Hin as ([k r] & Heq & Hin). simpl in Heq.
  injection Heq as -> Hd. symmetry in Hd.
  split.
  - intros -> [n Hn].
    apply (retry_pass_reach e cfg w k r "ABORT" p (fun _ => True)); try done.
    + intros cfg' now path b st Hne. by apply other_keeps_aborted.
    + intros cfg' now st _. apply abort_takes.
    + intros cfg' now st _. apply abort_takes.
    + by exists n.
  - intros -> o Hap Hop.
    apply (retry_pass_reach e cfg w k r "COMMIT" p (has_op k o)); try done.
    + intros cfg' now path b st Hne. by apply other_keeps_op.
    + intros cfg' now path b st Hne. by apply other_keeps_record.
    + intros cfg' now st. by apply commit_takes_record.
    + intros cfg' now st. apply later_keeps_op. by right.
    + intros cfg' now st Hr. apply commit_takes_record; [exact Hap|].
      by apply (record_has_op k Participant.COMMITTED).
Qed.

Lemma world_after_kill_run :
  episodes Samples.env_ok Samples.cfg_coord (boot Samples.two_nodes)
    MoreSamples.killed_in_dispatch = Ok MoreSamples.world_after_kill.
Proof. vm_compute. reflexivity. Qed.

Lemma world_after_kill_logged :
  CoordWal (decision_line "t1" "COMMIT" +:+ chr LF) ∈ log MoreSamples.world_after_kill.
Proof. apply list_elem_of_lookup. exists 8%nat. vm_compute. reflexivity. Qed.

Lemma world_after_kill_holds :
  at_node MoreSamples.world_after_kill Samples.url2 (has_op "t1" Samples.op_set).
Proof.
  eexists. split; [vm_compute; reflexivity|].
  eexists. split; [vm_compute; reflexivity|reflexivity].
Qed.

Lemma killed_in_dispatch_txids : NoDup (begun_txids MoreSamples.killed_in_dispatch).
Proof. apply NoDup_singleton. Qed.

Lemma killed_in_dispatch_tokens :
  Forall (fun k => is_token k = true) (begun_txids MoreSamples.killed_in_dispatch).
Proof. change (Forall (fun k => is_token k = true) ["t1"]). by repeat constructor. Qed.

Lemma op_set_applies : applies Samples.op_set.
Proof. intros store. reflexivity. Qed.

Lemma retry_brings_logged_decision_witness :
  at_node (retry_pass Samples.env_ok Samples.cfg_coord MoreSamples.world_after_kill)
    Samples.url2 (has_record "t1" Participant.COMMITTED Samples.op_set).
Proof.
  assert (Hp : Samples.url2 ∈ PARTICIPANTS Samples.cfg_coord).
  { apply elem_of_cons. right. apply elem_of_cons. by left. }
  assert (Hnet : forall i, (calls MoreSamples.world_after_kill <= i)%nat ->
                           timely Samples.env_ok i).
  { intros i _. by exists 5. }
  assert (Hlate : never_late Samples.env_ok).
  { intros i ms [= <-]. reflexivity. }
  pose proof (retry_brings_logged_decision Samples.env_ok Samples.cfg_coord
                Samples.two_nodes MoreSamples.killed_in_dispatch
                MoreSamples.world_after_kill "t1" "COMMIT" Samples.url2
                AgreementFacts.two_nodes_empty killed_in_dispatch_txids
                killed_in_dispatch_tokens eq_refl world_after_kill_run
                (or_introl eq_refl) world_after_kill_logged Hlate Hnet Hp) as [_ H].
  exact (H eq_refl Samples.op_set op_set_applies world_after_kill_holds).
Defined.

End RetryFacts.

(** ** What a start sends and what it returns *)

Module StartFacts.

Import Py Json Coordinator CoordinatorMain SystemProps DeliveryProps
  DecisionFacts EventFacts.

Local Open Scope list_scope.

Lemma wal_append_log cfg line w :
  log (wal_append cfg line w)
  = log w ++ (if truthy (WAL_PATH cfg) then [CoordWal (line +:+ chr LF)] else []).
Proof.
  unfold wal_append. destruct (truthy (WAL_PATH cfg)); simpl; [done|].
  by rewrite app_nil_r.
Qed.

Lemma about_vote (three : bool) t d ev :
  about (if three then "/can_commit" else "/prepare") t ev -> of_protocol three t d ev.
Proof.
  destruct ev as [text | p path t' | p ev | p path t' reply st]; simpl; try done;
    intros [-> ->]; auto.
Qed.

Lemma about_decision (three : bool) t d ev :
  about (endpoint_of d) t ev -> of_protocol three t d ev.
Proof.
  destruct ev as [text | p path t' | p ev | p path t' reply st]; simpl; try done;
    intros [-> ->]; auto.
Qed.

Lemma about_precommit t ev :
  about "/precommit" t ev -> of_protocol true t "COMMIT" ev.
Proof.
  destruct ev as [text | p path t' | p ev | p path t' reply st]; simpl; try done;
    intros [-> ->]; (split; [done|]); right; left; done.
Qed.

Lemma logged_decision (three : bool) cfg t d :
  Forall (of_protocol three t d)
    (if truthy (WAL_PATH cfg) then [CoordWal (decision_line t d +:+ chr LF)] else []).
Proof. destruct (truthy _); by repeat constructor. Qed.

(** X20: a start sends only the requests of its protocol.  Everything a
    start adds to the history is about its txid: a 2PC sends [/prepare] and
    then the path of its decision, never [/can_commit] or [/precommit]; a
    3PC sends [/can_commit], [/precommit] only when it commits, and then the
    path of its decision, never [/prepare]; and the one line written to the
    WAL is the decision.  The protocol is 3PC when the ["protocol"] of the
    body is ["3PC"] in any case of the letters, and 2PC otherwise. *)
Theorem start_sends_only_its_protocol e cfg t o protocol w :
  let three := String.eqb (upper (default "2PC" protocol)) "3PC" in
  let d := o_decision (snd (start e cfg t o protocol w)) in
  exists evs,
    log (fst (start e cfg t o protocol w)) = log w ++ evs
    /\ Forall (of_protocol three t d) evs.
Proof.
  cbv zeta. unfold start. destruct (String.eqb _ "3PC").
  - unfold three_pc. cbv zeta.
    destruct (collect_votes_events e "/can_commit" t o (PARTICIPANTS cfg)
                {| t_world := w; votes := ∅; all_yes := true |})
      as (evs1 & Hlog1 & Hev1).
    fold (collect_votes e cfg "/can_commit" t o w) in Hlog1.
    set (tl := collect_votes e cfg "/can_commit" t o w) in *. simpl in Hlog1.
    destruct (all_yes tl); simpl.
    + destruct (send_all_events e "/precommit" t (PARTICIPANTS cfg) (t_world tl))
        as (evs2 & Hlog2 & Hev2).
      fold (send_all e cfg "/precommit" t (t_world tl)) in Hlog2.
      destruct (send_all_events e "/commit" t (PARTICIPANTS cfg)
                  (wal_append cfg (decision_line t "COMMIT")
                     (send_all e cfg "/precommit" t (t_world tl))))
        as (evs3 & Hlog3 & Hev3).
      fold (send_all e cfg "/commit" t
              (wal_append cfg (decision_line t "COMMIT")
                 (send_all e cfg "/precommit" t (t_world tl)))) in Hlog3.
      change (endpoint_of "COMMIT") with "/commit". eexists. split.
      * rewrite Hlog3, wal_append_log, Hlog2, Hlog1, <- !app_assoc. reflexivity.
      * repeat apply Forall_app_2.
        -- eapply Forall_impl; [exact Hev1|]. apply (about_vote true).
        -- eapply Forall_impl; [exact Hev2|]. apply about_precommit.
        -- apply logged_decision.
        -- eapply Forall_impl; [exact Hev3|]. apply (about_decision true t "COMMIT").
    + destruct (send_all_events e "/abort" t (PARTICIPANTS cfg)
                  (wal_append cfg (decision_line t "ABORT") (t_world tl)))
        as (evs3 & Hlog3 & Hev3).
      fold (send_all e cfg "/abort" t
              (wal_append cfg (decision_line t "ABORT") (t_world tl))) in Hlog3.
      change (endpoint_of "ABORT") with "/abort". eexists. split.
      * rewrite Hlog3, wal_append_log, Hlog1, <- !app_assoc. reflexivity.
      * repeat apply Forall_app_2.
        -- eapply Forall_impl; [exact Hev1|]. apply (about_vote true).
        -- apply logged_decision.
        -- eapply Forall_impl; [exact Hev3|]. apply (about_decision true t "ABORT").
  - unfold two_pc. cbv zeta. simpl.
    destruct (collect_votes_events e "/prepare" t o (PARTICIPANTS cfg)
                {| t_world := w; votes := ∅; all_yes := true |})
      as (evs1 & Hlog1 & Hev1).
    fold (collect_votes e cfg "/prepare" t o w) in Hlog1.
    set (tl := collect_votes e cfg "/prepare" t o w) in *. simpl in Hlog1.
    set (d := if all_yes tl then "COMMIT" else "ABORT").
    destruct (send_all_events e (endpoint_of d) t (PARTICIPANTS cfg)
                (wal_append cfg (decision_line t d) (t_world tl)))
      as (evs3 & Hlog3 & Hev3).
    fold (send_all e cfg (endpoint_of d) t
            (wal_append cfg (decision_line t d) (t_world tl))) in Hlog3.
    eexists. split.
    + rewrite Hlog3, wal_append_log, Hlog1, <- !app_assoc. reflexivity.
    + repeat apply Forall_app_2.
      * eapply Forall_impl; [exact Hev1|]. apply (about_vote false).
      * apply logged_decision.
      * eapply Forall_impl; [exact Hev3|]. apply (about_decision false t d).
Qed.

(** *** The votes returned to the client *)

Lemma votes_keys e path t o ps : forall tl q,
  is_Some (votes (fold_left (vote_step e path t o) ps tl) !! q)
  <-> is_Some (votes tl !! q) \/ q ∈ ps.
Proof.
  induction ps as [|p ps IH]; intros tl q; simpl.
  - split; [by left|]. intros [H | H]; [done|]. by apply elem_of_nil in H.
  - rewrite IH.
    destruct (vote_step_votes e path t o tl p) as (v & Hv & _). rewrite Hv.
    rewrite lookup_insert_is_Some, elem_of_cons.
    destruct (decide (p = q)) as [-> | Hne].
    + split; intros _; [right; by left|left; by left].
    + split.
      * intros [[Heq | [_ H]] | H]; [done|by left|right; by right].
      * intros [H | [Heq | H]]; [left; by right|by symmetry in Heq|by right].
Qed.

(** X21: the votes returned to the client.  The [votes] of the outcome of a
    start have an entry for every participant of the list and for nobody
    else, whatever the participants and the network did; with an empty list
    there are no votes and the decision is [COMMIT]. *)
Theorem votes_cover_participants e cfg t o protocol w :
  let out := snd (start e cfg t o protocol w) in
  (forall p, is_Some (o_votes out !! p) <-> p ∈ PARTICIPANTS cfg)
  /\ (PARTICIPANTS cfg = [] -> o_decision out = "COMMIT" /\ o_votes out = ∅).
Proof.
  cbv zeta. destruct (start_outcome e cfg t o protocol w) as (path & _ & ->). simpl.
  split.
  - intros p. unfold collect_votes. rewrite votes_keys. simpl.
    rewrite lookup_empty. split; [|by right].
    intros [[x Hx] | H]; [discriminate|done].
  - intros Hnil. unfold collect_votes. rewrite Hnil. done.
Qed.

End StartFacts.

(** ** Commits that are repeated, and the record of a start *)

Module RepeatFacts.

Import Py Json Participant Samples ParticipantProps ParticipantFacts HandlerFacts.

Local Open Scope list_scope.

Lemma commit_of_record cfg now t b kvs k v st rec :
  TX st !! t = Some rec -> op rec = JObj kvs ->
  validate_op (JObj kvs) = Ok true ->
  lookup kvs "key" = Some k -> lookup kvs "value" = Some v ->
  let r := do_POST cfg now "/commit" {| body_txid := t; body_op := b |} st in
  out_reply r = Ok (200, ok_true)
  /\ kv (out_state r) = <[str k := str v]> (kv st)
  /\ TX (out_state r) = <[t := set_state rec COMMITTED]> (TX st).
Proof.
  intros Hrec Hop Hv Hk Hval. cbv zeta.
  destruct (validate_op_type kvs Hv) as (ty & Hty & Hset).
  rewrite do_POST_commit. cbn [body_txid]. rewrite Hrec, Hop.
  unfold apply_op. rewrite Hty, Hset, Hval, Hk.
  unfold replied; cbn [out_state out_reply fst]. by wal_simpl.
Qed.

(** X22: a repeated commit writes its value again.  [/commit] does not
    look at the state of the record: it applies the operation of the record
    every time.  So when two transactions set the same key and both are
    committed, a [/commit] of the first one that arrives again (as the
    coordinator's retry loop sends it, pass after pass) replies 200 and puts
    the value of the first one back, over the one of the second. *)
Theorem repeated_commit_reverts_newer_value cfg now t1 t2 kvs1 kvs2 k v1 v2 st rec1 :
  t1 <> t2 ->
  TX st !! t1 = Some rec1 -> op rec1 = JObj kvs1 ->
  validate_op (JObj kvs1) = Ok true ->
  lookup kvs1 "key" = Some k -> lookup kvs1 "value" = Some v1 ->
  validate_op (JObj kvs2) = Ok true ->
  lookup kvs2 "key" = Some k -> lookup kvs2 "value" = Some v2 ->
  let s1 := out_state (do_POST cfg now "/commit" (only_txid t1) st) in
  let s2 := out_state (do_POST cfg now "/prepare" (with_op t2 (JObj kvs2)) s1) in
  let s3 := out_state (do_POST cfg now "/commit" (only_txid t2) s2) in
  let r := do_POST cfg now "/commit" (only_txid t1) s3 in
  kv s1 !! str k = Some (str v1)
  /\ kv s3 !! str k = Some (str v2)
  /\ out_reply r = Ok (200, ok_true)
  /\ kv (out_state r) !! str k = Some (str v1).
Proof.
  intros Hne Hrec Hop Hv1 Hk1 Hval1 Hv2 Hk2 Hval2. cbv zeta.
  destruct (commit_of_record cfg now t1 None kvs1 k v1 st rec1 Hrec Hop Hv1 Hk1 Hval1)
    as (_ & Hkv1 & Htx1).
  fold (only_txid t1) in Hkv1, Htx1.
  set (s1 := out_state (do_POST cfg now "/commit" (only_txid t1) st)) in *.
  pose proof (prepare_tables cfg now t2 (JObj kvs2) true s1 Hv2) as Htx2.
  pose proof (prepare_kv cfg now t2 (JObj kvs2) true s1 Hv2) as Hkv2.
  set (s2 := out_state (do_POST cfg now "/prepare" (with_op t2 (JObj kvs2)) s1)) in *.
  destruct (commit_of_record cfg now t2 None kvs2 k v2 s2
              {| state := READY; op := JObj kvs2; ts := Some now |})
    as (_ & Hkv3 & Htx3); try done.
  { by rewrite Htx2, lookup_insert_eq. }
  fold (only_txid t2) in Hkv3, Htx3.
  set (s3 := out_state (do_POST cfg now "/commit" (only_txid t2) s2)) in *.
  destruct (commit_of_record cfg now t1 None kvs1 k v1 s3 (set_state rec1 COMMITTED))
    as (Hr & Hkv4 & _); try done.
  { rewrite Htx3, lookup_insert_ne by done.
    rewrite Htx2, lookup_insert_ne by done.
    by rewrite Htx1, lookup_insert_eq. }
  fold (only_txid t1) in Hr, Hkv4.
  split; [by rewrite Hkv1, lookup_insert_eq|].
  split; [by rewrite Hkv3, lookup_insert_eq|].
  split; [exact Hr|]. by rewrite Hkv4, lookup_insert_eq.
Qed.

Lemma repeated_commit_witness :
  kv (out_state
        (do_POST cfg_wal 20 "/commit" (only_txid "t1")
           (out_state
              (do_POST cfg_wal 20 "/commit" (only_txid "t2")
                 (out_state
                    (do_POST cfg_wal 20 "/prepare"
                       (with_op "t2" MoreSamples.op_set_again)
                       (out_state
                          (do_POST cfg_wal 20 "/commit" (only_txid "t1")
                             (serve cfg_wal (initial None)
                                MoreSamples.prepare_t1))))))))) !! "x"
  = Some "1".
Proof.
  pose proof (repeated_commit_reverts_newer_value cfg_wal 20 "t1" "t2"
                [("type", JStr "SET"); ("key", JStr "x"); ("value", JStr "1")]
                [("type", JStr "SET"); ("key", JStr "x"); ("value", JStr "2")]
                (JStr "x") (JStr "1") (JStr "2")
                (serve cfg_wal (initial None) MoreSamples.prepare_t1)
                {| state := READY; op := op_set; ts := Some 10 |}) as H.
  cbv zeta in H.
  exact (proj2 (proj2 (proj2
           (H ltac:(discriminate) eq_refl eq_refl eq_refl eq_refl eq_refl eq_refl
              eq_refl eq_refl)))).
Defined.

End RepeatFacts.

Module RecordFacts.

Import Py Json Coordinator CoordinatorMain SystemProps DecisionFacts EventFacts.

Local Open Scope list_scope.

Lemma dict_get_set {A} (d : list (string * A)) k v :
  dict_get (dict_set d k v) k = Some v.
Proof.
  induction d as [|[k0 v0] d IH]; simpl.
  - by rewrite String.eqb_refl.
  - destruct (String.eqb k0 k) eqn:Hk; simpl; rewrite Hk; [done|exact IH].
Qed.

Lemma dict_get_set_ne {A} (d : list (string * A)) k k' v :
  k' <> k -> dict_get (dict_set d k v) k' = dict_get d k'.
Proof.
  intros Hne. induction d as [|[k0 v0] d IH]; simpl.
  - destruct (String.eqb k k') eqn:Hk; [|done].
    apply String.eqb_eq in Hk. by subst.
  - destruct (String.eqb k0 k) eqn:Hk; simpl.
    + apply String.eqb_eq in Hk as ->.
      destruct (String.eqb k k') eqn:Hk'; [|done].
      apply String.eqb_eq in Hk'. by subst.
    + by rewrite IH.
Qed.

Lemma dict_set_keys {A} (d : list (string * A)) k v :
  k ∈ d.*1 -> (dict_set d k v).*1 = d.*1.
Proof.
  induction d as [|[k0 v0] d IH]; simpl; intros Hin.
  - by apply elem_of_nil in Hin.
  - destruct (String.eqb k0 k) eqn:Hk; simpl; [done|].
    f_equal. apply IH. apply elem_of_cons in Hin as [-> | Hin]; [|done].
    by rewrite String.eqb_refl in Hk.
Qed.

(** X23: the record of a start.  When a start ends, [TX[txid]] is the
    record with state [DONE] that carries the protocol, the decision and the
    votes returned to the client; the records of the other txids are as
    before, and a txid that was in [TX] keeps its place (a second start of a
    txid replaces the record of the first). *)
Theorem start_records_outcome e cfg t o protocol w :
  let w' := fst (start e cfg t o protocol w) in
  let out := snd (start e cfg t o protocol w) in
  o_txid out = t
  /\ dict_get (TX (coord w')) t
     = Some (Done t (if String.eqb (upper (default "2PC" protocol)) "3PC"
                     then "3PC" else "2PC")
               (o_decision out) (o_votes out))
  /\ (forall t', t' <> t -> dict_get (TX (coord w')) t' = dict_get (TX (coord w)) t')
  /\ (t ∈ (TX (coord w)).*1 -> (TX (coord w')).*1 = (TX (coord w)).*1).
Proof.
  cbv zeta.
  destruct (start_phases e cfg t o protocol w) as (w1 & d & Hd & _ & Hco & _ & Hw').
  rewrite Hw', <- Hd. unfold store_done. simpl.
  rewrite send_all_coord, AgreementFacts.coord_wal_append_TX, Hco.
  split; [|split; [apply dict_get_set|split]].
  - destruct (start_outcome e cfg t o protocol w) as (path & _ & ->). done.
  - intros t' Hne. by apply dict_get_set_ne.
  - apply dict_set_keys.
Qed.

End RecordFacts.
